(** * The Application Processor of the 2024 MTU eCTF design

    A shallow embedding of [application_processor.c] and
    [host_messaging.c], and the properties of the boot, scan, replace and
    post-boot receive paths that the design document states.

    Conventions.
    - C integers are [Z]; a [uint32_t] read from a byte buffer is
      assembled little-endian (the target is a Cortex-M4) and a [uint32_t]
      written to one is taken modulo [2^32]; a [uint8_t] is taken modulo
      [256].
    - Byte buffers are [list Z].
    - Everything the firmware links against but which is not part of the
      two source files (bus driver, crypto, libc input, build-time
      constants) is a field of the class [Platform].
    - Every observable action (bus call, console line, flash operation,
      LED, delay) is appended to the [trace] of the machine state, oldest
      first. *)

From Stdlib Require Import ZArith String Ascii List Bool Lia.
Import ListNotations.
Local Open Scope Z_scope.

(** ** Bytes and words *)

Definition UINT32_MAX : Z := 4294967295.
Definition SUCCESS_RETURN : Z := 0.
Definition ERROR_RETURN : Z := -1.

(** The four bytes of a [uint32_t], least significant first. *)
Definition le32 (v : Z) : list Z :=
  [ v mod 256; (v / 256) mod 256; (v / 65536) mod 256; (v / 16777216) mod 256 ].

(** A 32-bit read through a [uint32_t] pointer cast of the byte buffer [p]. *)
Definition read_u32 (p : list Z) : Z :=
  nth 0%nat p 0 mod 256
  + 256 * (nth 1%nat p 0 mod 256)
  + 65536 * (nth 2%nat p 0 mod 256)
  + 16777216 * (nth 3%nat p 0 mod 256).

(** A 32-bit store of [v] through the same cast: the first four bytes are
    replaced. *)
Definition write_u32 (v : Z) (p : list Z) : list Z :=
  le32 v ++ skipn 4 p.

(** [memcpy(dst, src, n)] on byte buffers: the first [n] bytes of [dst]
    become the first [n] bytes of [src]. *)
Definition memcpy (dst src : list Z) (n : nat) : list Z :=
  firstn n src ++ skipn n dst.

(** [a[i] = v] for an array held as a list. *)
Fixpoint upd {A : Type} (i : nat) (v : A) (l : list A) : list A :=
  match l, i with
  | [], _ => []
  | _ :: t, O => v :: t
  | h :: t, S j => h :: upd j v t
  end.

(** ** Console formatting *)

Definition hex_digit (d : Z) : ascii :=
  ascii_of_nat (Z.to_nat (if d <? 10 then 48 + d else 87 + d)).

(** [%08x] of a [uint32_t]. *)
Definition hex8 (v : Z) : string :=
  let w := v mod 4294967296 in
  String (hex_digit ((w / 268435456) mod 16))
 (String (hex_digit ((w / 16777216) mod 16))
 (String (hex_digit ((w / 1048576) mod 16))
 (String (hex_digit ((w / 65536) mod 16))
 (String (hex_digit ((w / 4096) mod 16))
 (String (hex_digit ((w / 256) mod 16))
 (String (hex_digit ((w / 16) mod 16))
 (String (hex_digit (w mod 16)) EmptyString))))))).

(** [%.64s] style read of a C string out of a byte buffer: at most [n]
    characters, stopping at the first NUL. *)
Fixpoint cstring (n : nat) (p : list Z) : string :=
  match n, p with
  | S n', b :: p' =>
      if b mod 256 =? 0 then EmptyString
      else String (ascii_of_nat (Z.to_nat (b mod 256))) (cstring n' p')
  | _, _ => EmptyString
  end.

Definition NL : string := String (ascii_of_nat 10) EmptyString.

(** The string without its last character ([buf[strlen(buf) - 1] = 0]). *)
Fixpoint chop_last (s : string) : string :=
  match s with
  | EmptyString => EmptyString
  | String c EmptyString => EmptyString
  | String c t => String c (chop_last t)
  end.

(** ** Data model *)

(** [component_cmd_t]. *)
Inductive component_cmd_t :=
| COMPONENT_CMD_NONE
| COMPONENT_CMD_SCAN
| COMPONENT_CMD_VALIDATE
| COMPONENT_CMD_BOOT
| COMPONENT_CMD_ATTEST.

Definition cmd_code (c : component_cmd_t) : Z :=
  match c with
  | COMPONENT_CMD_NONE => 0
  | COMPONENT_CMD_SCAN => 1
  | COMPONENT_CMD_VALIDATE => 2
  | COMPONENT_CMD_BOOT => 3
  | COMPONENT_CMD_ATTEST => 4
  end.

(** [msg_t], the message frame of ap_messaging: the three fields the AP
    code reads and writes. *)
Record msg_t := mkMsg {
  opcode : Z;
  rng_chal : Z;
  contents : list Z
}.

Definition set_opcode (v : Z) (m : msg_t) : msg_t :=
  mkMsg v (rng_chal m) (contents m).
Definition set_rng_chal (v : Z) (m : msg_t) : msg_t :=
  mkMsg (opcode m) v (contents m).
Definition set_contents (c : list Z) (m : msg_t) : msg_t :=
  mkMsg (opcode m) (rng_chal m) c.

(** [flash_entry], a packed struct. *)
Record flash_entry := mkEntry {
  flash_magic : Z;
  component_cnt : Z;
  component_ids : list Z;      (* uint32_t component_ids[32] *)
  fe_hash : list Z;            (* uint8_t hash[HASH_LEN] *)
  fe_iv : list Z               (* uint8_t iv[IV_LEN] *)
}.

Definition FLASH_ENC_LEN : nat := 160.

(** The bytes of [flash_magic], [component_cnt] and [component_ids], in
    memory order. *)
Definition header_bytes (e : flash_entry) : list Z :=
  le32 (flash_magic e) ++ le32 (component_cnt e) ++ flat_map le32 (component_ids e).

(** The bytes of the whole struct, as seen through a byte pointer. *)
Definition entry_bytes (e : flash_entry) : list Z :=
  header_bytes e ++ fe_hash e ++ fe_iv e.

Fixpoint words_of_bytes (n : nat) (p : list Z) : list Z :=
  match n with
  | O => []
  | S n' => read_u32 p :: words_of_bytes n' (skipn 4 p)
  end.

(** The struct whose memory holds the bytes [p]. *)
Definition entry_of_bytes (hash_len iv_len : nat) (p : list Z) : flash_entry :=
  mkEntry (read_u32 p)
          (read_u32 (skipn 4 p))
          (words_of_bytes 32 (skipn 8 p))
          (firstn hash_len (skipn 136 p))
          (firstn iv_len (skipn (136 + hash_len) p)).

(** A struct as the C type has it: 32 id slots of 32 bits, [HASH_LEN] hash
    bytes, [IV_LEN] iv bytes, and a count that stays inside the id array. *)
Definition entry_ok (hash_len iv_len : nat) (e : flash_entry) : Prop :=
  length (component_ids e) = 32%nat /\
  length (fe_hash e) = hash_len /\
  length (fe_iv e) = iv_len /\
  0 <= component_cnt e <= 32.

(** ** Observable actions *)

Inductive print_kind := Info | Debug | Error | Success.

Inductive led := LED1 | LED2 | LED3.

Inductive event :=
| EvTransmit (addr : Z) (tx rx : msg_t)   (* ap_transmit(addr), with the frames as they were at the call *)
| EvPollRecv (addr : Z) (skip : Z)         (* ap_poll_recv(addr, skip) *)
| EvResetMsg                               (* reset_msg() *)
| EvPrint (k : print_kind) (s : string)    (* print_info/debug/error/success *)
| EvFlush                                  (* fflush(0) *)
| EvAck                                    (* print_ack() *)
| EvPuts (s : string)                      (* puts(s) *)
| EvFlashErase                             (* flash_simple_erase_page(FLASH_ADDR) *)
| EvFlashWrite (bytes : list Z)            (* flash_simple_write(FLASH_ADDR, bytes, len) *)
| EvLedOn (l : led)                        (* LED_On(l) *)
| EvLedOff (l : led)                       (* LED_Off(l) *)
| EvDelay (us : Z)                         (* MXC_Delay(us) *)
| EvBoot.                                  (* boot(): control leaves the AP logic for good *)

(** ** Machine state *)

(** The AP's globals, the flash page and the trace, over the state [W] of
    the outside world. *)
Record ap_state (W : Type) := mkState {
  transmit : msg_t;              (* extern msg_t transmit *)
  receive : msg_t;               (* extern msg_t receive *)
  flash_status : flash_entry;    (* the RAM copy of the roster *)
  flash : list Z;                (* the flash page at FLASH_ADDR *)
  world : W;
  trace : list event
}.
Arguments mkState {W}.
Arguments transmit {W}.
Arguments receive {W}.
Arguments flash_status {W}.
Arguments flash {W}.
Arguments world {W}.
Arguments trace {W}.

Section State.
Context {W : Type}.
Implicit Type s : ap_state W.

Definition set_transmit (m : msg_t) s : ap_state W :=
  mkState m (receive s) (flash_status s) (flash s) (world s) (trace s).
Definition set_receive (m : msg_t) s : ap_state W :=
  mkState (transmit s) m (flash_status s) (flash s) (world s) (trace s).
Definition set_flash_status (e : flash_entry) s : ap_state W :=
  mkState (transmit s) (receive s) e (flash s) (world s) (trace s).
Definition set_flash (f : list Z) s : ap_state W :=
  mkState (transmit s) (receive s) (flash_status s) f (world s) (trace s).
Definition set_world (w : W) s : ap_state W :=
  mkState (transmit s) (receive s) (flash_status s) (flash s) w (trace s).
Definition log (e : event) s : ap_state W :=
  mkState (transmit s) (receive s) (flash_status s) (flash s) (world s) (trace s ++ [e]).

End State.

(** ** The platform *)

(** What the two source files call but do not define.  [World] is the
    state of everything outside the AP's own variables: the bus and the
    peers on it, the console input, the random number generator. *)
Class Platform := {
  World : Type;
  HASH_LEN : nat;
  IV_LEN : nat;
  FLASH_MAGIC : Z;
  COMPONENT_CNT : Z;
  COMPONENT_IDS : list Z;
  AP_TOKEN : string;
  AP_BOOT_MSG : string;
  (* ap_messaging: both calls see and may change both frames *)
  ap_transmit : Z -> msg_t * msg_t -> World -> Z * (msg_t * msg_t) * World;
  ap_poll_recv : Z -> Z -> msg_t * msg_t -> World -> Z * (msg_t * msg_t) * World;
  reset_msg : msg_t * msg_t -> World -> (msg_t * msg_t) * World;
  (* board_link *)
  component_id_to_i2c_addr : Z -> Z;
  (* crypto *)
  hash : list Z -> list Z;
  aes_encrypt : list Z -> list Z -> list Z;   (* data, iv *)
  aes_decrypt : list Z -> list Z -> list Z;   (* data, iv *)
  rng_gen : World -> Z * World;
  secure_memcmp : string -> string -> nat -> Z;
  time_delay : Z -> Z -> World -> World;
  (* libc: fgets(buf, n, stdin) gives the C string it stored, or None for
     NULL; sscanf(buf, "%x", &v) gives the value it stored, or None when
     nothing was converted and v is left alone *)
  fgets : nat -> World -> option string * World;
  sscanf_x : string -> option Z;
  (* the crypto calls fill exactly the output buffer they are given *)
  hash_length : forall d, length (hash d) = HASH_LEN;
  aes_encrypt_length : forall d iv, length (aes_encrypt d iv) = length d;
  aes_decrypt_length : forall d iv, length (aes_decrypt d iv) = length d
}.

(** ** The AP code *)

Section AP.
Context {P : Platform}.

Abbreviation state := (ap_state World).

(** A C statement sequence: a function of the state giving a value and
    the next state. *)
Definition M (A : Type) : Type := state -> A * state.

Definition ret {A : Type} (a : A) : M A := fun s => (a, s).
Definition bind {A B : Type} (m : M A) (k : A -> M B) : M B :=
  fun s => let (a, s') := m s in k a s'.
Definition gets {A : Type} (f : state -> A) : M A := fun s => (f s, s).
Definition modify (f : state -> state) : M unit := fun s => (tt, f s).
Definition emit (e : event) : M unit := modify (log e).

Notation "x <- m ;; k" := (bind m (fun x => k))
  (at level 61, m at next level, right associativity).
Notation "m ;;; k" := (bind m (fun _ => k))
  (at level 61, right associativity).

(** *** Calls into the platform *)

Definition call_ap_transmit (addr : Z) : M Z := fun s =>
  let s1 := log (EvTransmit addr (transmit s) (receive s)) s in
  match ap_transmit addr (transmit s, receive s) (world s) with
  | (r, (tx, rx), w) => (r, set_world w (set_receive rx (set_transmit tx s1)))
  end.

Definition call_ap_poll_recv (addr skip : Z) : M Z := fun s =>
  let s1 := log (EvPollRecv addr skip) s in
  match ap_poll_recv addr skip (transmit s, receive s) (world s) with
  | (r, (tx, rx), w) => (r, set_world w (set_receive rx (set_transmit tx s1)))
  end.

Definition call_reset_msg : M unit := fun s =>
  let s1 := log EvResetMsg s in
  match reset_msg (transmit s, receive s) (world s) with
  | ((tx, rx), w) => (tt, set_world w (set_receive rx (set_transmit tx s1)))
  end.

Definition print (k : print_kind) (text : string) : M unit := emit (EvPrint k text).

(** *** secure_receive *)

(** [buffer] is the caller's buffer; the result is the return value and
    the buffer after the call. *)
Definition secure_receive (address : Z) (buffer : list Z) : M (Z * list Z) :=
  call_reset_msg ;;;
  result <- call_ap_poll_recv address 1 ;;
  if negb (result =? SUCCESS_RETURN) then ret (-1, buffer)
  else
    call_ap_transmit address ;;;
    result <- call_ap_poll_recv address 0 ;;
    if negb (result =? SUCCESS_RETURN) then ret (-1, buffer)
    else
      rx <- gets receive ;;
      let len := nth 0%nat (contents rx) 0 mod 256 in
      if len >? 64 then ret (-1, buffer)
      else ret (len, memcpy buffer (skipn 1 (contents rx)) (Z.to_nat len)).

(** *** Loops *)

(** [for (i = i0; i < i0 + n; i++) a = body(i, a);] where [a] stands for
    the locals the body updates; a [continue] is the body returning. *)
Fixpoint for_range {A : Type} (n i : nat) (body : nat -> A -> M A) (a : A) : M A :=
  match n with
  | O => ret a
  | S n' => a' <- body i a ;; for_range n' (S i) body a'
  end.

(** The same loop for a body that can [return] from the enclosing
    function: [Some r] leaves the loop with [r]. *)
Fixpoint for_until {R : Type} (n i : nat) (body : nat -> M (option R)) : M (option R) :=
  match n with
  | O => ret None
  | S n' =>
      r <- body i ;;
      match r with
      | Some x => ret (Some x)
      | None => for_until n' (S i) body
      end
  end.

(** [flash_status.component_cnt] as a loop bound and
    [flash_status.component_ids[i]].  No loop body changes the count, so a
    loop [for (i = 0; i < component_cnt; i++)] runs [roster_cnt] times.  The
    count of a record never exceeds the 32 slots of the array (it is the
    build-time COMPONENT_CNT), so [i] stays inside the list. *)
Definition roster_cnt (s : state) : nat := Z.to_nat (component_cnt (flash_status s)).
Definition roster_id (i : nat) (s : state) : Z := nth i (component_ids (flash_status s)) 0.

(** *** issue_cmd *)

Definition issue_cmd (addr : Z) : M Z :=
  result <- call_ap_transmit addr ;;
  if negb (result =? SUCCESS_RETURN) then ret ERROR_RETURN
  else
    result <- call_ap_poll_recv addr 0 ;;
    if negb (result =? SUCCESS_RETURN) then ret ERROR_RETURN
    else ret SUCCESS_RETURN.

Definition set_transmit_opcode (c : component_cmd_t) : M unit :=
  modify (fun s => set_transmit (set_opcode (cmd_code c) (transmit s)) s).

(** *** scan_components *)

(** The body of the first loop: the [P>] line of roster entry [i]. *)
Definition print_provisioned (i : nat) (_ : unit) : M unit :=
  id <- gets (roster_id i) ;;
  print Info ("P>0x" ++ hex8 id ++ NL).

(** The body of the second loop, for the bus address [a]. *)
Definition scan_body (a : nat) (_ : unit) : M unit :=
  let addr := Z.of_nat a in
  if (addr =? 0x18) || (addr =? 0x28) || (addr =? 0x36) then ret tt
  else
    set_transmit_opcode COMPONENT_CMD_SCAN ;;;
    result <- issue_cmd addr ;;
    if result =? SUCCESS_RETURN then
      rx <- gets receive ;;
      print Info ("F>0x" ++ hex8 (read_u32 (contents rx)) ++ NL)
    else ret tt.

Definition scan_components : M Z :=
  cnt <- gets roster_cnt ;;
  for_range cnt 0 print_provisioned tt ;;;
  for_range 112 8 scan_body tt ;;;
  print Success ("List" ++ NL) ;;;
  ret SUCCESS_RETURN.

(** *** validate_components *)

(** One iteration of the loop; the locals it carries are
    [validate_result] and the caller's [challenges] array. *)
Definition validate_body (i : nat) (loc : Z * list Z) : M (Z * list Z) :=
  let '(validate_result, challenges) := loc in
  id_i <- gets (roster_id i) ;;
  let addr := component_id_to_i2c_addr id_i in
  set_transmit_opcode COMPONENT_CMD_VALIDATE ;;;
  r <- issue_cmd addr ;;
  if negb (r =? SUCCESS_RETURN) then
    print Error ("Component ID: 0x" ++ hex8 id_i ++ " invalid" ++ NL) ;;;
    ret (ERROR_RETURN, challenges)
  else
    r <- issue_cmd addr ;;
    if negb (r =? SUCCESS_RETURN) then
      print Error ("Component ID: 0x" ++ hex8 id_i ++ " invalid" ++ NL) ;;;
      ret (ERROR_RETURN, challenges)
    else
      rx <- gets receive ;;
      let id := read_u32 (contents rx) in
      let challenges := upd i (rng_chal rx) challenges in
      if negb (id =? id_i) then
        print Error ("Component ID: 0x" ++ hex8 id_i ++ " invalid" ++ NL) ;;;
        ret (ERROR_RETURN, challenges)
      else ret (validate_result, challenges).

(** The result is the return value and the [challenges] array after the
    call. *)
Definition validate_components (challenges : list Z) : M (Z * list Z) :=
  cnt <- gets roster_cnt ;;
  for_range cnt 0 validate_body (SUCCESS_RETURN, challenges).

(** *** boot_components *)

(** One iteration of the loop; the local it carries is [boot_result]. *)
Definition boot_body (challenges : list Z) (i : nat) (boot_result : Z) : M Z :=
  id_i <- gets (roster_id i) ;;
  let addr := component_id_to_i2c_addr id_i in
  modify (fun s => set_receive (set_rng_chal (nth i challenges 0) (receive s)) s) ;;;
  modify (fun s =>
    set_transmit
      (set_contents
         (write_u32 (if negb (boot_result =? SUCCESS_RETURN) then UINT32_MAX else SUCCESS_RETURN)
                    (contents (transmit s)))
         (transmit s)) s) ;;;
  ret_ <- issue_cmd addr ;;
  if negb (ret_ =? SUCCESS_RETURN) then
    print Error ("Could not boot component 0x" ++ hex8 id_i ++ NL) ;;;
    ret ERROR_RETURN
  else
    rx <- gets receive ;;
    let comp_boot := read_u32 (contents rx) in
    if comp_boot =? SUCCESS_RETURN then
      print Info ("0x" ++ hex8 id_i ++ ">" ++ cstring 64 (skipn 4 (contents rx)) ++ NL) ;;;
      ret boot_result
    else
      print Error ("Could not boot component 0x" ++ hex8 id_i ++ NL) ;;;
      ret ERROR_RETURN.

Definition boot_components (challenges : list Z) (validate_result : Z) : M Z :=
  cnt <- gets roster_cnt ;;
  for_range cnt 0 (boot_body challenges) validate_result.

(** *** attempt_boot *)

(** [comp_challenges] is what the uninitialised local array holds when the
    function starts.  The result tells whether [boot()] was entered. *)
Definition attempt_boot (comp_challenges : list Z) : M bool :=
  vr <- validate_components comp_challenges ;;
  let '(validate_result, comp_challenges) := vr in
  boot_result <- boot_components comp_challenges validate_result ;;
  if negb (boot_result =? SUCCESS_RETURN) then
    print Error ("Boot Failed" ++ NL) ;;;
    ret false
  else
    print Info ("AP>" ++ AP_BOOT_MSG ++ NL) ;;;
    print Success ("Boot" ++ NL) ;;;
    call_reset_msg ;;;
    emit EvBoot ;;;
    ret true.

(** *** Flash *)

(** The flash driver (simple_flash.c) is not among the sources.  The
    state keeps the bytes of the one page that holds the record. *)

(** Modelled from the spec: [flash_simple_read] of simple_flash.c, which
    is missing; it reads the first [n] bytes of the page. *)
Definition flash_simple_read (n : nat) : M (list Z) :=
  gets (fun s => firstn n (flash s)).

(** Modelled from the spec: [flash_simple_erase_page] of simple_flash.c,
    which is missing; the whole page is erased, every byte reading 0xFF
    afterwards. *)
Definition flash_simple_erase_page : M unit :=
  emit EvFlashErase ;;;
  modify (fun s => set_flash (repeat 255 (length (flash s))) s).

(** Modelled from the spec: [flash_simple_write] of simple_flash.c, which
    is missing; a contiguous write of the given bytes from the start of the
    erased page. *)
Definition flash_simple_write (bytes : list Z) : M unit :=
  emit (EvFlashWrite bytes) ;;;
  modify (fun s => set_flash (memcpy (flash s) bytes (length bytes)) s).

Definition sizeof_flash_entry : nat := 136 + HASH_LEN + IV_LEN.

(** The call [hash(&flash_status, flash_status.hash, FLASH_ENC_LEN - 24)]:
    the hash field is recomputed from the leading bytes of the struct. *)
Definition rehash (e : flash_entry) : flash_entry :=
  mkEntry (flash_magic e) (component_cnt e) (component_ids e)
          (hash (firstn (FLASH_ENC_LEN - 24) (entry_bytes e)))
          (fe_iv e).

(** The local [encrypted_flash]: a copy of the struct whose first
    [FLASH_ENC_LEN] bytes are then overwritten by [aes_encrypt]. *)
Definition encrypted_flash (e : flash_entry) : list Z :=
  memcpy (firstn sizeof_flash_entry (entry_bytes e))
         (aes_encrypt (firstn FLASH_ENC_LEN (entry_bytes e)) (fe_iv e))
         FLASH_ENC_LEN.

Fixpoint bytes_eqb (a b : list Z) : bool :=
  match a, b with
  | [], [] => true
  | x :: a', y :: b' => (x =? y) && bytes_eqb a' b'
  | _, _ => false
  end.

(** The eight bytes of a [uint64_t], least significant first. *)
Definition le64 (v : Z) : list Z :=
  le32 (v mod 4294967296) ++ le32 (v / 4294967296).

Definition call_rng_gen : M Z := fun s =>
  let (r, w) := rng_gen (world s) in (r, set_world w s).

(** *** init *)

(** The calls that set up interrupts, the flash controller and the board
    link have no effect on the state modelled here and are left out. *)
Definition init : M unit :=
  raw <- flash_simple_read sizeof_flash_entry ;;
  modify (set_flash_status (entry_of_bytes HASH_LEN IV_LEN raw)) ;;;
  (* Decrypt flash *)
  e <- gets flash_status ;;
  let decryptedFlash := aes_decrypt (firstn FLASH_ENC_LEN (entry_bytes e)) (fe_iv e) in
  modify (set_flash_status
            (entry_of_bytes HASH_LEN IV_LEN (memcpy (entry_bytes e) decryptedFlash FLASH_ENC_LEN))) ;;;
  (* Validate hash *)
  e <- gets flash_status ;;
  let flashHash := hash (firstn (FLASH_ENC_LEN - 24) (entry_bytes e)) in
  let hash_result :=
    if bytes_eqb (firstn HASH_LEN (fe_hash e)) (firstn HASH_LEN flashHash)
    then SUCCESS_RETURN else ERROR_RETURN in
  (* Check magic value *)
  let magic_result :=
    if flash_magic e =? FLASH_MAGIC then SUCCESS_RETURN else ERROR_RETURN in
  (if negb (magic_result =? SUCCESS_RETURN) || negb (hash_result =? SUCCESS_RETURN) then
     print Debug ("Failed to verify flash integrity, resetting flash!" ++ NL) ;;;
     let n := Z.to_nat COMPONENT_CNT in
     modify (set_flash_status
               (mkEntry FLASH_MAGIC COMPONENT_CNT
                        (firstn n (COMPONENT_IDS ++ repeat 0 n) ++ skipn n (component_ids e))
                        (fe_hash e) (fe_iv e))) ;;;
     (* Construct hash *)
     e <- gets flash_status ;;
     modify (set_flash_status (rehash e)) ;;;
     (* Generate an IV *)
     randValue <- call_rng_gen ;;
     e <- gets flash_status ;;
     modify (set_flash_status
               (mkEntry (flash_magic e) (component_cnt e) (component_ids e) (fe_hash e)
                        (memcpy (fe_iv e) (le64 randValue) 8))) ;;;
     randValue <- call_rng_gen ;;
     e <- gets flash_status ;;
     modify (set_flash_status
               (mkEntry (flash_magic e) (component_cnt e) (component_ids e) (fe_hash e)
                        (firstn 8 (fe_iv e) ++ memcpy (skipn 8 (fe_iv e)) (le64 randValue) 8))) ;;;
     e <- gets flash_status ;;
     flash_simple_erase_page ;;;
     flash_simple_write (encrypted_flash e)
   else ret tt).

(** *** recv_input (host_messaging.c) *)

Definition call_fgets (n : nat) : M (option string) := fun s =>
  let (r, w) := fgets n (world s) in (r, set_world w s).

(** [buf] is the content of the caller's buffer before the call, the
    result its content after.  A line that [fgets] returns loses its last
    character; when [fgets] returns NULL the buffer is left as it was. *)
Definition recv_input (msg : string) (buf : string) (len : nat) : M string :=
  print Debug msg ;;;
  emit EvFlush ;;;
  emit EvAck ;;;
  fgets_out <- call_fgets len ;;
  let buf := match fgets_out with
             | Some line => chop_last line
             | None => buf
             end in
  emit (EvPuts EmptyString) ;;;
  ret buf.

(** *** validate_token *)

(** [buf] is what the uninitialised local buffer holds at entry. *)
Definition validate_token (buf : string) : M Z :=
  buf <- recv_input "Enter token: " buf 50 ;;
  let token := substring 0 16 AP_TOKEN in
  modify (fun s => set_world (time_delay 500000 1500000 (world s)) s) ;;;
  if (String.length buf =? 16)%nat && (secure_memcmp buf token 16 =? 0) then
    print Debug ("Token Accepted!" ++ NL) ;;;
    ret SUCCESS_RETURN
  else
    print Error ("Invalid Token!" ++ NL) ;;;
    ret ERROR_RETURN.

(** *** attempt_replace *)

Definition set_component_id (i : nat) (v : Z) (e : flash_entry) : flash_entry :=
  mkEntry (flash_magic e) (component_cnt e) (upd i v (component_ids e))
          (fe_hash e) (fe_iv e).

(** The body of the first loop of [attempt_replace]: [Some tt] is its
    [return]. *)
Definition duplicate_check (component_id_in : Z) (i : nat) : M (option unit) :=
  id_i <- gets (roster_id i) ;;
  if id_i =? component_id_in then
    print Error ("Component 0x" ++ hex8 component_id_in ++ " is already provisioned!" ++ NL) ;;;
    ret (Some tt)
  else ret None.

(** The body of the second loop: [Some tt] is its [return]. *)
Definition swap_out (component_id_in component_id_out : Z) (i : nat) : M (option unit) :=
  id_i <- gets (roster_id i) ;;
  if id_i =? component_id_out then
    modify (fun s => set_flash_status (set_component_id i component_id_in (flash_status s)) s) ;;;
    (* Update flash hash, and encrypt before writing back to flash *)
    modify (fun s => set_flash_status (rehash (flash_status s)) s) ;;;
    e <- gets flash_status ;;
    flash_simple_erase_page ;;;
    flash_simple_write (encrypted_flash e) ;;;
    print Debug ("Replaced 0x" ++ hex8 component_id_out ++ " with 0x"
                 ++ hex8 component_id_in ++ NL) ;;;
    print Success ("Replace" ++ NL) ;;;
    ret (Some tt)
  else ret None.

(** The part of [attempt_replace] after the two ids have been read: the
    duplicate check, the search for the slot to swap out, and the flash
    update. *)
Definition replace_component (component_id_in component_id_out : Z) : M unit :=
  cnt <- gets roster_cnt ;;
  (* Make sure the in component is not already provisioned *)
  dup <- for_until cnt 0 (duplicate_check component_id_in) ;;
  match dup with
  | Some _ => ret tt
  | None =>
      (* Find the component to swap out *)
      found <- for_until cnt 0 (swap_out component_id_in component_id_out) ;;
      match found with
      | Some _ => ret tt
      | None =>
          print Error ("Component 0x" ++ hex8 component_id_out
                       ++ " is not provisioned for the system"
                       ++ String (ascii_of_nat 13) NL)
      end
  end.

(** What [sscanf(buf, "%x", &v)] leaves in [v] when [v] was [0] before. *)
Definition scan_hex_or_zero (buf : string) : Z :=
  match sscanf_x buf with
  | Some v => v
  | None => 0
  end.

(** [token_buf] and [buf] are what the uninitialised local buffers of
    [validate_token] and of [attempt_replace] hold at entry. *)
Definition attempt_replace (token_buf buf : string) : M unit :=
  r <- validate_token token_buf ;;
  if negb (r =? 0) then
    emit (EvLedOff LED3) ;;;
    emit (EvDelay 4000000) ;;;
    emit (EvLedOn LED3)
  else
    buf <- recv_input "Component ID In: " buf 50 ;;
    let component_id_in := scan_hex_or_zero buf in
    buf <- recv_input "Component ID Out: " buf 50 ;;
    let component_id_out := scan_hex_or_zero buf in
    replace_component component_id_in component_id_out.

(** *** secure_send *)

(** [p[0] = v] for a [uint8_t] value, in an array that has a first
    byte. *)
Definition write_u8 (v : Z) (p : list Z) : list Z :=
  match p with
  | [] => []
  | _ :: t => v mod 256 :: t
  end.

(** [memcpy(&dst[off], src, n)] as far as the array [dst] goes.  The array
    has a fixed size, which the call keeps: for [off + n <= length dst] and
    [n <= length src] the bytes [off .. off + n - 1] become the first [n]
    bytes of [src] and every other byte is kept.  When [off + n] exceeds
    the size, the C call writes the bytes that do not fit outside the
    array; they are not followed here, and the properties of the callers
    are stated for a copy that fits. *)
Definition memcpy_at (off : nat) (dst src : list Z) (n : nat) : list Z :=
  firstn (length dst) (firstn off dst ++ memcpy (skipn off dst) src n).

(** [address] and [len] are [uint8_t] parameters. *)
Definition secure_send (address : Z) (buffer : list Z) (len : Z) : M Z :=
  let address := address mod 256 in
  let len := len mod 256 in
  call_reset_msg ;;;
  (* Initiate handshake *)
  result <- call_ap_transmit address ;;
  if negb (result =? SUCCESS_RETURN) then ret ERROR_RETURN
  else
    (* Receive next part of handshake *)
    result <- call_ap_poll_recv address 0 ;;
    if negb (result =? SUCCESS_RETURN) then ret ERROR_RETURN
    else
      modify (fun s =>
        set_transmit (set_contents (write_u8 len (contents (transmit s))) (transmit s)) s) ;;;
      modify (fun s =>
        set_transmit
          (set_contents (memcpy_at 1 (contents (transmit s)) buffer (Z.to_nat len))
                        (transmit s)) s) ;;;
      call_ap_transmit address.

(** *** get_provisioned_ids *)

(** [buffer] is the caller's array of 32-bit words; the result is the
    return value and the array after the call. *)
Definition get_provisioned_ids (buffer : list Z) : M (Z * list Z) :=
  e <- gets flash_status ;;
  ret (component_cnt e,
       memcpy buffer (component_ids e) (Z.to_nat (component_cnt e))).

(** *** attest_component *)

(** The body of the loop that looks the id up; the local it carries is
    [provisioned]. *)
Definition attest_lookup (component_id : Z) (i : nat) (provisioned : Z) : M Z :=
  id_i <- gets (roster_id i) ;;
  if component_id =? id_i then ret 1 else ret provisioned.

(** A local [char field[65]] filled with 64 bytes of [receive.contents]
    from offset [off] and closed with a NUL. *)
Definition attestation_field (off : nat) (c : list Z) : list Z :=
  firstn 64 (skipn off c) ++ [0].

Definition attest_component (component_id : Z) : M Z :=
  cnt <- gets roster_cnt ;;
  (* Check that this is a provisioned component *)
  provisioned <- for_range cnt 0 (attest_lookup component_id) 0 ;;
  if provisioned =? 0 then
    print Error ("Cannot attest non-provisioned component" ++ NL) ;;;
    ret ERROR_RETURN
  else
    let addr := component_id_to_i2c_addr component_id in
    set_transmit_opcode COMPONENT_CMD_ATTEST ;;;
    ret_ <- issue_cmd addr ;;
    if negb (ret_ =? SUCCESS_RETURN) then
      print Error ("Failed to validate component" ++ NL) ;;;
      ret ERROR_RETURN
    else
      ret_ <- issue_cmd addr ;;
      if negb (ret_ =? SUCCESS_RETURN) then
        print Error ("Failed to retrieve attestation data" ++ NL) ;;;
        ret ERROR_RETURN
      else
        rx <- gets receive ;;
        let attestation_loc := attestation_field 0 (contents rx) in
        let attestation_date := attestation_field 65 (contents rx) in
        let attestation_cust := attestation_field 130 (contents rx) in
        print Info ("C>0x" ++ hex8 component_id ++ NL) ;;;
        print Info ("LOC>" ++ cstring 64 attestation_loc ++ NL) ;;;
        print Info ("DATE>" ++ cstring 64 attestation_date ++ NL) ;;;
        print Info ("CUST>" ++ cstring 64 attestation_cust ++ NL) ;;;
        print Success ("Attest" ++ NL) ;;;
        ret SUCCESS_RETURN.

(** *** validate_pin *)

(** [AP_PIN] is the build-time macro; [buf] is what the uninitialised
    local buffer holds at entry. *)
Definition validate_pin (AP_PIN : string) (buf : string) : M Z :=
  buf <- recv_input "Enter pin: " buf 50 ;;
  let pin := substring 0 6 AP_PIN in
  modify (fun s => set_world (time_delay 500000 1500000 (world s)) s) ;;;
  if (String.length buf =? 6)%nat && (secure_memcmp buf pin 6 =? 0) then
    print Debug ("Pin Accepted!" ++ NL) ;;;
    ret SUCCESS_RETURN
  else
    print Error ("Invalid PIN!" ++ NL) ;;;
    ret ERROR_RETURN.

(** *** attempt_attest *)

(** [pin_buf] and [buf] are what the uninitialised buffers hold at entry,
    [component_id] what the uninitialised local [component_id] holds: it
    keeps that value when [sscanf] converts nothing. *)
Definition attempt_attest (AP_PIN : string) (pin_buf buf : string) (component_id : Z)
  : M unit :=
  r <- validate_pin AP_PIN pin_buf ;;
  if negb (r =? 0) then
    emit (EvLedOff LED3) ;;;
    emit (EvDelay 4000000) ;;;
    emit (EvLedOn LED3)
  else
    buf <- recv_input "Component ID: " buf 50 ;;
    let component_id := match sscanf_x buf with
                        | Some v => v
                        | None => component_id
                        end in
    attest_component component_id ;;;
    ret tt.

(** *** main *)

(** What the uninitialised locals of the command handlers hold when a
    command is dispatched. *)
Record stack := mkStack {
  st_token_buf : string;        (* buf of validate_token *)
  st_pin_buf : string;          (* buf of validate_pin *)
  st_buf : string;              (* buf of attempt_replace and attempt_attest *)
  st_challenges : list Z;       (* comp_challenges of attempt_boot *)
  st_component_id : Z           (* component_id of attempt_attest *)
}.

(** The [if]/[else if] chain of [main] on the command in [buf].  The
    result tells whether [boot()] was entered, which ends the command
    loop. *)
Definition dispatch (AP_PIN : string) (g : stack) (buf : string) : M bool :=
  if String.eqb buf "list" then scan_components ;;; ret false
  else if String.eqb buf "boot" then attempt_boot (st_challenges g)
  else if String.eqb buf "replace" then
    attempt_replace (st_token_buf g) (st_buf g) ;;; ret false
  else if String.eqb buf "attest" then
    attempt_attest AP_PIN (st_pin_buf g) (st_buf g) (st_component_id g) ;;; ret false
  else
    print Error ("Unrecognized command '" ++ buf ++ "'" ++ NL) ;;; ret false.

(** The [while (1)] loop of [main], run for one iteration per element of
    [gs] or until [boot()] is entered.  [buf] is the command buffer, which
    keeps its content from one iteration to the next. *)
Fixpoint command_loop (AP_PIN : string) (gs : list stack) (buf : string) : M bool :=
  match gs with
  | [] => ret false
  | g :: gs' =>
      (* Clear out any data that might still be in memory *)
      call_reset_msg ;;;
      buf <- recv_input "Enter Command: " buf 100 ;;
      booted <- dispatch AP_PIN g buf ;;
      if booted then ret true else command_loop AP_PIN gs' buf
  end.

(** [main] up to the end of the iterations given by [gs]. *)
Definition main (AP_PIN : string) (gs : list stack) (buf : string) : M bool :=
  init ;;;
  print Info ("Application Processor Started" ++ NL) ;;;
  emit (EvLedOn LED1) ;;;
  emit (EvLedOn LED3) ;;;
  command_loop AP_PIN gs buf.

End AP.

(** ** print_hex (host_messaging.c) *)

(** [%02x] of a byte. *)
Definition hex2 (b : Z) : string :=
  let w := b mod 256 in
  String (hex_digit (w / 16)) (String (hex_digit (w mod 16)) EmptyString).

(** The characters [print_hex(buf, len)] writes to the standard output. *)
Fixpoint print_hex_from (buf : list Z) (i len : nat) : string :=
  match len with
  | O => NL
  | S len' => (hex2 (nth i buf 0) ++ print_hex_from buf (S i) len')%string
  end.

Definition print_hex (buf : list Z) (len : nat) : string :=
  print_hex_from buf 0 len.
(** * Vocabulary of the properties *)

Section Vocabulary.
Context {P : Platform}.

(** ** The legs of secure_receive *)

(** The state after [reset_msg] and the first polled receive, and that
    receive's result. *)
Definition first_leg (address : Z) (s : ap_state World) : Z * ap_state World :=
  call_ap_poll_recv address 1 (snd (call_reset_msg s)).

(** The middle transmit, run from the state the first leg left. *)
Definition middle_leg (address : Z) (s : ap_state World) : Z * ap_state World :=
  call_ap_transmit address (snd (first_leg address s)).

(** The final polled receive, run from the state the transmit left. *)
Definition last_leg (address : Z) (s : ap_state World) : Z * ap_state World :=
  call_ap_poll_recv address 0 (snd (middle_leg address s)).

(** [receive.contents] after the last leg, and its first byte. *)
Definition received (address : Z) (s : ap_state World) : list Z :=
  contents (receive (snd (last_leg address s))).
Definition length_prefix (address : Z) (s : ap_state World) : Z :=
  nth 0%nat (received address s) 0 mod 256.

(** The return value as a function of the two receive results and the
    length prefix. *)
Definition secure_receive_result (r1 r2 len : Z) : Z :=
  if negb (r1 =? SUCCESS_RETURN) then -1
  else if negb (r2 =? SUCCESS_RETURN) then -1
  else if len >? 64 then -1
  else len.

(** ** Views of the trace *)

(** The [ap_transmit] calls of a trace: address and the two frames as they
    were when the call was made. *)
Definition transmits (tr : list event) : list (Z * msg_t * msg_t) :=
  flat_map (fun e => match e with
                     | EvTransmit a tx rx => [(a, tx, rx)]
                     | _ => []
                     end) tr.

(** Address and opcode of each transmit. *)
Definition commands (tr : list event) : list (Z * Z) :=
  map (fun t => (fst (fst t), opcode (snd (fst t)))) (transmits tr).

(** Address and the 32-bit word at the head of [transmit.contents] of each
    transmit. *)
Definition verdicts (tr : list event) : list (Z * Z) :=
  map (fun t => (fst (fst t), read_u32 (contents (snd (fst t))))) (transmits tr).

(** Address and [receive.rng_chal] at each transmit. *)
Definition restored (tr : list event) : list (Z * Z) :=
  map (fun t => (fst (fst t), rng_chal (snd t))) (transmits tr).

(** The console lines of a trace. *)
Definition prints (tr : list event) : list (print_kind * string) :=
  flat_map (fun e => match e with
                     | EvPrint k text => [(k, text)]
                     | _ => []
                     end) tr.

(** The flash operations of a trace. *)
Definition flash_ops (tr : list event) : list event :=
  filter (fun e => match e with
                   | EvFlashErase | EvFlashWrite _ => true
                   | _ => false
                   end) tr.

(** ** The boot loop *)

(** [boot_result] when iteration [k] of the loop of [boot_components]
    starts. *)
Definition boot_result_before (challenges : list Z) (validate_result : Z)
    (s : ap_state World) (k : nat) : Z :=
  fst (for_range k 0 (boot_body challenges) validate_result s).

(** The word the loop writes for a given [boot_result]. *)
Definition verdict_for (boot_result : Z) : Z :=
  if boot_result =? SUCCESS_RETURN then 0 else UINT32_MAX.

(** The [issue_cmd] round of iteration [i] of the boot loop, started in
    state [s] with [boot_result] equal to [b]: the saved challenge is put
    into [receive.rng_chal], the verdict word is written at the head of
    [transmit.contents], and the command is issued to the address of
    component [i].  The result of [issue_cmd] and the state it leaves. *)
Definition boot_round (challenges : list Z) (i : nat) (b : Z) (s : ap_state World)
  : Z * ap_state World :=
  let s1 := set_receive (set_rng_chal (nth i challenges 0) (receive s)) s in
  let s2 := set_transmit
              (set_contents (write_u32 (verdict_for b) (contents (transmit s1)))
                            (transmit s1)) s1 in
  issue_cmd (component_id_to_i2c_addr (roster_id i s)) s2.

(** The 32-bit word at the head of [receive.contents] after that round. *)
Definition boot_reply (challenges : list Z) (i : nat) (b : Z) (s : ap_state World) : Z :=
  read_u32 (contents (receive (snd (boot_round challenges i b s)))).

(** The line printed for a component that did not boot. *)
Definition not_booted_line (id : Z) : event :=
  EvPrint Error ("Could not boot component 0x" ++ hex8 id ++ NL).

(** ** The validate loop *)

(** Locals and state when iteration [k] of the loop of
    [validate_components] starts. *)
Definition validate_before (challenges : list Z) (s : ap_state World) (k : nat)
  : (Z * list Z) * ap_state World :=
  for_range k 0 validate_body (SUCCESS_RETURN, challenges) s.

(** The error line of the validate loop. *)
Definition invalid_line (id : Z) : event :=
  EvPrint Error ("Component ID: 0x" ++ hex8 id ++ " invalid" ++ NL).

(** The two [issue_cmd] rounds of iteration [i], without the error lines:
    whether both succeeded, and the state they leave. *)
Definition handshake (i : nat) (s : ap_state World) : bool * ap_state World :=
  let addr := component_id_to_i2c_addr (roster_id i s) in
  let s0 := snd (set_transmit_opcode COMPONENT_CMD_VALIDATE s) in
  let (r1, s1) := issue_cmd addr s0 in
  if negb (r1 =? SUCCESS_RETURN) then (false, s1)
  else
    let (r2, s2) := issue_cmd addr s1 in
    (r2 =? SUCCESS_RETURN, s2).

(** Iteration [i], started in state [s], finds component [i] valid: both
    rounds succeed and the reply carries the roster id. *)
Definition component_valid (i : nat) (s : ap_state World) : bool :=
  fst (handshake i s)
  && (read_u32 (contents (receive (snd (handshake i s)))) =? roster_id i s).

(** ** The scan loop *)

Definition blacklisted (addr : Z) : bool :=
  (addr =? 0x18) || (addr =? 0x28) || (addr =? 0x36).

(** The addresses of [0x08, 0x78) that are not blacklisted, ascending. *)
Definition scan_addresses : list Z :=
  filter (fun a => negb (blacklisted a)) (map Z.of_nat (seq 8 112)).

(** An event the scan loop may produce when it works through the
    addresses [addrs]: a SCAN transmit to one of them, a polled receive
    (with the challenge check on) from one of them, or an info line. *)
Definition scan_event (addrs : list Z) (e : event) : Prop :=
  match e with
  | EvTransmit a tx _ => In a addrs /\ opcode tx = cmd_code COMPONENT_CMD_SCAN
  | EvPollRecv a skip => In a addrs /\ skip = 0
  | EvPrint Info _ => True
  | _ => False
  end.

(** The [P>] lines of a roster. *)
Definition provisioned_lines (s : ap_state World) : list event :=
  map (fun i => EvPrint Info ("P>0x" ++ hex8 (roster_id i s) ++ NL))
      (seq 0 (roster_cnt s)).

(** ** The replace command *)

(** The first index in [i, i + n) at which [ids] holds [id]. *)
Fixpoint slot_from (id : Z) (ids : list Z) (n i : nat) : option nat :=
  match n with
  | O => None
  | S n' => if nth i ids 0 =? id then Some i else slot_from id ids n' (S i)
  end.

(** The first provisioned slot, among the first [component_cnt], that
    holds [id]. *)
Definition roster_slot (id : Z) (e : flash_entry) : option nat :=
  slot_from id (component_ids e) (Z.to_nat (component_cnt e)) 0.

(** The two id prompts of [attempt_replace]: the ids the command goes on
    with, as (in, out), and the state after the second prompt. *)
Definition entered_ids (buf : string) (s : ap_state World) : (Z * Z) * ap_state World :=
  let (buf1, s1) := recv_input "Component ID In: " buf 50 s in
  let (buf2, s2) := recv_input "Component ID Out: " buf1 50 s1 in
  ((scan_hex_or_zero buf1, scan_hex_or_zero buf2), s2).

(** The lines the two prompts left in [buf]. *)
Definition line_in (buf : string) (s : ap_state World) : string :=
  fst (recv_input "Component ID In: " buf 50 s).
Definition line_out (buf : string) (s : ap_state World) : string :=
  fst (recv_input "Component ID Out: " (line_in buf s) 50
                  (snd (recv_input "Component ID In: " buf 50 s))).

Definition duplicate_line (id : Z) : event :=
  EvPrint Error ("Component 0x" ++ hex8 id ++ " is already provisioned!" ++ NL).

Definition not_provisioned_line (id : Z) : event :=
  EvPrint Error ("Component 0x" ++ hex8 id ++ " is not provisioned for the system"
                 ++ String (ascii_of_nat 13) NL).

(** The state a successful swap of slot [i] leaves. *)
Definition replaced (i : nat) (id_in id_out : Z) (s : ap_state World) : ap_state World :=
  let e := rehash (set_component_id i id_in (flash_status s)) in
  mkState (transmit s) (receive s) e
          (memcpy (repeat 255 (length (flash s))) (encrypted_flash e)
                  (length (encrypted_flash e)))
          (world s)
          (trace s ++ [ EvFlashErase; EvFlashWrite (encrypted_flash e);
                        EvPrint Debug ("Replaced 0x" ++ hex8 id_out ++ " with 0x"
                                       ++ hex8 id_in ++ NL);
                        EvPrint Success ("Replace" ++ NL) ]).

(** The bytes of the flash page where the record keeps its IV. *)
Definition flash_iv (page : list Z) : list Z :=
  firstn IV_LEN (skipn (136 + HASH_LEN) page).

(** ** init *)

(** The record [init] holds after reading and decrypting the flash page. *)
Definition loaded_entry (s : ap_state World) : flash_entry :=
  let e0 := entry_of_bytes HASH_LEN IV_LEN (firstn sizeof_flash_entry (flash s)) in
  entry_of_bytes HASH_LEN IV_LEN
    (memcpy (entry_bytes e0)
            (aes_decrypt (firstn FLASH_ENC_LEN (entry_bytes e0)) (fe_iv e0))
            FLASH_ENC_LEN).

(** The magic and hash checks of [init] both pass. *)
Definition integrity_ok (s : ap_state World) : bool :=
  (flash_magic (loaded_entry s) =? FLASH_MAGIC)
  && bytes_eqb (firstn HASH_LEN (fe_hash (loaded_entry s)))
               (firstn HASH_LEN
                  (hash (firstn (FLASH_ENC_LEN - 24) (entry_bytes (loaded_entry s))))).

(** The record [init] builds when a check fails: build-time magic, count
    and ids, their hash, and an IV made of two draws of the generator. *)
Definition reset_entry (s : ap_state World) : flash_entry :=
  let e := loaded_entry s in
  let n := Z.to_nat COMPONENT_CNT in
  let e2 := rehash (mkEntry FLASH_MAGIC COMPONENT_CNT
                            (firstn n (COMPONENT_IDS ++ repeat 0 n) ++ skipn n (component_ids e))
                            (fe_hash e) (fe_iv e)) in
  let r1 := fst (rng_gen (world s)) in
  let r2 := fst (rng_gen (snd (rng_gen (world s)))) in
  let iv1 := memcpy (fe_iv e2) (le64 r1) 8 in
  mkEntry (flash_magic e2) (component_cnt e2) (component_ids e2) (fe_hash e2)
          (firstn 8 iv1 ++ memcpy (skipn 8 iv1) (le64 r2) 8).

(** The state [init] leaves when a check fails. *)
Definition reset_state (s : ap_state World) : ap_state World :=
  let enc := encrypted_flash (reset_entry s) in
  mkState (transmit s) (receive s) (reset_entry s)
          (memcpy (repeat 255 (length (flash s))) enc (length enc))
          (snd (rng_gen (snd (rng_gen (world s)))))
          (trace s ++ [ EvPrint Debug ("Failed to verify flash integrity, resetting flash!" ++ NL);
                        EvFlashErase; EvFlashWrite enc ]).

(** ** Frame conditions *)

(** The bus calls of a trace. *)
Definition bus_calls (tr : list event) : list event :=
  filter (fun e => match e with
                   | EvTransmit _ _ _ | EvPollRecv _ _ => true
                   | _ => false
                   end) tr.

(** From [s] to [s'] the flash page and the RAM copy of the roster are
    kept and no flash operation is made. *)
Definition untouched (s s' : ap_state World) : Prop :=
  flash s' = flash s /\ flash_status s' = flash_status s /\
  exists d, trace s' = trace s ++ d /\ flash_ops d = [].

(** From [s] to [s'] the bus is not used: the frames are kept and no bus
    call is made. *)
Definition off_bus (s s' : ap_state World) : Prop :=
  transmit s' = transmit s /\ receive s' = receive s /\
  exists d, trace s' = trace s ++ d /\ bus_calls d = [].

(** A computation whose every run relates the state before to the state
    after by [R]. *)
Definition keeps {A : Type} (R : ap_state World -> ap_state World -> Prop) (m : M A) : Prop :=
  forall s, R s (snd (m s)).

(** ** secure_send *)

(** [reset_msg] and the first transmit of [secure_send], then its polled
    receive. *)
Definition send_first (address : Z) (s : ap_state World) : Z * ap_state World :=
  call_ap_transmit address (snd (call_reset_msg s)).
Definition send_second (address : Z) (s : ap_state World) : Z * ap_state World :=
  call_ap_poll_recv address 0 (snd (send_first address s)).

(** ** attest_component *)

(** The two [issue_cmd] rounds of [attest_component], without the error
    lines: the results of the rounds run and the state they leave. *)
Definition attest_rounds (component_id : Z) (s : ap_state World) : bool * ap_state World :=
  let addr := component_id_to_i2c_addr component_id in
  let s0 := snd (set_transmit_opcode COMPONENT_CMD_ATTEST s) in
  let (r1, s1) := issue_cmd addr s0 in
  if negb (r1 =? SUCCESS_RETURN) then (false, s1)
  else
    let (r2, s2) := issue_cmd addr s1 in
    (r2 =? SUCCESS_RETURN, s2).

(** The result of the first round alone. *)
Definition attest_first (component_id : Z) (s : ap_state World) : Z :=
  fst (issue_cmd (component_id_to_i2c_addr component_id)
                 (snd (set_transmit_opcode COMPONENT_CMD_ATTEST s))).

(** The error line of a failed round, given the result of the first. *)
Definition attest_error (first_round : Z) : event :=
  EvPrint Error (if first_round =? SUCCESS_RETURN
                 then "Failed to retrieve attestation data" ++ NL
                 else "Failed to validate component" ++ NL).

(** The lines of a successful attestation, for the frame contents [c]. *)
Definition attestation_lines (component_id : Z) (c : list Z) : list event :=
  [ EvPrint Info ("C>0x" ++ hex8 component_id ++ NL);
    EvPrint Info ("LOC>" ++ cstring 64 c ++ NL);
    EvPrint Info ("DATE>" ++ cstring 64 (skipn 65 c) ++ NL);
    EvPrint Info ("CUST>" ++ cstring 64 (skipn 130 c) ++ NL);
    EvPrint Success ("Attest" ++ NL) ].

(** ** Operator authentication *)

(** The test of [validate_token] and [validate_pin] on the line read: the
    length first, the constant-time compare only when the length fits. *)
Definition accepts (secret : string) (n : nat) (line : string) : bool :=
  (String.length line =? n)%nat && (secure_memcmp line (substring 0 n secret) n =? 0).

(** The penalty after a wrong token or PIN. *)
Definition penalty : list event :=
  [EvLedOff LED3; EvDelay 4000000; EvLedOn LED3].

(** The events of one console prompt. *)
Definition prompt (msg : string) : list event :=
  [EvPrint Debug msg; EvFlush; EvAck; EvPuts EmptyString].

(** ** The roster record *)

(** The 32-bit fields of a record hold 32-bit values. *)
Definition words_ok (e : flash_entry) : Prop :=
  0 <= flash_magic e < 4294967296 /\
  Forall (fun v => 0 <= v < 4294967296) (component_ids e).

Definition is_byte (b : Z) : Prop := 0 <= b < 256.

(** The record passes the checks of [init]: it carries the magic and the
    hash of its own header and ids. *)
Definition sealed (e : flash_entry) : Prop :=
  flash_magic e = FLASH_MAGIC /\ fe_hash e = hash (header_bytes e).

(** The provisioned ids: the first [component_cnt] slots. *)
Definition provisioned_ids (e : flash_entry) : list Z :=
  firstn (Z.to_nat (component_cnt e)) (component_ids e).

(** A flash page that holds the record [e] as the AP writes it. *)
Definition holds_record (page : list Z) (e : flash_entry) : Prop :=
  firstn sizeof_flash_entry page = encrypted_flash e.

(** For the record [e], decryption undoes encryption of its 160-byte span
    and the ciphertext consists of bytes. *)
Definition cipher_ok (e : flash_entry) : Prop :=
  aes_decrypt (aes_encrypt (firstn FLASH_ENC_LEN (entry_bytes e)) (fe_iv e)) (fe_iv e)
    = firstn FLASH_ENC_LEN (entry_bytes e) /\
  Forall is_byte (aes_encrypt (firstn FLASH_ENC_LEN (entry_bytes e)) (fe_iv e)).

(** A sealed record with its 32 id slots. *)
Definition well_sealed (e : flash_entry) : Prop :=
  sealed e /\ length (component_ids e) = 32%nat.

(** ** The flash log of a run *)

(** The two flash operations that store the record [e]. *)
Definition erase_write (e : flash_entry) : list event :=
  [EvFlashErase; EvFlashWrite (encrypted_flash e)].

(** From [s] to [s'] the flash operations made are exactly an erase and a
    write of the image of each record of [es], in this order, and the RAM
    copy ends as the last of them (as it was, when there is none). *)
Definition flash_log (es : list flash_entry) (s s' : ap_state World) : Prop :=
  exists d, trace s' = trace s ++ d /\
            flash_ops d = flat_map erase_write es /\
            flash_status s' = last es (flash_status s).

End Vocabulary.

(** The platform [P] with the return code of every [ap_transmit] call
    replaced by [f] of it; what the call does to the frames and to the
    world stays the same. *)
Definition with_transmit_result (P : Platform) (f : Z -> Z) : Platform := {|
  World := @World P;
  HASH_LEN := @HASH_LEN P;
  IV_LEN := @IV_LEN P;
  FLASH_MAGIC := @FLASH_MAGIC P;
  COMPONENT_CNT := @COMPONENT_CNT P;
  COMPONENT_IDS := @COMPONENT_IDS P;
  AP_TOKEN := @AP_TOKEN P;
  AP_BOOT_MSG := @AP_BOOT_MSG P;
  ap_transmit := fun addr fr w =>
    match @ap_transmit P addr fr w with
    | (r, fr', w') => (f r, fr', w')
    end;
  ap_poll_recv := @ap_poll_recv P;
  reset_msg := @reset_msg P;
  component_id_to_i2c_addr := @component_id_to_i2c_addr P;
  hash := @hash P;
  aes_encrypt := @aes_encrypt P;
  aes_decrypt := @aes_decrypt P;
  rng_gen := @rng_gen P;
  secure_memcmp := @secure_memcmp P;
  time_delay := @time_delay P;
  fgets := @fgets P;
  sscanf_x := @sscanf_x P;
  hash_length := @hash_length P;
  aes_encrypt_length := @aes_encrypt_length P;
  aes_decrypt_length := @aes_decrypt_length P
|}.

(** ** A scripted platform

    An instance of [Platform] whose bus answers from a script, used to run
    the code on concrete inputs. *)

Module Mock.

Record mock_world := mkWorld {
  tx_script : list Z;              (* results of the coming ap_transmit calls; 0 once used up *)
  rx_script : list (Z * msg_t);    (* result of the coming ap_poll_recv calls and, on success, the frame received; -1 once used up *)
  stdin : list string;             (* the coming console lines, newline included *)
  rng_next : Z
}.

Definition zero_msg : msg_t := mkMsg 0 0 (repeat 0 200%nat).

Definition mock_transmit (addr : Z) (fr : msg_t * msg_t) (w : mock_world)
  : Z * (msg_t * msg_t) * mock_world :=
  match tx_script w with
  | [] => (0, fr, w)
  | r :: t => (r, fr, mkWorld t (rx_script w) (stdin w) (rng_next w))
  end.

Definition mock_poll_recv (addr skip : Z) (fr : msg_t * msg_t) (w : mock_world)
  : Z * (msg_t * msg_t) * mock_world :=
  match rx_script w with
  | [] => (-1, fr, w)
  | (r, m) :: t =>
      (r, (fst fr, if r =? 0 then m else snd fr),
       mkWorld (tx_script w) t (stdin w) (rng_next w))
  end.

Definition mock_reset (fr : msg_t * msg_t) (w : mock_world)
  : (msg_t * msg_t) * mock_world := ((zero_msg, zero_msg), w).

Definition mock_hash (d : list Z) : list Z :=
  repeat (fold_right Z.add 0 d mod 256) 32.

Definition mock_aes (d iv : list Z) : list Z :=
  map (fun b => Z.lxor b 90) d.

Definition mock_rng (w : mock_world) : Z * mock_world :=
  (rng_next w, mkWorld (tx_script w) (rx_script w) (stdin w) (rng_next w + 1)).

Definition mock_memcmp (a b : string) (n : nat) : Z :=
  if String.eqb (substring 0 n a) (substring 0 n b) then 0 else 1.

Definition mock_fgets (n : nat) (w : mock_world) : option string * mock_world :=
  match stdin w with
  | [] => (None, w)
  | l :: t => (Some (substring 0 (n - 1) l), mkWorld (tx_script w) (rx_script w) t (rng_next w))
  end.

Definition hex_value (c : ascii) : option Z :=
  let n := Z.of_nat (nat_of_ascii c) in
  if (48 <=? n) && (n <=? 57) then Some (n - 48)
  else if (97 <=? n) && (n <=? 102) then Some (n - 87)
  else if (65 <=? n) && (n <=? 70) then Some (n - 55)
  else None.

Fixpoint hex_digits (acc : Z) (s : string) : Z :=
  match s with
  | EmptyString => acc
  | String c t =>
      match hex_value c with
      | Some d => hex_digits ((16 * acc + d) mod 4294967296) t
      | None => acc
      end
  end.

(** A plain run of hexadecimal digits; nothing is converted when the
    first character is not one. *)
Definition mock_sscanf_x (s : string) : option Z :=
  match s with
  | EmptyString => None
  | String c _ =>
      match hex_value c with
      | Some _ => Some (hex_digits 0 s)
      | None => None
      end
  end.

#[local] Instance platform : Platform := {|
  World := mock_world;
  HASH_LEN := 32;
  IV_LEN := 16;
  FLASH_MAGIC := 0xDEADBEEF;
  COMPONENT_CNT := 2;
  COMPONENT_IDS := [0x11111124; 0x11111125];
  AP_TOKEN := "0123456789abcdef";
  AP_BOOT_MSG := "Test boot message";
  ap_transmit := mock_transmit;
  ap_poll_recv := mock_poll_recv;
  reset_msg := mock_reset;
  component_id_to_i2c_addr := fun id => Z.land id 255;
  hash := mock_hash;
  aes_encrypt := mock_aes;
  aes_decrypt := mock_aes;
  rng_gen := mock_rng;
  secure_memcmp := mock_memcmp;
  time_delay := fun _ _ w => w;
  fgets := mock_fgets;
  sscanf_x := mock_sscanf_x;
  hash_length := fun d => repeat_length _ 32%nat;
  aes_encrypt_length := fun d iv => length_map _ d;
  aes_decrypt_length := fun d iv => length_map _ d
|}.

(** A roster of two components, [0x11111124] and [0x11111125]. *)
Definition roster2 : flash_entry :=
  mkEntry 0xDEADBEEF 2 (0x11111124 :: 0x11111125 :: repeat 0 30%nat)
          (repeat 0 32%nat) (repeat 7 16%nat).

Definition mk (e : flash_entry) (w : mock_world) : ap_state mock_world :=
  mkState zero_msg zero_msg e (repeat 255 256%nat) w [].

(** A received frame with the given challenge and leading bytes. *)
Definition frame (chal : Z) (bytes : list Z) : msg_t :=
  mkMsg 0 chal (bytes ++ repeat 0 (200 - length bytes)%nat).

(** The ids of [Mock.roster2] as reply bytes. *)
Definition id_bytes_0 : list Z := [36; 17; 17; 17].
Definition id_bytes_1 : list Z := [37; 17; 17; 17].

(** Both components validate; then the first one does not answer the boot
    command. *)
Definition boot_failure_script : list (Z * msg_t) :=
  [ (0, frame 1 []); (0, frame 2 id_bytes_0);
    (0, frame 3 []); (0, frame 4 id_bytes_1);
    (-1, zero_msg) ].

(** The first component answers the first round with challenge 5 and
    then falls silent; the second validates with challenges 3 and 4. *)
Definition half_handshake_script : list (Z * msg_t) :=
  [ (0, frame 5 []); (-1, zero_msg);
    (0, frame 3 []); (0, frame 4 id_bytes_1) ].

(** What an uninitialised [comp_challenges] array might hold. *)
Definition stale_challenges : list Z := [0xAAAA; 0xBBBB].

(** A console line as [fgets] returns it. *)
Definition entered (text : string) : string := (text ++ NL)%string.

(** The operator enters the token, then the two ids. *)
Definition console (id_in id_out : string) : mock_world :=
  mkWorld [] [] [entered "0123456789abcdef"; entered id_in; entered id_out] 0.

(** Only the component at 0x24 answers a scan: the 27 addresses scanned
    before it time out. *)
Definition scan_script : list (Z * msg_t) :=
  repeat (-1, zero_msg) 27 ++ [(0, frame 0 id_bytes_0)].

(** Both components validate and boot, with banners "up" and "ok". *)
Definition boot_script : list (Z * msg_t) :=
  [ (0, frame 1 []); (0, frame 2 id_bytes_0);
    (0, frame 3 []); (0, frame 4 id_bytes_1);
    (0, frame 9 [0; 0; 0; 0; 117; 112]); (0, frame 9 [0; 0; 0; 0; 111; 107]) ].

(** A board whose flash page was never written. *)
Definition first_boot : ap_state mock_world :=
  mk (mkEntry 0 0 [] [] []) (mkWorld [] [] [] 5).

(** The state [s] with the operator's input queued and an empty trace. *)
Definition at_console (id_in id_out : string) (s : ap_state mock_world)
  : ap_state mock_world :=
  mkState (transmit s) (receive s) (flash_status s) (flash s) (console id_in id_out) [].

(** A power cycle: the RAM copy of the roster is lost, the flash stays. *)
Definition reboot (s : ap_state mock_world) : ap_state mock_world :=
  mkState zero_msg zero_msg (mkEntry 0 0 [] [] []) (flash s) (world s) [].

(** The board after its first [init]: the build-time roster, sealed and
    written to the flash page. *)
Definition provisioned : ap_state mock_world := snd (@init platform first_boot).

(** The console with the given lines queued. *)
Definition typed (lines : list string) : mock_world :=
  mkWorld [] [] (map entered lines) 0.

(** The same platform on a bus on which every [ap_transmit] fails. *)
Definition dead : Platform := with_transmit_result platform (fun _ => ERROR_RETURN).

(** The first component answers both rounds of an attestation. *)
Definition attest_script : list (Z * msg_t) :=
  [ (0, frame 1 []); (0, frame 2 [76; 79; 67]) ].

(** Values an uninitialised stack might hold when a command is
    dispatched. *)
Definition stale_stack : stack :=
  mkStack EmptyString EmptyString EmptyString stale_challenges 0x11111124.

End Mock.

(** * Properties *)

(** ** Bytes and lists *)

Arguments read_u32 : simpl never.
Arguments write_u32 : simpl never.
Arguments hex8 : simpl never.
Arguments cstring : simpl never.
Arguments verdict_for : simpl never.

Lemma read_write_u32 (v : Z) (p : list Z) :
  read_u32 (write_u32 v p) = v mod 4294967296.
Proof.
  unfold read_u32, write_u32, le32. cbn [app nth].
  rewrite !Z.mod_mod by lia.
  Z.to_euclidean_division_equations. lia.
Qed.

Lemma length_le32 (v : Z) : length (le32 v) = 4%nat.
Proof. reflexivity. Qed.

Lemma length_flat_map_le32 (l : list Z) :
  length (flat_map le32 l) = (4 * length l)%nat.
Proof.
  induction l as [|x l IH]; [reflexivity|].
  cbn [flat_map]. rewrite length_app, IH, length_le32. cbn [length]. lia.
Qed.

Lemma length_upd {A : Type} (i : nat) (v : A) (l : list A) :
  length (upd i v l) = length l.
Proof.
  revert i; induction l as [|x l IH]; intros [|i]; cbn; auto.
Qed.

Lemma nth_upd_same {A : Type} (i : nat) (v d : A) (l : list A) :
  (i < length l)%nat -> nth i (upd i v l) d = v.
Proof.
  revert i; induction l as [|x l IH]; intros [|i] H; cbn in *; try lia; auto.
  apply IH; lia.
Qed.

Lemma nth_upd_other {A : Type} (i j : nat) (v d : A) (l : list A) :
  i <> j -> nth j (upd i v l) d = nth j l d.
Proof.
  revert i j; induction l as [|x l IH]; intros [|i] [|j] H; cbn; auto; try congruence.
Qed.

(** ** secure_receive *)

Section SecureReceive.
Context {P : Platform}.

Ltac run_legs address s :=
  unfold length_prefix in *; unfold received in *; unfold last_leg in *;
  unfold middle_leg in *; unfold first_leg in *;
  unfold secure_receive, bind, ret, gets in *;
  destruct (call_reset_msg s) as [[] s0]; cbn [fst snd] in *;
  destruct (call_ap_poll_recv address 1 s0) as [r1 s1]; cbn [fst snd] in *.

Lemma secure_receive_unfold (address : Z) (buffer : list Z) (s : ap_state World) :
  secure_receive address buffer s =
  if negb (fst (first_leg address s) =? SUCCESS_RETURN)
  then ((-1, buffer), snd (first_leg address s))
  else if negb (fst (last_leg address s) =? SUCCESS_RETURN)
  then ((-1, buffer), snd (last_leg address s))
  else if length_prefix address s >? 64
  then ((-1, buffer), snd (last_leg address s))
  else ((length_prefix address s,
         memcpy buffer (skipn 1 (received address s)) (Z.to_nat (length_prefix address s))),
        snd (last_leg address s)).
Proof.
  run_legs address s.
  destruct (negb (r1 =? SUCCESS_RETURN)); [reflexivity|].
  destruct (call_ap_transmit address s1) as [rt s2]; cbn [fst snd].
  destruct (call_ap_poll_recv address 0 s2) as [r2 s3]; cbn [fst snd].
  destruct (negb (r2 =? SUCCESS_RETURN)); [reflexivity|].
  destruct (_ >? 64); reflexivity.
Qed.

(** C8. When both polled receives of [secure_receive] succeed: a length
    prefix above 64 gives a negative result and leaves the caller's buffer
    as it was; otherwise the result is the prefix and the buffer holds that
    many bytes of [receive.contents], taken from index 1, in front of its
    old tail.  For buffers as large as the C arrays this reads: the length
    is kept, byte [k] below the prefix is [contents[k + 1]], and every
    other byte is untouched. *)
Theorem secure_receive_length_prefix (address : Z) (buffer : list Z) (s : ap_state World) :
  fst (first_leg address s) = SUCCESS_RETURN ->
  fst (last_leg address s) = SUCCESS_RETURN ->
  let len := length_prefix address s in
  let res := fst (fst (secure_receive address buffer s)) in
  let buffer' := snd (fst (secure_receive address buffer s)) in
  0 <= len < 256 /\
  (64 < len -> res < 0 /\ buffer' = buffer) /\
  (len <= 64 ->
     res = len /\
     buffer' = firstn (Z.to_nat len) (skipn 1 (received address s))
               ++ skipn (Z.to_nat len) buffer /\
     ((Z.to_nat len < length (received address s))%nat ->
      (Z.to_nat len <= length buffer)%nat ->
      length buffer' = length buffer /\
      (forall k, (k < Z.to_nat len)%nat ->
                 nth k buffer' 0 = nth (S k) (received address s) 0) /\
      (forall k, (Z.to_nat len <= k)%nat -> nth k buffer' 0 = nth k buffer 0))).
Proof.
  intros H1 H2 len res buffer'. subst res buffer'.
  rewrite secure_receive_unfold, H1, H2. cbn [negb Z.eqb SUCCESS_RETURN].
  fold len.
  assert (Hlen : 0 <= len < 256) by (apply Z.mod_pos_bound; lia).
  split; [exact Hlen|]. split.
  - intros Hbig. destruct (len >? 64) eqn:E; [|lia]. cbn. split; [lia|reflexivity].
  - intros Hsmall. destruct (len >? 64) eqn:E; [lia|]. cbn [fst snd].
    split; [reflexivity|]. split; [reflexivity|].
    intros Hc Hb. unfold memcpy.
    set (n := Z.to_nat len) in *. set (c := received address s) in *.
    assert (Hf : length (firstn n (skipn 1 c)) = n).
    { rewrite length_firstn, length_skipn. lia. }
    split; [|split].
    + rewrite length_app, Hf, length_skipn. lia.
    + intros k Hk. rewrite app_nth1 by lia.
      rewrite nth_firstn. destruct (Nat.ltb_spec k n); [|lia].
      rewrite nth_skipn. reflexivity.
    + intros k Hk. rewrite app_nth2 by lia. rewrite Hf, nth_skipn.
      f_equal. lia.
Qed.

End SecureReceive.

(** C9. [secure_receive] never looks at the result of its middle
    [ap_transmit]: on a platform whose transmit reports any other code [f r]
    in place of [r], the call gives the same return value, buffer and final
    state.  The return value is a function of the two receive results and
    the length prefix alone, and once the first receive has succeeded the
    trace always continues with the transmit and the final polled receive. *)
Theorem secure_receive_ignores_transmit_result
    (P : Platform) (f : Z -> Z) (address : Z) (buffer : list Z) (s : ap_state (@World P)) :
  @secure_receive (with_transmit_result P f) address buffer s
    = @secure_receive P address buffer s
  /\ fst (fst (secure_receive address buffer s))
     = secure_receive_result (fst (first_leg address s)) (fst (last_leg address s))
                             (length_prefix address s)
  /\ trace (snd (secure_receive address buffer s))
     = trace s ++ EvResetMsg :: EvPollRecv address 1 ::
         (if fst (first_leg address s) =? SUCCESS_RETURN
          then [EvTransmit address (transmit (snd (first_leg address s)))
                                   (receive (snd (first_leg address s)));
                EvPollRecv address 0]
          else []).
Proof.
  split; [|split].
  - unfold secure_receive, bind, ret, gets, call_reset_msg, call_ap_poll_recv,
      call_ap_transmit.
    cbn [with_transmit_result ap_transmit ap_poll_recv reset_msg World].
    destruct (reset_msg _ _) as [[tx0 rx0] w0]. cbn.
    destruct (ap_poll_recv address 1 _ _) as [[r1 [tx1 rx1]] w1]. cbn.
    destruct (negb (r1 =? SUCCESS_RETURN)); [reflexivity|].
    destruct (ap_transmit address _ _) as [[rt [tx2 rx2]] w2]. cbn.
    reflexivity.
  - rewrite secure_receive_unfold. unfold secure_receive_result.
    destruct (negb (fst (first_leg address s) =? SUCCESS_RETURN)); [reflexivity|].
    destruct (negb (fst (last_leg address s) =? SUCCESS_RETURN)); [reflexivity|].
    destruct (length_prefix address s >? 64); reflexivity.
  - rewrite secure_receive_unfold.
    unfold length_prefix, received. unfold last_leg. unfold middle_leg. unfold first_leg.
    unfold call_reset_msg, call_ap_poll_recv, call_ap_transmit.
    destruct (reset_msg _ _) as [[tx0 rx0] w0]. cbn.
    destruct (ap_poll_recv address 1 _ _) as [[r1 [tx1 rx1]] w1]. cbn.
    destruct (r1 =? SUCCESS_RETURN); cbn; [|now rewrite <- app_assoc].
    destruct (ap_transmit address _ _) as [[rt [tx2 rx2]] w2]. cbn.
    destruct (ap_poll_recv address 0 _ _) as [[r2 [tx3 rx3]] w3]. cbn.
    destruct (negb (r2 =? SUCCESS_RETURN)); cbn; [now rewrite <- !app_assoc|].
    destruct (_ >? 64); cbn; now rewrite <- !app_assoc.
Qed.

(** The scripted bus answers both receives, the second with the frame
    [3, 10, 20, 30, 0, ...]: three bytes are copied. *)
Lemma secure_receive_length_prefix_witness :
  let s := Mock.mk Mock.roster2
             (Mock.mkWorld [] [(0, Mock.frame 5 []); (0, Mock.frame 6 [3; 10; 20; 30])] [] 0) in
  fst (@first_leg Mock.platform 36 s) = SUCCESS_RETURN /\
  fst (@last_leg Mock.platform 36 s) = SUCCESS_RETURN /\
  fst (@secure_receive Mock.platform 36 (repeat 9 8%nat) s)
    = (3, [10; 20; 30; 9; 9; 9; 9; 9]).
Proof.
  intro s.
  assert (H1 : fst (@first_leg Mock.platform 36 s) = SUCCESS_RETURN) by reflexivity.
  assert (H2 : fst (@last_leg Mock.platform 36 s) = SUCCESS_RETURN) by reflexivity.
  split; [exact H1|]. split; [exact H2|].
  destruct (@secure_receive_length_prefix Mock.platform 36 (repeat 9 8%nat) s H1 H2)
    as (_ & _ & Hsmall).
  assert (Hlen : @length_prefix Mock.platform 36 s = 3) by reflexivity.
  rewrite Hlen in Hsmall.
  destruct (Hsmall ltac:(lia)) as (Hres & Hbuf & _).
  apply injective_projections; cbn [fst snd]; [exact Hres|].
  rewrite Hbuf. reflexivity.
Defined.

(** ** Loops and traces *)

Section Loops.
Context {P : Platform}.

Lemma for_range_end {A : Type} (body : nat -> A -> M A) (n i : nat) (a : A) (s : ap_state World) :
  for_range (S n) i body a s =
  body (i + n)%nat (fst (for_range n i body a s)) (snd (for_range n i body a s)).
Proof.
  revert i a s. induction n as [|n IH]; intros i a s.
  - cbn. unfold bind, ret. rewrite Nat.add_0_r. destruct (body i a s); reflexivity.
  - change (for_range (S (S n)) i body a s)
      with (bind (body i a) (fun a' => for_range (S n) (S i) body a') s).
    change (for_range (S n) i body a s)
      with (bind (body i a) (fun a' => for_range n (S i) body a') s).
    unfold bind. destruct (body i a s) as [a' s'].
    rewrite IH. f_equal. lia.
Qed.

(** A property of the locals and the state that every iteration keeps is
    kept by the loop. *)
Lemma for_range_invariant {A : Type} (I : A -> ap_state World -> Prop)
    (body : nat -> A -> M A) :
  (forall j a s, I a s -> I (fst (body j a s)) (snd (body j a s))) ->
  forall n i a s, I a s ->
    I (fst (for_range n i body a s)) (snd (for_range n i body a s)).
Proof.
  intros Hbody. induction n as [|n IH]; intros i a s H.
  - exact H.
  - cbn. unfold bind. specialize (Hbody i a s H).
    destruct (body i a s) as [a' s']. apply IH. exact Hbody.
Qed.

(** When every iteration keeps [R] and appends a segment satisfying [Q] to
    the trace, the loop appends the segments in order. *)
Lemma for_range_segments {A : Type} (R : ap_state World -> Prop)
    (Q : nat -> list event -> Prop) (body : nat -> A -> M A) :
  (forall j a s, R s ->
     R (snd (body j a s)) /\
     exists d, trace (snd (body j a s)) = trace s ++ d /\ Q j d) ->
  forall n i a s, R s ->
    R (snd (for_range n i body a s)) /\
    exists segs, length segs = n /\
      trace (snd (for_range n i body a s)) = trace s ++ concat segs /\
      forall k, (k < n)%nat -> Q (i + k)%nat (nth k segs []).
Proof.
  intros Hbody. induction n as [|n IH]; intros i a s HR.
  - cbn. split; [exact HR|]. exists []. cbn. rewrite app_nil_r.
    repeat split. intros k Hk; lia.
  - cbn. unfold bind. destruct (Hbody i a s HR) as (HR' & d & Hd & HQ).
    destruct (body i a s) as [a' s']. cbn [fst snd] in *.
    destruct (IH (S i) a' s' HR') as (HR'' & segs & Hlen & Htr & Hall).
    split; [exact HR''|]. exists (d :: segs). cbn [length concat].
    split; [lia|]. split.
    + rewrite Htr, Hd, <- app_assoc. reflexivity.
    + intros [|k] Hk; cbn [nth].
      * rewrite Nat.add_0_r. exact HQ.
      * replace (i + S k)%nat with (S i + k)%nat by lia. apply Hall. lia.
Qed.

Lemma roster_cnt_eq (s1 s2 : ap_state World) :
  flash_status s1 = flash_status s2 -> roster_cnt s1 = roster_cnt s2.
Proof. unfold roster_cnt. now intros ->. Qed.

Lemma roster_id_eq (i : nat) (s1 s2 : ap_state World) :
  flash_status s1 = flash_status s2 -> roster_id i s1 = roster_id i s2.
Proof. unfold roster_id. now intros ->. Qed.

Lemma transmits_app (a b : list event) : transmits (a ++ b) = transmits a ++ transmits b.
Proof. unfold transmits. apply flat_map_app. Qed.

Lemma verdicts_app (a b : list event) : verdicts (a ++ b) = verdicts a ++ verdicts b.
Proof. unfold verdicts. rewrite transmits_app. apply map_app. Qed.

Lemma restored_app (a b : list event) : restored (a ++ b) = restored a ++ restored b.
Proof. unfold restored. rewrite transmits_app. apply map_app. Qed.

Lemma commands_app (a b : list event) : commands (a ++ b) = commands a ++ commands b.
Proof. unfold commands. rewrite transmits_app. apply map_app. Qed.

Lemma flash_ops_app (a b : list event) : flash_ops (a ++ b) = flash_ops a ++ flash_ops b.
Proof. unfold flash_ops. apply filter_app. Qed.

(** *** issue_cmd *)

(** What one [issue_cmd] does: it leaves the roster and the flash alone,
    and appends the transmit, with the frames as they were, followed by at
    most one polled receive. *)
Lemma issue_cmd_effect (addr : Z) (s : ap_state World) :
  flash_status (snd (issue_cmd addr s)) = flash_status s /\
  flash (snd (issue_cmd addr s)) = flash s /\
  (fst (issue_cmd addr s) = SUCCESS_RETURN \/ fst (issue_cmd addr s) = ERROR_RETURN) /\
  exists rest,
    trace (snd (issue_cmd addr s))
      = trace s ++ EvTransmit addr (transmit s) (receive s) :: rest /\
    (rest = [] \/ rest = [EvPollRecv addr 0]).
Proof.
  unfold issue_cmd, bind, ret, call_ap_transmit, call_ap_poll_recv.
  destruct (ap_transmit addr _ _) as [[r [tx rx]] w]. cbn.
  destruct (negb (r =? SUCCESS_RETURN)); cbn.
  - repeat split; auto. exists []. auto.
  - destruct (ap_poll_recv addr 0 _ _) as [[r' [tx' rx']] w']. cbn.
    destruct (negb (r' =? SUCCESS_RETURN)); cbn;
      (repeat split; auto; exists [EvPollRecv addr 0]; rewrite <- app_assoc; auto).
Qed.

End Loops.

(** ** boot_components *)

Section Boot.
Context {P : Platform}.

Lemma verdict_for_cases (b : Z) :
  (if negb (b =? SUCCESS_RETURN) then UINT32_MAX else SUCCESS_RETURN) = verdict_for b.
Proof. unfold verdict_for. destruct (b =? SUCCESS_RETURN); reflexivity. Qed.

Lemma read_u32_verdict (b : Z) (p : list Z) :
  read_u32 (write_u32 (verdict_for b) p) = verdict_for b.
Proof.
  rewrite read_write_u32. unfold verdict_for.
  destruct (b =? SUCCESS_RETURN); reflexivity.
Qed.

(** One iteration of the boot loop: the roster is left alone; exactly one
    transmit is made, to the address of component [i], with the verdict for
    the current [boot_result] at the head of [transmit.contents] and
    [challenges[i]] in [receive.rng_chal]; and [boot_result] can only stay
    or become an error. *)
Lemma boot_body_effect (challenges : list Z) (i : nat) (b : Z) (s : ap_state World) :
  flash_status (snd (boot_body challenges i b s)) = flash_status s /\
  (fst (boot_body challenges i b s) = b \/
   fst (boot_body challenges i b s) = ERROR_RETURN) /\
  exists tx rx rest,
    trace (snd (boot_body challenges i b s))
      = trace s ++ EvTransmit (component_id_to_i2c_addr (roster_id i s)) tx rx :: rest /\
    transmits rest = [] /\
    read_u32 (contents tx) = verdict_for b /\
    rng_chal rx = nth i challenges 0.
Proof.
  unfold boot_body, bind, ret, gets, modify, print, emit.
  rewrite verdict_for_cases.
  match goal with
  | |- context [issue_cmd ?a ?s0] =>
      destruct (issue_cmd_effect a s0) as (Hfs & _ & _ & rest & Htr & Hrest);
      destruct (issue_cmd a s0) as [r s1]
  end.
  cbn in Hfs, Htr.
  assert (Hnil : transmits rest = []) by (destruct Hrest; subst; reflexivity).
  assert (Hv := read_u32_verdict b (contents (transmit s))).
  destruct (negb (r =? SUCCESS_RETURN)); cbn.
  - split; [exact Hfs|]. split; [now right|].
    eexists _, _, (rest ++ [_]). rewrite Htr.
    split; [rewrite <- app_assoc; reflexivity|].
    split; [rewrite transmits_app, Hnil; reflexivity|].
    split; [exact Hv | reflexivity].
  - destruct (read_u32 (contents (receive s1)) =? SUCCESS_RETURN); cbn.
    + split; [exact Hfs|]. split; [now left|].
      eexists _, _, (rest ++ [_]). rewrite Htr.
      split; [rewrite <- app_assoc; reflexivity|].
      split; [rewrite transmits_app, Hnil; reflexivity|].
      split; [exact Hv | reflexivity].
    + split; [exact Hfs|]. split; [now right|].
      eexists _, _, (rest ++ [_]). rewrite Htr.
      split; [rewrite <- app_assoc; reflexivity|].
      split; [rewrite transmits_app, Hnil; reflexivity|].
      split; [exact Hv | reflexivity].
Qed.


(** One iteration of the boot loop in terms of its [issue_cmd] round: the
    running result is kept when the command went through and the reply
    starts with the word 0, and becomes an error otherwise; a component
    that did not boot gets the error line. *)
Lemma boot_body_unfold (challenges : list Z) (i : nat) (b : Z) (s : ap_state World) :
  boot_body challenges i b s =
  let s1 := snd (boot_round challenges i b s) in
  if negb (fst (boot_round challenges i b s) =? SUCCESS_RETURN)
  then (ERROR_RETURN, log (not_booted_line (roster_id i s)) s1)
  else if boot_reply challenges i b s =? 0
  then (b, log (EvPrint Info ("0x" ++ hex8 (roster_id i s) ++ ">"
                              ++ cstring 64 (skipn 4 (contents (receive s1))) ++ NL)) s1)
  else (ERROR_RETURN, log (not_booted_line (roster_id i s)) s1).
Proof.
  unfold boot_body, boot_reply, boot_round, not_booted_line.
  unfold bind, ret, gets, modify, print, emit.
  rewrite verdict_for_cases. cbn [fst snd]. cbn zeta.
  destruct (issue_cmd _ _) as [r s1]. cbn [fst snd].
  destruct (negb (r =? SUCCESS_RETURN)); [reflexivity|].
  destruct (read_u32 (contents (receive s1)) =? SUCCESS_RETURN) eqn:E;
    change (read_u32 (contents (receive s1)) =? 0) with
           (read_u32 (contents (receive s1)) =? SUCCESS_RETURN);
    rewrite E; reflexivity.
Qed.

(** An iteration leaves the running result at success exactly when it was
    success, the command went through and the reply starts with 0. *)
Lemma boot_body_success (challenges : list Z) (i : nat) (b : Z) (s : ap_state World) :
  (fst (boot_body challenges i b s) = SUCCESS_RETURN <->
   b = SUCCESS_RETURN /\
   fst (boot_round challenges i b s) = SUCCESS_RETURN /\
   boot_reply challenges i b s = 0) /\
  (fst (boot_round challenges i b s) <> SUCCESS_RETURN \/ boot_reply challenges i b s <> 0 ->
   fst (boot_body challenges i b s) = ERROR_RETURN).
Proof.
  rewrite boot_body_unfold. cbn zeta.
  destruct (Z.eqb_spec (fst (boot_round challenges i b s)) SUCCESS_RETURN) as [E1|E1];
    cbn [negb fst].
  - destruct (Z.eqb_spec (boot_reply challenges i b s) 0) as [E2|E2]; cbn [fst].
    + split; [tauto|]. intros [H|H]; contradiction.
    + split; [|reflexivity]. split; [discriminate|]. intros (_ & _ & H). contradiction.
  - split; [|reflexivity]. split; [discriminate|]. intros (_ & H & _). contradiction.
Qed.

Lemma boot_result_before_S (challenges : list Z) (vr : Z) (s : ap_state World) (k : nat) :
  boot_result_before challenges vr s (S k) =
  fst (boot_body challenges k (boot_result_before challenges vr s k)
                 (snd (for_range k 0 (boot_body challenges) vr s))).
Proof. unfold boot_result_before. rewrite for_range_end. reflexivity. Qed.

(** Once [boot_result] has left success it does not come back. *)
Lemma boot_result_sticky (challenges : list Z) (vr : Z) (s : ap_state World) (k : nat) :
  boot_result_before challenges vr s (S k) = SUCCESS_RETURN ->
  boot_result_before challenges vr s k = SUCCESS_RETURN.
Proof.
  rewrite boot_result_before_S.
  destruct (boot_body_effect challenges k (boot_result_before challenges vr s k)
              (snd (for_range k 0 (boot_body challenges) vr s))) as (_ & [H|H] & _);
    rewrite H; [auto | discriminate].
Qed.

Lemma boot_result_failed (challenges : list Z) (vr : Z) (s : ap_state World) (k : nat) :
  vr <> SUCCESS_RETURN -> boot_result_before challenges vr s k <> SUCCESS_RETURN.
Proof.
  intros Hvr. induction k as [|k IH]; [exact Hvr|].
  intros H. apply IH. now apply boot_result_sticky.
Qed.

(** The loop of [boot_components] after [n] iterations: the roster is as
    before and the transmits made are one per component, in roster order. *)
Lemma boot_loop_effect (challenges : list Z) (vr : Z) (s : ap_state World) (n : nat) :
  let s' := snd (for_range n 0 (boot_body challenges) vr s) in
  flash_status s' = flash_status s /\
  verdicts (trace s') =
    verdicts (trace s) ++
    map (fun k => (component_id_to_i2c_addr (roster_id k s),
                   verdict_for (boot_result_before challenges vr s k))) (seq 0 n) /\
  restored (trace s') =
    restored (trace s) ++
    map (fun k => (component_id_to_i2c_addr (roster_id k s), nth k challenges 0)) (seq 0 n).
Proof.
  induction n as [|n IH]; cbn zeta in *.
  - cbn. rewrite !app_nil_r. auto.
  - rewrite for_range_end. cbn [Nat.add].
    destruct IH as (Hfs & Hv & Hr).
    destruct (boot_body_effect challenges n
                (fst (for_range n 0 (boot_body challenges) vr s))
                (snd (for_range n 0 (boot_body challenges) vr s)))
      as (Hfs' & _ & tx & rx & rest & Htr & Hnil & Hword & Hchal).
    rewrite seq_S, !map_app. cbn [map Nat.add].
    split; [congruence|].
    assert (Hid : roster_id n (snd (for_range n 0 (boot_body challenges) vr s)) = roster_id n s)
      by (unfold roster_id; now rewrite Hfs).
    rewrite Hid in Htr.
    split.
    + rewrite Htr, verdicts_app, Hv, <- app_assoc. f_equal.
      unfold verdicts. cbn [transmits flat_map app map fst snd].
      fold (transmits rest). rewrite Hnil, Hword. reflexivity.
    + rewrite Htr, restored_app, Hr, <- app_assoc. f_equal.
      unfold restored. cbn [transmits flat_map app map fst snd].
      fold (transmits rest). rewrite Hnil, Hchal. reflexivity.
Qed.

(** C1 (amended). The word [boot_components] writes at the head of
    [transmit.contents] before the transmit to peer [k], in roster order, is
    0 when [boot_result] is still success as iteration [k] starts and
    UINT32_MAX otherwise.  [boot_result] starts as the result of
    [validate_components] and, once an error, stays one: it is success
    after iteration [k] exactly when it was success before it, [issue_cmd]
    to peer [k] succeeded and the reply of peer [k] starts with the 32-bit
    word 0, and it is ERROR_RETURN after an iteration whose [issue_cmd]
    failed or whose reply word is not 0.  So when validation failed every
    peer is sent UINT32_MAX, and when it passed the first peer is sent 0; a
    later peer is sent 0 only while no earlier peer has failed to boot. *)
Theorem boot_verdict_follows_boot_result
    (challenges : list Z) (validate_result : Z) (s : ap_state World) :
  let running := boot_result_before challenges validate_result s in
  verdicts (trace (snd (boot_components challenges validate_result s)))
    = verdicts (trace s) ++
      map (fun k => (component_id_to_i2c_addr (roster_id k s), verdict_for (running k)))
          (seq 0 (roster_cnt s))
  /\ running 0%nat = validate_result
  /\ (forall k, running (S k) = SUCCESS_RETURN -> running k = SUCCESS_RETURN)
  /\ (forall k, running (S k) =
                fst (boot_body challenges k (running k)
                       (snd (for_range k 0 (boot_body challenges) validate_result s))))
  /\ (forall k,
        let s_k := snd (for_range k 0 (boot_body challenges) validate_result s) in
        (running (S k) = SUCCESS_RETURN <->
         running k = SUCCESS_RETURN /\
         fst (boot_round challenges k (running k) s_k) = SUCCESS_RETURN /\
         boot_reply challenges k (running k) s_k = 0) /\
        (fst (boot_round challenges k (running k) s_k) <> SUCCESS_RETURN \/
         boot_reply challenges k (running k) s_k <> 0 ->
         running (S k) = ERROR_RETURN))
  /\ (validate_result <> SUCCESS_RETURN ->
      forall k, verdict_for (running k) = UINT32_MAX)
  /\ (validate_result = SUCCESS_RETURN -> verdict_for (running 0%nat) = 0).
Proof.
  intro running. subst running.
  split; [|split; [|split; [|split; [|split; [|split]]]]].
  - unfold boot_components, bind, gets.
    apply (boot_loop_effect challenges validate_result s (roster_cnt s)).
  - reflexivity.
  - apply boot_result_sticky.
  - apply boot_result_before_S.
  - intros k. cbn zeta. rewrite boot_result_before_S. apply boot_body_success.
  - intros Hvr k. unfold verdict_for.
    destruct (Z.eqb_spec (boot_result_before challenges validate_result s k) SUCCESS_RETURN)
      as [E|E]; [|reflexivity].
    exfalso. exact (boot_result_failed challenges validate_result s k Hvr E).
  - intros ->. reflexivity.
Qed.

End Boot.

(** Validation failed: both peers are sent UINT32_MAX. *)
Lemma boot_verdict_follows_boot_result_witness :
  let s := Mock.mk Mock.roster2 (Mock.mkWorld [] [] [] 0) in
  ERROR_RETURN <> SUCCESS_RETURN /\
  verdicts (trace (snd (@boot_components Mock.platform [0; 0] ERROR_RETURN s)))
    = [(36, UINT32_MAX); (37, UINT32_MAX)].
Proof.
  intro s.
  assert (Hne : ERROR_RETURN <> SUCCESS_RETURN) by discriminate.
  split; [exact Hne|].
  destruct (@boot_verdict_follows_boot_result Mock.platform [0; 0] ERROR_RETURN s)
    as (Hv & _ & _ & _ & _ & Hmax & _).
  rewrite Hv. cbn [trace Mock.mk verdicts transmits flat_map map app].
  change (@roster_cnt Mock.platform s) with 2%nat. cbn [seq map].
  rewrite !(Hmax Hne). reflexivity.
Defined.

(** C1 as stated fails: [validate_components] reports success, the first
    peer does not answer the boot command, and the second peer is sent
    UINT32_MAX. *)
Lemma boot_verdict_counterexample :
  let s := Mock.mk Mock.roster2 (Mock.mkWorld [] Mock.boot_failure_script [] 0) in
  let v := @validate_components Mock.platform [0; 0] s in
  fst (fst v) = SUCCESS_RETURN /\
  verdicts (trace (snd (@boot_components Mock.platform (snd (fst v)) (fst (fst v)) (snd v))))
    = verdicts (trace (snd v)) ++ [(36, 0); (37, UINT32_MAX)].
Proof. vm_compute. split; reflexivity. Qed.

(** ** validate_components *)

Section Validate.
Context {P : Platform}.

(** One iteration of the validate loop in terms of its handshake. *)
Lemma validate_body_unfold (i : nat) (vr : Z) (ch : list Z) (s : ap_state World) :
  validate_body i (vr, ch) s =
  let s2 := snd (handshake i s) in
  if fst (handshake i s) then
    let ch' := upd i (rng_chal (receive s2)) ch in
    if read_u32 (contents (receive s2)) =? roster_id i s
    then ((vr, ch'), s2)
    else ((ERROR_RETURN, ch'), log (invalid_line (roster_id i s)) s2)
  else ((ERROR_RETURN, ch), log (invalid_line (roster_id i s)) s2).
Proof.
  unfold validate_body, handshake, invalid_line, bind, ret, gets, print, emit, modify.
  cbn [fst snd set_transmit_opcode modify].
  unfold set_transmit_opcode, modify. cbn [fst snd].
  destruct (issue_cmd _ _) as [r1 s1]. cbn [fst snd].
  destruct (r1 =? SUCCESS_RETURN); cbn [negb fst snd]; [|reflexivity].
  destruct (issue_cmd _ s1) as [r2 s2]. cbn [fst snd].
  destruct (r2 =? SUCCESS_RETURN); cbn [negb fst snd]; [|reflexivity].
  destruct (read_u32 (contents (receive s2)) =? roster_id i s); reflexivity.
Qed.

(** The handshake leaves the roster alone and starts with a VALIDATE
    transmit to the component's address. *)
Lemma handshake_effect (i : nat) (s : ap_state World) :
  flash_status (snd (handshake i s)) = flash_status s /\
  exists tx rx rest,
    trace (snd (handshake i s))
      = trace s ++ EvTransmit (component_id_to_i2c_addr (roster_id i s)) tx rx :: rest /\
    opcode tx = cmd_code COMPONENT_CMD_VALIDATE.
Proof.
  unfold handshake, set_transmit_opcode, modify. cbn [fst snd].
  match goal with
  | |- context [issue_cmd ?a ?s0] =>
      destruct (issue_cmd_effect a s0) as (Hfs & _ & _ & rest & Htr & _);
      destruct (issue_cmd a s0) as [r1 s1]
  end.
  cbn in Hfs, Htr.
  destruct (negb (r1 =? SUCCESS_RETURN)); cbn [fst snd].
  - split; [exact Hfs|]. eexists _, _, rest. split; [exact Htr | reflexivity].
  - destruct (issue_cmd_effect (component_id_to_i2c_addr (roster_id i s)) s1)
      as (Hfs2 & _ & _ & rest2 & Htr2 & _).
    destruct (issue_cmd _ s1) as [r2 s2]. cbn [fst snd] in *.
    split; [congruence|].
    eexists _, _, (rest ++ _ :: rest2). rewrite Htr2, Htr, <- app_assoc.
    split; reflexivity.
Qed.

Lemma validate_body_effect (i : nat) (vr : Z) (ch : list Z) (s : ap_state World) :
  let r := validate_body i (vr, ch) s in
  flash_status (snd r) = flash_status s /\
  fst (fst r) = (if component_valid i s then vr else ERROR_RETURN) /\
  snd (fst r) = (if fst (handshake i s)
                 then upd i (rng_chal (receive (snd (handshake i s)))) ch
                 else ch) /\
  exists tx rx rest,
    trace (snd r)
      = trace s ++ EvTransmit (component_id_to_i2c_addr (roster_id i s)) tx rx :: rest /\
    opcode tx = cmd_code COMPONENT_CMD_VALIDATE.
Proof.
  cbn zeta. rewrite validate_body_unfold. unfold component_valid. cbn zeta.
  destruct (handshake_effect i s) as (Hfs & tx & rx & rest & Htr & Hop).
  destruct (fst (handshake i s)); cbn [andb].
  - destruct (read_u32 _ =? roster_id i s); cbn [fst snd].
    + repeat split; auto. eexists _, _, rest. split; [exact Htr | exact Hop].
    + repeat split; auto. eexists _, _, (rest ++ [_]). cbn [log trace].
      rewrite Htr, <- app_assoc. split; [reflexivity | exact Hop].
  - cbn [fst snd]. repeat split; auto. eexists _, _, (rest ++ [_]). cbn [log trace].
    rewrite Htr, <- app_assoc. split; [reflexivity | exact Hop].
Qed.

Lemma validate_before_S (ch : list Z) (s : ap_state World) (k : nat) :
  validate_before ch s (S k) =
  validate_body k (fst (validate_before ch s k)) (snd (validate_before ch s k)).
Proof. unfold validate_before. rewrite for_range_end. reflexivity. Qed.

Lemma validate_before_roster (ch : list Z) (s : ap_state World) (k : nat) :
  flash_status (snd (validate_before ch s k)) = flash_status s.
Proof.
  induction k as [|k IH]; [reflexivity|].
  rewrite validate_before_S.
  destruct (fst (validate_before ch s k)) as [vr c].
  destruct (validate_body_effect k vr c (snd (validate_before ch s k))) as (H & _).
  congruence.
Qed.

Lemma validate_components_unfold (ch : list Z) (s : ap_state World) :
  validate_components ch s = validate_before ch s (roster_cnt s).
Proof. reflexivity. Qed.

(** The [challenges] array when iteration [n] starts: slots below [n] whose
    handshake succeeded hold the challenge received in its second round,
    every other slot is as the caller passed it. *)
Lemma validate_before_challenges (ch : list Z) (s : ap_state World) (n : nat) :
  let ch_n := snd (fst (validate_before ch s n)) in
  length ch_n = length ch /\
  forall k, (k < length ch)%nat ->
    nth k ch_n 0 =
    if (k <? n)%nat && fst (handshake k (snd (validate_before ch s k)))
    then rng_chal (receive (snd (handshake k (snd (validate_before ch s k)))))
    else nth k ch 0.
Proof.
  induction n as [|n IH]; cbn zeta in *.
  - split; [reflexivity|]. intros k Hk. reflexivity.
  - rewrite validate_before_S.
    destruct IH as (Hlen & Hnth).
    destruct (fst (validate_before ch s n)) as [vr c] eqn:E. cbn [fst snd] in *.
    destruct (validate_body_effect n vr c (snd (validate_before ch s n)))
      as (_ & _ & Hch & _).
    cbn zeta in Hch. rewrite Hch. clear Hch.
    destruct (fst (handshake n (snd (validate_before ch s n)))) eqn:Hok.
    + split; [rewrite length_upd; exact Hlen|].
      intros k Hk. destruct (Nat.eq_dec k n) as [->|Hne].
      * rewrite nth_upd_same by lia. rewrite Hok.
        destruct (Nat.ltb_spec n (S n)); [reflexivity | lia].
      * rewrite nth_upd_other by auto. rewrite (Hnth k Hk).
        destruct (Nat.ltb_spec k n), (Nat.ltb_spec k (S n)); try lia; reflexivity.
    + split; [exact Hlen|].
      intros k Hk. rewrite (Hnth k Hk).
      destruct (Nat.eq_dec k n) as [->|Hne].
      * rewrite Hok.
        destruct (Nat.ltb_spec n n); [lia|]. cbn [andb]. now rewrite andb_false_r.
      * destruct (Nat.ltb_spec k n), (Nat.ltb_spec k (S n)); try lia; reflexivity.
Qed.

(** [validate_result] when iteration [n] starts is success exactly when
    every component before [n] was found valid, and an error otherwise. *)
Lemma validate_before_result (ch : list Z) (s : ap_state World) (n : nat) :
  let vr := fst (fst (validate_before ch s n)) in
  (vr = SUCCESS_RETURN \/ vr = ERROR_RETURN) /\
  (vr = SUCCESS_RETURN <->
   forall k, (k < n)%nat -> component_valid k (snd (validate_before ch s k)) = true).
Proof.
  induction n as [|n IH]; cbn zeta in *.
  - split; [now left|]. split; [intros _ k Hk; lia | reflexivity].
  - rewrite validate_before_S.
    destruct IH as (Hcases & Hiff).
    destruct (fst (validate_before ch s n)) as [vr c] eqn:E. cbn [fst snd] in *.
    destruct (validate_body_effect n vr c (snd (validate_before ch s n)))
      as (_ & Hres & _).
    cbn zeta in Hres. rewrite Hres. clear Hres.
    destruct (component_valid n (snd (validate_before ch s n))) eqn:Hok.
    + split; [exact Hcases|]. rewrite Hiff. split.
      * intros H k Hk. destruct (Nat.eq_dec k n) as [->|Hne]; [exact Hok|].
        apply H. lia.
      * intros H k Hk. apply H. lia.
    + split; [now right|]. split; [discriminate|].
      intros H. specialize (H n ltac:(lia)). congruence.
Qed.


Lemma bounded_counterexample (f : nat -> bool) (n : nat) :
  ~ (forall k, (k < n)%nat -> f k = true) ->
  exists k, (k < n)%nat /\ f k = false.
Proof.
  induction n as [|n IH]; intros H.
  - exfalso. apply H. intros k Hk. lia.
  - destruct (f n) eqn:E.
    + destruct IH as (k & Hk & Hf).
      * intros Hall. apply H. intros k Hk.
        destruct (Nat.eq_dec k n) as [->|Hne]; [exact E | apply Hall; lia].
      * exists k. split; [lia | exact Hf].
    + exists n. split; [lia | exact E].
Qed.

(** C6. [validate_components] runs the handshake of every roster index,
    whatever happened at earlier indices: the events it appends split into
    one segment per index, each starting with a VALIDATE transmit to that
    component's address, and iteration [k] is the handshake followed by the
    error line exactly when the component is not valid.  Its result is
    success or error, and it is error if and only if some index had a
    failing handshake step or a reply id different from the roster id. *)
Theorem validate_components_no_short_circuit (challenges : list Z) (s : ap_state World) :
  let res := fst (fst (validate_components challenges s)) in
  let s' := snd (validate_components challenges s) in
  (res = SUCCESS_RETURN \/ res = ERROR_RETURN) /\
  (res = ERROR_RETURN <->
   exists k, (k < roster_cnt s)%nat /\
             component_valid k (snd (validate_before challenges s k)) = false) /\
  (exists segs, length segs = roster_cnt s /\
     trace s' = trace s ++ concat segs /\
     forall k, (k < roster_cnt s)%nat ->
       exists tx rx rest,
         nth k segs [] = EvTransmit (component_id_to_i2c_addr (roster_id k s)) tx rx :: rest /\
         opcode tx = cmd_code COMPONENT_CMD_VALIDATE) /\
  (forall k,
     trace (snd (validate_before challenges s (S k))) =
     trace (snd (handshake k (snd (validate_before challenges s k)))) ++
     (if component_valid k (snd (validate_before challenges s k))
      then [] else [invalid_line (roster_id k s)])).
Proof.
  cbn zeta. rewrite validate_components_unfold.
  destruct (validate_before_result challenges s (roster_cnt s)) as (Hcases & Hiff).
  cbn zeta in *.
  split; [exact Hcases|]. split; [|split].
  - split.
    + intros Herr. apply bounded_counterexample with
        (f := fun k => component_valid k (snd (validate_before challenges s k))).
      intros Hall. apply Hiff in Hall. rewrite Hall in Herr. discriminate.
    + intros (k & Hk & Hbad). destruct Hcases as [Hs|He]; [|exact He].
      exfalso. rewrite Hiff in Hs. rewrite (Hs k Hk) in Hbad. discriminate.
  - unfold validate_before.
    destruct (for_range_segments
                (fun s0 => flash_status s0 = flash_status s)
                (fun j d => exists tx rx rest,
                   d = EvTransmit (component_id_to_i2c_addr (roster_id j s)) tx rx :: rest /\
                   opcode tx = cmd_code COMPONENT_CMD_VALIDATE)
                validate_body) with (n := roster_cnt s) (i := 0%nat)
                                    (a := (SUCCESS_RETURN, challenges)) (s := s)
      as (_ & segs & Hlen & Htr & Hall).
    + intros j [vr c] s0 HR.
      destruct (validate_body_effect j vr c s0) as (Hfs & _ & _ & tx & rx & rest & Htr & Hop).
      split; [congruence|].
      exists (EvTransmit (component_id_to_i2c_addr (roster_id j s0)) tx rx :: rest).
      split; [exact Htr|]. exists tx, rx, rest. split; [|exact Hop].
      unfold roster_id. now rewrite HR.
    + reflexivity.
    + exists segs. split; [exact Hlen|]. split; [exact Htr|].
      intros k Hk. exact (Hall k Hk).
  - intros k. rewrite validate_before_S.
    destruct (fst (validate_before challenges s k)) as [vr c].
    rewrite validate_body_unfold. unfold component_valid. cbn zeta.
    assert (Hid : roster_id k (snd (validate_before challenges s k)) = roster_id k s)
      by (unfold roster_id; now rewrite validate_before_roster).
    rewrite Hid.
    destruct (fst (handshake k (snd (validate_before challenges s k)))); cbn [andb].
    + destruct (read_u32 _ =? roster_id k s); cbn [fst snd log trace]; [now rewrite app_nil_r | reflexivity].
    + reflexivity.
Qed.

(** [attempt_boot] is [validate_components] followed by
    [boot_components] on the array and result it returned; what follows
    makes no bus call. *)
Lemma attempt_boot_unfold (comp_challenges : list Z) (s : ap_state World) :
  let v := validate_components comp_challenges s in
  let b := boot_components (snd (fst v)) (fst (fst v)) (snd v) in
  fst (attempt_boot comp_challenges s) = (fst b =? SUCCESS_RETURN) /\
  exists tail,
    trace (snd (attempt_boot comp_challenges s)) = trace (snd b) ++ tail /\
    transmits tail = [].
Proof.
  cbn zeta. unfold attempt_boot, bind.
  destruct (validate_components comp_challenges s) as [[vr ch] s1]. cbn [fst snd].
  destruct (boot_components ch vr s1) as [br s2]. cbn [fst snd].
  unfold call_reset_msg, ret, print, emit, modify.
  destruct (br =? SUCCESS_RETURN); cbn [negb fst snd].
  - destruct (reset_msg _ _) as [[tx rx] w]. cbn [fst snd].
    split; [reflexivity|]. eexists. cbn [log set_world set_receive set_transmit trace].
    rewrite <- !app_assoc. split; reflexivity.
  - split; [reflexivity|]. eexists. cbn [log trace]. split; reflexivity.
Qed.

(** C2 (amended).  [boot_components], run on what [validate_components]
    returned, as [attempt_boot] does, transmits to the components in roster
    order with [receive.rng_chal] set to [challenges[k]] at the transmit to
    component [k].  [validate_components] stores into [challenges[k]] the
    [receive.rng_chal] left by the second round of component [k] when both
    rounds of that component succeeded; when a round failed it leaves
    [challenges[k]] as the caller's array had it. *)
Theorem challenges_saved_and_restored (challenges : list Z) (s : ap_state World) :
  let v := validate_components challenges s in
  let challenges' := snd (fst v) in
  restored (trace (snd (boot_components challenges' (fst (fst v)) (snd v))))
    = restored (trace (snd v)) ++
      map (fun k => (component_id_to_i2c_addr (roster_id k s), nth k challenges' 0))
          (seq 0 (roster_cnt s))
  /\ restored (trace (snd (attempt_boot challenges s)))
    = restored (trace (snd (boot_components challenges' (fst (fst v)) (snd v))))
  /\ length challenges' = length challenges
  /\ forall k, (k < roster_cnt s)%nat -> (k < length challenges)%nat ->
       let s_k := snd (validate_before challenges s k) in
       nth k challenges' 0 =
       if fst (handshake k s_k) then rng_chal (receive (snd (handshake k s_k)))
       else nth k challenges 0.
Proof.
  cbn zeta.
  destruct (attempt_boot_unfold challenges s) as (_ & tail & Htail & Hnil).
  cbn zeta in Htail.
  rewrite validate_components_unfold in *.
  pose proof (validate_before_roster challenges s (roster_cnt s)) as Hfs.
  destruct (validate_before_challenges challenges s (roster_cnt s)) as (Hlen & Hnth).
  cbn zeta in *.
  split; [|split; [|split]].
  2: { rewrite Htail, restored_app. unfold restored at 2. rewrite Hnil. cbn [map].
       apply app_nil_r. }
  - unfold boot_components, bind, gets.
    assert (Hcnt : roster_cnt (snd (validate_before challenges s (roster_cnt s))) = roster_cnt s)
      by (apply roster_cnt_eq, Hfs).
    rewrite Hcnt.
    destruct (boot_loop_effect
                (snd (fst (validate_before challenges s (roster_cnt s))))
                (fst (fst (validate_before challenges s (roster_cnt s))))
                (snd (validate_before challenges s (roster_cnt s))) (roster_cnt s))
      as (_ & _ & Hr).
    rewrite Hr. f_equal. apply map_ext. intros k.
    now rewrite (roster_id_eq k _ _ Hfs).
  - exact Hlen.
  - intros k Hk Hk'. rewrite (Hnth k Hk').
    destruct (Nat.ltb_spec k (roster_cnt s)); [reflexivity | lia].
Qed.

End Validate.

(** The first component fails its second round: the result is an error,
    and the theorem names a component that was not valid. *)
Lemma validate_components_no_short_circuit_witness :
  let s := Mock.mk Mock.roster2 (Mock.mkWorld [] Mock.half_handshake_script [] 0) in
  fst (fst (@validate_components Mock.platform [0; 0] s)) = ERROR_RETURN /\
  exists k, (k < @roster_cnt Mock.platform s)%nat /\
            @component_valid Mock.platform k
              (snd (@validate_before Mock.platform [0; 0] s k)) = false.
Proof.
  intro s.
  assert (H : fst (fst (@validate_components Mock.platform [0; 0] s)) = ERROR_RETURN)
    by reflexivity.
  split; [exact H|].
  destruct (@validate_components_no_short_circuit Mock.platform [0; 0] s) as (_ & Hiff & _).
  apply Hiff. exact H.
Defined.

(** The second component completes both rounds: its slot holds the
    challenge of its second round. *)
Lemma challenges_saved_and_restored_witness :
  let s := Mock.mk Mock.roster2 (Mock.mkWorld [] Mock.half_handshake_script [] 0) in
  (1 < @roster_cnt Mock.platform s)%nat /\
  (1 < length Mock.stale_challenges)%nat /\
  nth 1%nat (snd (fst (@validate_components Mock.platform Mock.stale_challenges s))) 0 = 4.
Proof.
  intro s.
  assert (H1 : (1 < @roster_cnt Mock.platform s)%nat) by (vm_compute; lia).
  assert (H2 : (1 < length Mock.stale_challenges)%nat) by (vm_compute; lia).
  split; [exact H1|]. split; [exact H2|].
  destruct (@challenges_saved_and_restored Mock.platform Mock.stale_challenges s)
    as (_ & _ & _ & Hnth).
  rewrite (Hnth 1%nat H1 H2). reflexivity.
Defined.

(** C2 as stated fails: the first component answers the first round with
    challenge 5 and fails the second; [challenges[0]] keeps what the
    caller's array held (0xAAAA), and that is what [boot_components] puts
    into [receive.rng_chal] for this component. *)
Lemma challenges_counterexample :
  let s := Mock.mk Mock.roster2 (Mock.mkWorld [] Mock.half_handshake_script [] 0) in
  let v := @validate_components Mock.platform Mock.stale_challenges s in
  rng_chal (receive (snd (@handshake Mock.platform 0 s))) = 5 /\
  rng_chal (receive (snd v)) = 4 /\
  nth 0%nat (snd (fst v)) 0 = 43690 /\
  restored (trace (snd (@boot_components Mock.platform (snd (fst v)) (fst (fst v)) (snd v))))
    = restored (trace (snd v)) ++ [(36, 43690); (37, 4)].
Proof. vm_compute. repeat split; reflexivity. Qed.

(** ** scan_components *)

Section Scan.
Context {P : Platform}.

Lemma scan_addresses_spec (a : Z) :
  In a scan_addresses <-> 8 <= a < 0x78 /\ a <> 0x18 /\ a <> 0x28 /\ a <> 0x36.
Proof.
  unfold scan_addresses, blacklisted. rewrite filter_In, in_map_iff. split.
  - intros ((n & <- & Hn) & Hb). apply in_seq in Hn.
    rewrite !negb_orb, !andb_true_iff, !negb_true_iff, !Z.eqb_neq in Hb. lia.
  - intros (Hr & H1 & H2 & H3). split.
    + exists (Z.to_nat a). split; [lia|]. apply in_seq. lia.
    + rewrite !negb_orb, !andb_true_iff, !negb_true_iff, !Z.eqb_neq. auto.
Qed.

Lemma scan_event_incl (l1 l2 : list Z) (e : event) :
  incl l1 l2 -> scan_event l1 e -> scan_event l2 e.
Proof.
  intros Hi. destruct e; cbn; auto; intros [H ?]; split; auto.
Qed.

(** The loop that prints the roster appends the [P>] lines and nothing
    else. *)
Lemma print_roster_effect (n i : nat) (s : ap_state World) :
  for_range n i print_provisioned tt s
  = (tt, mkState (transmit s) (receive s) (flash_status s) (flash s) (world s)
           (trace s ++ map (fun i => EvPrint Info ("P>0x" ++ hex8 (roster_id i s) ++ NL))
                           (seq i n))).
Proof.
  revert i s. induction n as [|n IH]; intros i s.
  - cbn. unfold ret. rewrite app_nil_r. now destruct s.
  - cbn [for_range seq map]. unfold bind at 1. unfold print_provisioned at 1.
    unfold bind, gets, print, emit, modify. cbn [fst snd].
    rewrite IH. cbn [log transmit receive flash_status flash world trace].
    rewrite <- app_assoc. reflexivity.
Qed.

(** One iteration of the scan loop: nothing for a blacklisted address,
    otherwise one SCAN transmit to the address, at most one polled receive
    from it and at most one [F>] line. *)
Lemma scan_body_effect (a : nat) (s : ap_state World) :
  flash_status (snd (scan_body a tt s)) = flash_status s /\
  exists d,
    trace (snd (scan_body a tt s)) = trace s ++ d /\
    commands d = (if blacklisted (Z.of_nat a) then []
                  else [(Z.of_nat a, cmd_code COMPONENT_CMD_SCAN)]) /\
    Forall (scan_event (if blacklisted (Z.of_nat a) then [] else [Z.of_nat a])) d.
Proof.
  unfold scan_body, blacklisted.
  destruct ((Z.of_nat a =? 0x18) || (Z.of_nat a =? 0x28) || (Z.of_nat a =? 0x36)).
  - cbn. split; [reflexivity|]. exists []. rewrite app_nil_r. auto.
  - unfold set_transmit_opcode. unfold bind, ret, gets, print, emit, modify.
    cbn beta iota.
    match goal with
    | |- context [issue_cmd ?x ?s0] =>
        destruct (issue_cmd_effect x s0) as (Hfs & _ & _ & rest & Htr & Hrest);
        destruct (issue_cmd x s0) as [r s1]
    end.
    cbn in Hfs, Htr.
    assert (Hcmd : commands rest = []) by (destruct Hrest; subst; reflexivity).
    assert (Hev : Forall (scan_event [Z.of_nat a]) rest).
    { destruct Hrest; subst; repeat constructor. }
    destruct (r =? SUCCESS_RETURN); cbn.
    + split; [exact Hfs|]. eexists (_ :: rest ++ [_]). rewrite Htr.
      split; [rewrite <- app_assoc; reflexivity|]. split.
      * change (?x :: rest ++ ?y) with ([x] ++ rest ++ y).
        rewrite !commands_app, Hcmd. reflexivity.
      * constructor; [cbn; auto|]. apply Forall_app. split; [exact Hev|].
        repeat constructor.
    + split; [exact Hfs|]. eexists (_ :: rest). rewrite Htr.
      split; [reflexivity|]. split.
      * change (?x :: rest) with ([x] ++ rest).
        rewrite !commands_app, Hcmd. reflexivity.
      * constructor; [cbn; auto | exact Hev].
Qed.

Lemma scan_loop_effect (n a : nat) (s : ap_state World) :
  flash_status (snd (for_range n a scan_body tt s)) = flash_status s /\
  exists scanned,
    trace (snd (for_range n a scan_body tt s)) = trace s ++ scanned /\
    commands scanned =
      map (fun x => (x, cmd_code COMPONENT_CMD_SCAN))
          (filter (fun x => negb (blacklisted x)) (map Z.of_nat (seq a n))) /\
    Forall (scan_event (filter (fun x => negb (blacklisted x)) (map Z.of_nat (seq a n))))
           scanned.
Proof.
  revert a s. induction n as [|n IH]; intros a s.
  - cbn. split; [reflexivity|]. exists []. rewrite app_nil_r. auto.
  - cbn [for_range]. unfold bind.
    destruct (scan_body_effect a s) as (Hfs & d & Hd & Hcmd & Hev).
    destruct (scan_body a tt s) as [[] s1]. cbn [fst snd] in *.
    destruct (IH (S a) s1) as (Hfs' & sc & Hsc & Hcmd' & Hev').
    split; [congruence|]. exists (d ++ sc).
    split; [rewrite Hsc, Hd, <- app_assoc; reflexivity|].
    cbn [seq map filter].
    destruct (blacklisted (Z.of_nat a)); cbn [negb].
    + split; [rewrite commands_app, Hcmd, Hcmd'; reflexivity|].
      apply Forall_app. split; [|exact Hev'].
      eapply Forall_impl; [|exact Hev]. intros e. apply scan_event_incl.
      intros x [].
    + split; [rewrite commands_app, Hcmd, Hcmd'; reflexivity|].
      apply Forall_app. split.
      * eapply Forall_impl; [|exact Hev]. intros e. apply scan_event_incl.
        intros x [<-|[]]. now left.
      * eapply Forall_impl; [|exact Hev']. intros e. apply scan_event_incl.
        intros x Hx. now right.
Qed.

(** C5. [scan_components] first prints the [P>] line of every roster
    entry, then works through the bus, then prints the List success marker
    and returns success.  On the bus it transmits a SCAN command exactly
    once to each address of [0x08, 0x78) other than 0x18, 0x28 and 0x36, in
    ascending order, and every bus call it makes goes to one of those
    addresses. *)
Theorem scan_components_covers_bus (s : ap_state World) :
  fst (scan_components s) = SUCCESS_RETURN /\
  (exists scanned,
     trace (snd (scan_components s))
       = trace s ++ provisioned_lines s ++ scanned ++ [EvPrint Success ("List" ++ NL)] /\
     commands scanned
       = map (fun a => (a, cmd_code COMPONENT_CMD_SCAN)) scan_addresses /\
     Forall (scan_event scan_addresses) scanned) /\
  (forall a, In a scan_addresses <->
             8 <= a < 0x78 /\ a <> 0x18 /\ a <> 0x28 /\ a <> 0x36).
Proof.
  split; [|split].
  - unfold scan_components, bind, ret, gets. cbn [fst snd].
    rewrite print_roster_effect.
    destruct (for_range 112 8 _ tt _) as [[] s2]. reflexivity.
  - unfold scan_components, bind, ret, gets, print, emit, modify. cbn [fst snd].
    rewrite print_roster_effect.
    match goal with
    | |- context [for_range 112 8 scan_body tt ?s1] =>
        destruct (scan_loop_effect 112 8 s1) as (_ & scanned & Htr & Hcmd & Hev);
        destruct (for_range 112 8 scan_body tt s1) as [[] s2]
    end.
    cbn [fst snd trace log] in *. exists scanned.
    split; [|split; [exact Hcmd | exact Hev]].
    rewrite Htr. unfold provisioned_lines. rewrite <- !app_assoc. reflexivity.
  - apply scan_addresses_spec.
Qed.

End Scan.

(** ** attempt_replace *)

Section Replace.
Context {P : Platform}.

Lemma duplicate_loop (id : Z) (n i : nat) (s : ap_state World) :
  for_until n i (duplicate_check id) s =
  match slot_from id (component_ids (flash_status s)) n i with
  | Some _ => (Some tt, log (duplicate_line id) s)
  | None => (None, s)
  end.
Proof.
  revert i. induction n as [|n IH]; intros i; [reflexivity|].
  cbn [for_until slot_from]. unfold bind at 1. unfold duplicate_check at 1.
  unfold bind, gets, ret, print, emit, modify, roster_id. cbn [fst snd].
  destruct (nth i (component_ids (flash_status s)) 0 =? id); [reflexivity|].
  apply IH.
Qed.

Lemma swap_loop (id_in id_out : Z) (n i : nat) (s : ap_state World) :
  for_until n i (swap_out id_in id_out) s =
  match slot_from id_out (component_ids (flash_status s)) n i with
  | Some j => (Some tt, replaced j id_in id_out s)
  | None => (None, s)
  end.
Proof.
  revert i. induction n as [|n IH]; intros i; [reflexivity|].
  cbn [for_until slot_from]. unfold bind at 1. unfold swap_out at 1.
  unfold flash_simple_erase_page, flash_simple_write.
  unfold bind, gets, ret, print, emit, modify, roster_id. cbn [fst snd].
  destruct (nth i (component_ids (flash_status s)) 0 =? id_out); [|apply IH].
  unfold replaced, log, set_flash, set_flash_status.
  cbn [flash_status flash trace transmit receive world fst snd].
  rewrite <- !app_assoc. reflexivity.
Qed.

(** The three outcomes of the roster update. *)
Lemma replace_component_unfold (id_in id_out : Z) (s : ap_state World) :
  replace_component id_in id_out s =
  match roster_slot id_in (flash_status s) with
  | Some _ => (tt, log (duplicate_line id_in) s)
  | None =>
      match roster_slot id_out (flash_status s) with
      | Some i => (tt, replaced i id_in id_out s)
      | None => (tt, log (not_provisioned_line id_out) s)
      end
  end.
Proof.
  unfold replace_component, roster_slot. unfold bind at 1. unfold gets at 1.
  unfold bind at 1. rewrite duplicate_loop. unfold roster_cnt.
  destruct (slot_from id_in _ _ _); [reflexivity|].
  unfold bind at 1. rewrite swap_loop. unfold roster_cnt.
  destruct (slot_from id_out _ _ _); reflexivity.
Qed.

(** A slot found by the search is inside the searched range, holds the id,
    and no earlier slot of the range does. *)
Lemma slot_from_spec (id : Z) (ids : list Z) (n i j : nat) :
  slot_from id ids n i = Some j ->
  (i <= j < i + n)%nat /\ nth j ids 0 = id /\
  forall k, (i <= k < j)%nat -> nth k ids 0 <> id.
Proof.
  revert i. induction n as [|n IH]; intros i H; [discriminate|].
  cbn in H. destruct (Z.eqb_spec (nth i ids 0) id) as [E|E].
  - injection H as <-. split; [lia|]. split; [exact E|]. intros k Hk; lia.
  - destruct (IH (S i) H) as (Hr & Hid & Hfirst).
    split; [lia|]. split; [exact Hid|].
    intros k Hk. destruct (Nat.eq_dec k i) as [->|Hne]; [exact E|].
    apply Hfirst. lia.
Qed.

Lemma slot_from_none (id : Z) (ids : list Z) (n i : nat) :
  slot_from id ids n i = None <->
  forall k, (i <= k < i + n)%nat -> nth k ids 0 <> id.
Proof.
  revert i. induction n as [|n IH]; intros i; cbn.
  - split; [intros _ k Hk; lia | reflexivity].
  - destruct (Z.eqb_spec (nth i ids 0) id) as [E|E].
    + split; [discriminate|]. intros H. exfalso. apply (H i); [lia | exact E].
    + rewrite IH. split; intros H k Hk.
      * destruct (Nat.eq_dec k i) as [->|Hne]; [exact E | apply H; lia].
      * apply H. lia.
Qed.

(** A console prompt touches neither the frames, the roster nor the
    flash; it appends the prompt, the ack and the newline to the trace. *)
Lemma recv_input_effect (msg buf : string) (len : nat) (s : ap_state World) :
  let s' := snd (recv_input msg buf len s) in
  transmit s' = transmit s /\ receive s' = receive s /\
  flash_status s' = flash_status s /\ flash s' = flash s /\
  trace s' = trace s ++ [EvPrint Debug msg; EvFlush; EvAck; EvPuts EmptyString].
Proof.
  unfold recv_input, call_fgets, bind, ret, print, emit, modify. cbn [fst snd].
  destruct (fgets len _) as [o w]. cbn. rewrite <- !app_assoc. auto.
Qed.

Lemma validate_token_effect (buf : string) (s : ap_state World) :
  let s' := snd (validate_token buf s) in
  transmit s' = transmit s /\ receive s' = receive s /\
  flash_status s' = flash_status s /\ flash s' = flash s /\
  exists d, trace s' = trace s ++ d /\ flash_ops d = [].
Proof.
  cbn zeta. unfold validate_token, bind.
  destruct (recv_input_effect "Enter token: " buf 50 s) as (Ht & Hr & Hfs & Hf & Htr).
  destruct (recv_input "Enter token: " buf 50 s) as [b s1]. cbn [fst snd] in *.
  unfold ret, print, emit, modify, log, set_world.
  destruct (_ && _);
    cbn [fst snd trace transmit receive flash_status flash];
    rewrite Htr, <- app_assoc;
    (repeat split; auto; eexists; split; [reflexivity | reflexivity]).
Qed.

Lemma entered_ids_effect (buf : string) (s : ap_state World) :
  let s' := snd (entered_ids buf s) in
  transmit s' = transmit s /\ receive s' = receive s /\
  flash_status s' = flash_status s /\ flash s' = flash s /\
  trace s' = trace s ++ [ EvPrint Debug "Component ID In: "; EvFlush; EvAck; EvPuts EmptyString;
                          EvPrint Debug "Component ID Out: "; EvFlush; EvAck; EvPuts EmptyString ] /\
  fst (entered_ids buf s) = (scan_hex_or_zero (line_in buf s), scan_hex_or_zero (line_out buf s)).
Proof.
  cbn zeta. unfold entered_ids, line_out. unfold line_in.
  destruct (recv_input_effect "Component ID In: " buf 50 s) as (Ht & Hr & Hfs & Hf & Htr).
  destruct (recv_input "Component ID In: " buf 50 s) as [b1 s1]. cbn [fst snd] in *.
  destruct (recv_input_effect "Component ID Out: " b1 50 s1) as (Ht2 & Hr2 & Hfs2 & Hf2 & Htr2).
  destruct (recv_input "Component ID Out: " b1 50 s1) as [b2 s2]. cbn [fst snd] in *.
  rewrite Htr2, Htr, <- app_assoc.
  repeat split; try congruence.
Qed.

(** [attempt_replace] as its three stages. *)
Lemma attempt_replace_unfold (token_buf buf : string) (s : ap_state World) :
  attempt_replace token_buf buf s =
  let s1 := snd (validate_token token_buf s) in
  if fst (validate_token token_buf s) =? 0 then
    replace_component (fst (fst (entered_ids buf s1))) (snd (fst (entered_ids buf s1)))
                      (snd (entered_ids buf s1))
  else (tt, log (EvLedOn LED3) (log (EvDelay 4000000) (log (EvLedOff LED3) s1))).
Proof.
  unfold attempt_replace, entered_ids. unfold bind at 1.
  destruct (validate_token token_buf s) as [r s1]. cbn [fst snd].
  destruct (r =? 0); cbn [negb]; [|reflexivity].
  unfold bind.
  destruct (recv_input "Component ID In: " buf 50 s1) as [b1 s2].
  destruct (recv_input "Component ID Out: " b1 50 s2) as [b2 s3].
  reflexivity.
Qed.

End Replace.

(** ** The flash record *)

Section Layout.
Context {P : Platform}.

Lemma length_header_bytes (e : flash_entry) :
  length (component_ids e) = 32%nat -> length (header_bytes e) = 136%nat.
Proof.
  intros H. unfold header_bytes.
  rewrite !length_app, !length_le32, length_flat_map_le32, H. reflexivity.
Qed.

Lemma length_words_of_bytes (n : nat) (p : list Z) : length (words_of_bytes n p) = n.
Proof. revert p. induction n as [|n IH]; intros p; cbn; auto. Qed.

Lemma firstn_exact {A : Type} (l1 l2 : list A) (n : nat) :
  length l1 = n -> firstn n (l1 ++ l2) = l1.
Proof.
  intros <-. rewrite firstn_app, Nat.sub_diag, firstn_all. cbn. apply app_nil_r.
Qed.

Lemma skipn_exact {A : Type} (l1 l2 : list A) (n : nat) :
  length l1 = n -> skipn n (l1 ++ l2) = l2.
Proof.
  intros <-. rewrite skipn_app, Nat.sub_diag, skipn_all. reflexivity.
Qed.

(** The hash input is the header and the ids, nothing more. *)
Lemma hash_region (e : flash_entry) :
  length (component_ids e) = 32%nat ->
  firstn (FLASH_ENC_LEN - 24) (entry_bytes e) = header_bytes e.
Proof.
  intros H. unfold entry_bytes. apply firstn_exact.
  rewrite length_header_bytes by exact H. reflexivity.
Qed.

(** The encrypted span is the header, the ids and the 24 bytes after
    them. *)
Lemma encrypted_region (e : flash_entry) :
  length (component_ids e) = 32%nat ->
  firstn FLASH_ENC_LEN (entry_bytes e)
    = header_bytes e ++ firstn 24 (fe_hash e ++ fe_iv e).
Proof.
  intros H. unfold entry_bytes.
  rewrite firstn_app, length_header_bytes by exact H.
  rewrite firstn_all2 by (rewrite length_header_bytes by exact H; unfold FLASH_ENC_LEN; lia).
  reflexivity.
Qed.

Lemma length_entry_bytes (e : flash_entry) :
  entry_ok HASH_LEN IV_LEN e -> length (entry_bytes e) = sizeof_flash_entry.
Proof.
  intros (Hids & Hh & Hiv & _). unfold entry_bytes, sizeof_flash_entry.
  rewrite !length_app, length_header_bytes, Hh, Hiv by exact Hids. lia.
Qed.

Lemma rehash_hash (e : flash_entry) :
  length (component_ids e) = 32%nat ->
  fe_hash (rehash e) = hash (header_bytes e).
Proof. intros H. unfold rehash. cbn [fe_hash]. now rewrite hash_region. Qed.

Lemma header_bytes_rehash (e : flash_entry) : header_bytes (rehash e) = header_bytes e.
Proof. reflexivity. Qed.

(** What is written to flash: the ciphertext of the 160-byte span, then
    the rest of the struct in the clear. *)
Lemma encrypted_flash_layout (e : flash_entry) :
  entry_ok HASH_LEN IV_LEN e -> (24 <= HASH_LEN + IV_LEN)%nat ->
  encrypted_flash e
    = aes_encrypt (header_bytes e ++ firstn 24 (fe_hash e ++ fe_iv e)) (fe_iv e)
      ++ skipn 24 (fe_hash e ++ fe_iv e) /\
  length (aes_encrypt (header_bytes e ++ firstn 24 (fe_hash e ++ fe_iv e)) (fe_iv e))
    = 160%nat.
Proof.
  intros Hok Hlen. pose proof (length_entry_bytes e Hok) as Hsz.
  destruct Hok as (Hids & Hh & Hiv & Hcnt).
  assert (H160 : length (header_bytes e ++ firstn 24 (fe_hash e ++ fe_iv e)) = 160%nat).
  { rewrite length_app, length_header_bytes, length_firstn, length_app by exact Hids. lia. }
  split; [|rewrite aes_encrypt_length; exact H160].
  unfold encrypted_flash, memcpy.
  rewrite encrypted_region by exact Hids.
  rewrite firstn_all2 by (rewrite aes_encrypt_length, H160; unfold FLASH_ENC_LEN; lia).
  f_equal.
  rewrite firstn_all2 by lia.
  unfold entry_bytes, FLASH_ENC_LEN.
  rewrite skipn_app, length_header_bytes by exact Hids.
  rewrite skipn_all2 by (rewrite length_header_bytes by exact Hids; lia).
  reflexivity.
Qed.

(** When the hash field is at least 24 bytes long the IV lies wholly
    outside the encrypted span: the page written holds it in the clear. *)
Lemma flash_iv_written (e : flash_entry) (page : list Z) :
  entry_ok HASH_LEN IV_LEN e -> (24 <= HASH_LEN)%nat ->
  flash_iv (memcpy page (encrypted_flash e) (length (encrypted_flash e))) = fe_iv e.
Proof.
  intros Hok Hlen.
  destruct (encrypted_flash_layout e Hok ltac:(lia)) as (Henc & Hl).
  destruct Hok as (Hids & Hh & Hiv & Hcnt).
  unfold flash_iv, memcpy. rewrite firstn_all.
  rewrite Henc.
  set (c := aes_encrypt _ _) in *.
  rewrite <- !app_assoc.
  replace (136 + HASH_LEN)%nat with ((HASH_LEN - 24) + length c)%nat by lia.
  rewrite <- skipn_skipn. rewrite (skipn_exact c) by reflexivity.
  rewrite skipn_app.
  rewrite skipn_skipn. replace (HASH_LEN - 24 + 24)%nat with HASH_LEN by lia.
  rewrite (skipn_exact (fe_hash e)) by exact Hh.
  apply firstn_exact. exact Hiv.
Qed.

End Layout.

(** ** init *)

Section Init.
Context {P : Platform}.

(** [init] either accepts the record it loaded, touching nothing but the
    RAM copy, or rebuilds the record and rewrites the flash page. *)
Lemma init_unfold (s : ap_state World) :
  init s = if integrity_ok s
           then (tt, set_flash_status (loaded_entry s) s)
           else (tt, reset_state s).
Proof.
  unfold init, integrity_ok, reset_state, reset_entry.
  unfold flash_simple_read, flash_simple_erase_page, flash_simple_write, call_rng_gen.
  unfold bind, gets, ret, print, emit, modify.
  unfold set_flash_status, set_world, set_flash, log.
  cbn [world flash_status flash trace transmit receive fst snd].
  fold (loaded_entry s).
  destruct (flash_magic (loaded_entry s) =? FLASH_MAGIC);
    destruct (bytes_eqb _ _); cbn [negb orb andb Z.eqb SUCCESS_RETURN ERROR_RETURN];
    try reflexivity;
    (cbn [world flash_status flash trace transmit receive fst snd];
     destruct (rng_gen (world s)) as [r1 w1];
     cbn [world flash_status flash trace transmit receive fst snd];
     destruct (rng_gen w1) as [r2 w2];
     cbn [world flash_status flash trace transmit receive fst snd];
     rewrite <- !app_assoc; reflexivity).
Qed.


Lemma length_loaded_bytes (s : ap_state World) :
  (sizeof_flash_entry <= length (flash s))%nat -> (24 <= HASH_LEN)%nat ->
  let e0 := entry_of_bytes HASH_LEN IV_LEN (firstn sizeof_flash_entry (flash s)) in
  length (fe_hash e0) = HASH_LEN /\ length (fe_iv e0) = IV_LEN /\
  length (component_ids e0) = 32%nat /\
  fe_iv e0 = flash_iv (flash s).
Proof.
  intros Hlen H24. cbn zeta. unfold entry_of_bytes, flash_iv, sizeof_flash_entry in *.
  cbn [fe_hash fe_iv component_ids].
  rewrite !length_firstn, !length_skipn, !length_firstn, length_words_of_bytes.
  repeat split; try lia.
  rewrite skipn_firstn_comm, firstn_firstn. f_equal. lia.
Qed.

(** The IV of the record [init] loads is the IV the flash page holds. *)
Lemma loaded_entry_iv (s : ap_state World) :
  (sizeof_flash_entry <= length (flash s))%nat -> (24 <= HASH_LEN)%nat ->
  fe_iv (loaded_entry s) = flash_iv (flash s) /\
  length (fe_iv (loaded_entry s)) = IV_LEN /\
  length (component_ids (loaded_entry s)) = 32%nat.
Proof.
  intros Hlen H24.
  destruct (length_loaded_bytes s Hlen H24) as (Hh & Hiv & Hids & Heq).
  cbn zeta in *. unfold loaded_entry.
  set (e0 := entry_of_bytes HASH_LEN IV_LEN (firstn sizeof_flash_entry (flash s))) in *.
  assert (Hsz : length (entry_bytes e0) = sizeof_flash_entry).
  { unfold entry_bytes, sizeof_flash_entry.
    rewrite !length_app, length_header_bytes, Hh, Hiv by exact Hids. lia. }
  assert (Hd : length (firstn FLASH_ENC_LEN
                         (aes_decrypt (firstn FLASH_ENC_LEN (entry_bytes e0)) (fe_iv e0)))
               = 160%nat).
  { rewrite length_firstn, aes_decrypt_length, length_firstn, Hsz.
    unfold sizeof_flash_entry, FLASH_ENC_LEN. lia. }
  set (dec := firstn FLASH_ENC_LEN _) in *.
  assert (Htail : skipn (136 + HASH_LEN) (memcpy (entry_bytes e0)
                     (aes_decrypt (firstn FLASH_ENC_LEN (entry_bytes e0)) (fe_iv e0))
                     FLASH_ENC_LEN) = fe_iv e0).
  { unfold memcpy. fold dec.
    replace (136 + HASH_LEN)%nat with ((HASH_LEN - 24) + length dec)%nat by lia.
    rewrite <- skipn_skipn, (skipn_exact dec) by reflexivity.
    rewrite skipn_skipn. unfold FLASH_ENC_LEN.
    replace (HASH_LEN - 24 + 160)%nat with (136 + HASH_LEN)%nat by lia.
    unfold entry_bytes. rewrite app_assoc. apply skipn_exact.
    rewrite length_app, length_header_bytes, Hh by exact Hids. reflexivity. }
  unfold entry_of_bytes at 1 2 3. cbn [fe_iv component_ids].
  rewrite Htail, length_words_of_bytes.
  rewrite firstn_all2 by lia. auto.
Qed.

Lemma entry_ok_reset (s : ap_state World) :
  (sizeof_flash_entry <= length (flash s))%nat -> (24 <= HASH_LEN)%nat ->
  (16 <= IV_LEN)%nat -> 0 <= COMPONENT_CNT <= 32 ->
  entry_ok HASH_LEN IV_LEN (reset_entry s).
Proof.
  intros Hlen H24 H16 Hcnt.
  destruct (loaded_entry_iv s Hlen H24) as (_ & Hiv & Hids).
  unfold entry_ok, reset_entry, rehash, memcpy.
  cbn [component_ids fe_hash fe_iv component_cnt flash_magic].
  rewrite hash_length.
  repeat rewrite ?length_app, ?length_firstn, ?length_skipn, ?repeat_length.
  rewrite Hids, Hiv. cbn [length le64 le32 app].
  repeat split; lia.
Qed.

(** After [init] the IV in the flash page is the IV of the RAM copy. *)
Lemma init_flash_iv (s : ap_state World) :
  (sizeof_flash_entry <= length (flash s))%nat -> (24 <= HASH_LEN)%nat ->
  (16 <= IV_LEN)%nat -> 0 <= COMPONENT_CNT <= 32 ->
  flash_iv (flash (snd (init s))) = fe_iv (flash_status (snd (init s))).
Proof.
  intros Hlen H24 H16 Hcnt. rewrite init_unfold.
  destruct (integrity_ok s); cbn [snd].
  - cbn [set_flash_status flash flash_status]. symmetry.
    apply (loaded_entry_iv s Hlen H24).
  - unfold reset_state. cbn [flash flash_status].
    apply flash_iv_written; [|exact H24]. now apply entry_ok_reset.
Qed.

End Init.

(** ** The claims about the roster record and the replace command *)

Section ReplaceClaims.
Context {P : Platform}.

Lemma roster_slot_found (id : Z) (s : ap_state World) :
  (exists i, (i < roster_cnt s)%nat /\ roster_id i s = id) ->
  roster_slot id (flash_status s) <> None.
Proof.
  intros (i & Hi & Hid) Hnone. unfold roster_slot in Hnone.
  rewrite slot_from_none in Hnone. apply (Hnone i); [|exact Hid].
  unfold roster_cnt in Hi. lia.
Qed.

(** C3. When the token is accepted and the id entered as Component ID In
    already sits in one of the first [component_cnt] slots, all that
    [attempt_replace] does after the prompts is print the duplicate error:
    whatever was entered as Component ID Out, the flash page and the roster
    record are exactly as before and no flash erase or write is made. *)
Theorem replace_duplicate_leaves_flash (token_buf buf : string) (s : ap_state World) :
  let s1 := snd (validate_token token_buf s) in
  let id_in := fst (fst (entered_ids buf s1)) in
  let s' := snd (attempt_replace token_buf buf s) in
  fst (validate_token token_buf s) = SUCCESS_RETURN ->
  (exists i, (i < roster_cnt s)%nat /\ roster_id i s = id_in) ->
  s' = log (duplicate_line id_in) (snd (entered_ids buf s1)) /\
  flash s' = flash s /\
  flash_status s' = flash_status s /\
  flash_ops (trace s') = flash_ops (trace s).
Proof.
  cbn zeta. intros Htok Hdup.
  rewrite attempt_replace_unfold. cbn zeta. rewrite Htok. cbn [Z.eqb SUCCESS_RETURN].
  destruct (validate_token_effect token_buf s) as (_ & _ & Hfs1 & Hf1 & d & Htr1 & Hd).
  cbn zeta in *.
  destruct (entered_ids_effect buf (snd (validate_token token_buf s)))
    as (_ & _ & Hfs2 & Hf2 & Htr2 & _).
  cbn zeta in *.
  rewrite replace_component_unfold.
  destruct (roster_slot _ (flash_status (snd (entered_ids buf _)))) eqn:Hslot.
  - cbn [snd]. split; [reflexivity|]. cbn [log flash flash_status trace].
    split; [congruence|]. split; [congruence|].
    rewrite Htr2, Htr1, !flash_ops_app, Hd. cbn. now rewrite !app_nil_r.
  - exfalso. rewrite Hfs2, Hfs1 in Hslot. revert Hslot.
    apply roster_slot_found. exact Hdup.
Qed.

Lemma entry_ok_replaced (i : nat) (v : Z) (e : flash_entry) :
  entry_ok HASH_LEN IV_LEN e ->
  entry_ok HASH_LEN IV_LEN (rehash (set_component_id i v e)).
Proof.
  intros (Hids & Hh & Hiv & Hcnt). unfold entry_ok, rehash, set_component_id.
  cbn [component_ids fe_hash fe_iv component_cnt].
  rewrite length_upd, hash_length. auto.
Qed.

(** C7. A replace that goes through (token accepted, Component ID In not
    in the roster, Component ID Out found first at slot [i]) writes the new
    id into slot [i] and recomputes the hash over the header and ids; the
    magic, the count, every other id slot and the IV of the record stay as
    they were, and the page written to flash carries that same IV in the
    clear: [init] leaves the IV of the flash page equal to the IV of the RAM
    copy, and the replace keeps the IV of the flash page.  Only [init] draws
    a new IV, and only when its magic or hash check fails: when both pass it
    changes nothing but the RAM copy. *)
Theorem replace_changes_slot_and_hash
    (token_buf buf : string) (s s0 : ap_state World) (i : nat) :
  let s1 := snd (validate_token token_buf s) in
  let id_in := fst (fst (entered_ids buf s1)) in
  let id_out := snd (fst (entered_ids buf s1)) in
  let s' := snd (attempt_replace token_buf buf s) in
  let e := flash_status s in
  let e' := flash_status s' in
  fst (validate_token token_buf s) = SUCCESS_RETURN ->
  roster_slot id_in e = None ->
  roster_slot id_out e = Some i ->
  ((i < roster_cnt s)%nat /\ roster_id i s = id_out /\
   forall k, (k < i)%nat -> roster_id k s <> id_out) /\
  flash_magic e' = flash_magic e /\
  component_cnt e' = component_cnt e /\
  component_ids e' = upd i id_in (component_ids e) /\
  (forall k, k <> i -> nth k (component_ids e') 0 = nth k (component_ids e) 0) /\
  fe_iv e' = fe_iv e /\
  (length (component_ids e) = 32%nat -> fe_hash e' = hash (header_bytes e')) /\
  flash_ops (trace s') = flash_ops (trace s) ++ [EvFlashErase; EvFlashWrite (encrypted_flash e')] /\
  (entry_ok HASH_LEN IV_LEN e -> (24 <= HASH_LEN)%nat -> flash_iv (flash s') = fe_iv e) /\
  (entry_ok HASH_LEN IV_LEN e -> (24 <= HASH_LEN)%nat ->
   flash_iv (flash s) = fe_iv e -> flash_iv (flash s') = flash_iv (flash s)) /\
  ((sizeof_flash_entry <= length (flash s0))%nat -> (24 <= HASH_LEN)%nat ->
   (16 <= IV_LEN)%nat -> 0 <= COMPONENT_CNT <= 32 ->
   flash_iv (flash (snd (init s0))) = fe_iv (flash_status (snd (init s0)))) /\
  (integrity_ok s0 = true -> init s0 = (tt, set_flash_status (loaded_entry s0) s0)) /\
  (integrity_ok s0 = false ->
   fe_iv (flash_status (snd (init s0))) = fe_iv (reset_entry s0) /\
   world (snd (init s0)) = snd (rng_gen (snd (rng_gen (world s0))))).
Proof.
  cbn zeta. intros Htok Hin Hout.
  rewrite attempt_replace_unfold. cbn zeta. rewrite Htok. cbn [Z.eqb SUCCESS_RETURN].
  destruct (validate_token_effect token_buf s) as (_ & _ & Hfs1 & Hf1 & d & Htr1 & Hd).
  cbn zeta in *.
  destruct (entered_ids_effect buf (snd (validate_token token_buf s)))
    as (_ & _ & Hfs2 & Hf2 & Htr2 & _).
  cbn zeta in *.
  rewrite replace_component_unfold.
  assert (Hfs : flash_status (snd (entered_ids buf (snd (validate_token token_buf s))))
                = flash_status s) by congruence.
  rewrite Hfs, Hin, Hout. cbn [snd].
  unfold replaced. cbn [flash_status flash trace]. rewrite Hfs.
  set (id_in := fst (fst (entered_ids buf (snd (validate_token token_buf s))))) in *.
  set (id_out := snd (fst (entered_ids buf (snd (validate_token token_buf s))))) in *.
  split.
  { destruct (slot_from_spec _ _ _ _ _ Hout) as (Hr & Hid & Hfirst).
    unfold roster_cnt, roster_id. split; [lia|]. split; [exact Hid|].
    intros k Hk. apply Hfirst. lia. }
  split; [reflexivity|]. split; [reflexivity|]. split; [reflexivity|].
  split. { intros k Hk. cbn [rehash set_component_id component_ids]. apply nth_upd_other. auto. }
  split; [reflexivity|].
  split. { intros H32. rewrite rehash_hash; [reflexivity|].
           cbn [set_component_id component_ids]. now rewrite length_upd. }
  split. { rewrite flash_ops_app, Htr2, Htr1, !flash_ops_app, Hd. cbn.
           now rewrite !app_nil_r. }
  assert (Hwritten : entry_ok HASH_LEN IV_LEN (flash_status s) -> (24 <= HASH_LEN)%nat ->
            flash_iv (memcpy (repeat 255 (length (flash s)))
                        (encrypted_flash (rehash (set_component_id i id_in (flash_status s))))
                        (length (encrypted_flash
                                   (rehash (set_component_id i id_in (flash_status s))))))
            = fe_iv (flash_status s)).
  { intros Hok Hlen. rewrite flash_iv_written; [reflexivity| |exact Hlen].
    now apply entry_ok_replaced. }
  rewrite Hf2, Hf1.
  split; [exact Hwritten|].
  split. { intros Hok Hlen Hinv. rewrite Hinv. now apply Hwritten. }
  split; [apply init_flash_iv|].
  rewrite init_unfold. split.
  - intros ->. reflexivity.
  - intros ->. cbn [snd reset_state flash_status world]. auto.
Qed.

(** C10. Once the token is accepted, [attempt_replace] prints the two
    prompts and nothing else before it goes on with the ids, whether or not
    the lines parse.  A Component ID In line that [sscanf] cannot convert
    makes the command go on with id 0 as the new component, and likewise
    for Component ID Out: the duplicate check and the search for the slot
    are then made with 0.  In particular, an unparsable Component ID In
    with 0 present in the roster gives the duplicate error for
    0x00000000. *)
Theorem unparsed_id_is_zero (token_buf buf : string) (s : ap_state World) :
  let s1 := snd (validate_token token_buf s) in
  let s3 := snd (entered_ids buf s1) in
  fst (validate_token token_buf s) = SUCCESS_RETURN ->
  trace s3 = trace s1 ++ [ EvPrint Debug "Component ID In: "; EvFlush; EvAck; EvPuts EmptyString;
                           EvPrint Debug "Component ID Out: "; EvFlush; EvAck;
                           EvPuts EmptyString ] /\
  (sscanf_x (line_in buf s1) = None ->
   attempt_replace token_buf buf s
     = replace_component 0 (scan_hex_or_zero (line_out buf s1)) s3) /\
  (sscanf_x (line_out buf s1) = None ->
   attempt_replace token_buf buf s
     = replace_component (scan_hex_or_zero (line_in buf s1)) 0 s3) /\
  (sscanf_x (line_in buf s1) = None ->
   (exists i, (i < roster_cnt s)%nat /\ roster_id i s = 0) ->
   attempt_replace token_buf buf s = (tt, log (duplicate_line 0) s3)).
Proof.
  cbn zeta. intros Htok.
  destruct (validate_token_effect token_buf s) as (_ & _ & Hfs1 & _).
  destruct (entered_ids_effect buf (snd (validate_token token_buf s)))
    as (_ & _ & Hfs2 & _ & Htr & Hids).
  cbn zeta in *.
  assert (Hrun : attempt_replace token_buf buf s =
                 replace_component
                   (scan_hex_or_zero (line_in buf (snd (validate_token token_buf s))))
                   (scan_hex_or_zero (line_out buf (snd (validate_token token_buf s))))
                   (snd (entered_ids buf (snd (validate_token token_buf s))))).
  { rewrite attempt_replace_unfold. cbn zeta. rewrite Htok. cbn [Z.eqb SUCCESS_RETURN].
    now rewrite Hids. }
  split; [exact Htr|].
  assert (Hzero : forall b, sscanf_x b = None -> scan_hex_or_zero b = 0).
  { intros b Hb. unfold scan_hex_or_zero. now rewrite Hb. }
  split; [|split].
  - intros Hnone. rewrite Hrun, (Hzero _ Hnone). reflexivity.
  - intros Hnone. rewrite Hrun, (Hzero _ Hnone). reflexivity.
  - intros Hnone Hdup. rewrite Hrun, (Hzero _ Hnone), replace_component_unfold.
    destruct (roster_slot 0 _) eqn:Hslot; [reflexivity|].
    exfalso. rewrite Hfs2, Hfs1 in Hslot. revert Hslot.
    apply roster_slot_found. exact Hdup.
Qed.

(** C4 (amended). In a record as the C type has it, the magic, the count
    and the 32 ids occupy 136 bytes (4 + 4 + 4 * 32).  The encrypted span is
    [FLASH_ENC_LEN] = 160 bytes: those 136 and the first 24 bytes that
    follow them in the struct; what is written to flash is the ciphertext
    of that span followed by the rest of the struct in the clear.  The
    keyed hash is computed over the first [FLASH_ENC_LEN - 24] bytes, which
    are exactly the header and ids, both when the record is rewritten and
    when [init] checks the record it loaded. *)
Theorem flash_record_layout (e : flash_entry) (s : ap_state World) :
  entry_ok HASH_LEN IV_LEN e ->
  length (header_bytes e) = 136%nat /\
  FLASH_ENC_LEN = (136 + 24)%nat /\
  firstn FLASH_ENC_LEN (entry_bytes e)
    = header_bytes e ++ firstn 24 (fe_hash e ++ fe_iv e) /\
  firstn (FLASH_ENC_LEN - 24) (entry_bytes e) = header_bytes e /\
  fe_hash (rehash e) = hash (header_bytes e) /\
  ((24 <= HASH_LEN + IV_LEN)%nat ->
   encrypted_flash e
     = aes_encrypt (header_bytes e ++ firstn 24 (fe_hash e ++ fe_iv e)) (fe_iv e)
       ++ skipn 24 (fe_hash e ++ fe_iv e) /\
   length (aes_encrypt (header_bytes e ++ firstn 24 (fe_hash e ++ fe_iv e)) (fe_iv e))
     = 160%nat) /\
  integrity_ok s
    = (flash_magic (loaded_entry s) =? FLASH_MAGIC)
      && bytes_eqb (firstn HASH_LEN (fe_hash (loaded_entry s)))
                   (firstn HASH_LEN (hash (header_bytes (loaded_entry s)))).
Proof.
  intros Hok. pose proof Hok as (Hids & _).
  split; [now apply length_header_bytes|].
  split; [reflexivity|].
  split; [now apply encrypted_region|].
  split; [now apply hash_region|].
  split; [now apply rehash_hash|].
  split; [intros Hlen; now apply encrypted_flash_layout|].
  unfold integrity_ok. rewrite hash_region; [reflexivity|].
  unfold loaded_entry, entry_of_bytes. cbn [component_ids].
  apply length_words_of_bytes.
Qed.

End ReplaceClaims.

(** ** The claims on the scripted platform *)

Lemma mock_roster2_ok : entry_ok (@HASH_LEN Mock.platform) (@IV_LEN Mock.platform) Mock.roster2.
Proof. unfold entry_ok. cbn. repeat split; lia. Qed.

(** The operator asks to bring in 0x11111125, which is already in slot 1. *)
Lemma replace_duplicate_leaves_flash_witness :
  let s := Mock.mk Mock.roster2 (Mock.console "11111125" "11111124") in
  let s' := snd (@attempt_replace Mock.platform EmptyString EmptyString s) in
  fst (@validate_token Mock.platform EmptyString s) = SUCCESS_RETURN /\
  (exists i, (i < @roster_cnt Mock.platform s)%nat /\
             @roster_id Mock.platform i s = 0x11111125) /\
  flash s' = flash s /\ flash_status s' = flash_status s /\
  flash_ops (trace s') = [].
Proof.
  intros s s'.
  assert (Htok : fst (@validate_token Mock.platform EmptyString s) = SUCCESS_RETURN)
    by reflexivity.
  assert (Hdup : exists i, (i < @roster_cnt Mock.platform s)%nat /\
                           @roster_id Mock.platform i s = 0x11111125).
  { exists 1%nat. split; [vm_compute; lia | reflexivity]. }
  split; [exact Htok|]. split; [exact Hdup|].
  destruct (@replace_duplicate_leaves_flash Mock.platform EmptyString EmptyString s Htok Hdup)
    as (_ & Hf & Hfs & Hops).
  split; [exact Hf|]. split; [exact Hfs|]. exact Hops.
Defined.

(** The operator swaps 0x11111124 out for 0xdeadbeef. *)
Lemma replace_changes_slot_and_hash_witness :
  let s := Mock.mk Mock.roster2 (Mock.console "deadbeef" "11111124") in
  let s' := snd (@attempt_replace Mock.platform EmptyString EmptyString s) in
  fst (@validate_token Mock.platform EmptyString s) = SUCCESS_RETURN /\
  roster_slot 0xdeadbeef (flash_status s) = None /\
  roster_slot 0x11111124 (flash_status s) = Some 0%nat /\
  component_ids (flash_status s') = 0xdeadbeef :: 0x11111125 :: repeat 0 30%nat /\
  fe_iv (flash_status s') = fe_iv (flash_status s) /\
  @flash_iv Mock.platform (flash s') = fe_iv (flash_status s).
Proof.
  intros s s'.
  assert (Htok : fst (@validate_token Mock.platform EmptyString s) = SUCCESS_RETURN)
    by reflexivity.
  assert (Hin : roster_slot 0xdeadbeef (flash_status s) = None) by reflexivity.
  assert (Hout : roster_slot 0x11111124 (flash_status s) = Some 0%nat) by reflexivity.
  split; [exact Htok|]. split; [exact Hin|]. split; [exact Hout|].
  destruct (@replace_changes_slot_and_hash Mock.platform EmptyString EmptyString s s 0%nat
              Htok Hin Hout)
    as (_ & _ & _ & Hids & _ & Hiv & _ & _ & Hflash & _).
  split; [exact Hids|]. split; [exact Hiv|].
  apply Hflash; [exact mock_roster2_ok | vm_compute; lia].
Defined.

(** The operator enters "zz" as Component ID In: the command brings in
    id 0. *)
Lemma unparsed_id_is_zero_witness :
  let s := Mock.mk Mock.roster2 (Mock.console "zz" "11111124") in
  let s1 := snd (@validate_token Mock.platform EmptyString s) in
  fst (@validate_token Mock.platform EmptyString s) = SUCCESS_RETURN /\
  @sscanf_x Mock.platform (@line_in Mock.platform EmptyString s1) = None /\
  @attempt_replace Mock.platform EmptyString EmptyString s
    = @replace_component Mock.platform 0 0x11111124
        (snd (@entered_ids Mock.platform EmptyString s1)) /\
  component_ids (flash_status (snd (@attempt_replace Mock.platform EmptyString EmptyString s)))
    = 0 :: 0x11111125 :: repeat 0 30%nat.
Proof.
  intros s s1. subst s1.
  assert (Htok : fst (@validate_token Mock.platform EmptyString s) = SUCCESS_RETURN)
    by reflexivity.
  assert (Hnone : @sscanf_x Mock.platform
                     (@line_in Mock.platform EmptyString
                        (snd (@validate_token Mock.platform EmptyString s))) = None)
    by reflexivity.
  split; [exact Htok|]. split; [exact Hnone|].
  destruct (@unparsed_id_is_zero Mock.platform EmptyString EmptyString s Htok)
    as (_ & Hrun & _).
  specialize (Hrun Hnone).
  assert (Hout : @scan_hex_or_zero Mock.platform
                    (@line_out Mock.platform EmptyString
                       (snd (@validate_token Mock.platform EmptyString s)))
                 = 0x11111124) by reflexivity.
  rewrite Hout in Hrun.
  split; [exact Hrun|]. rewrite Hrun. reflexivity.
Defined.

Lemma flash_record_layout_witness :
  entry_ok (@HASH_LEN Mock.platform) (@IV_LEN Mock.platform) Mock.roster2 /\
  length (header_bytes Mock.roster2) = 136%nat.
Proof.
  split; [exact mock_roster2_ok|].
  exact (proj1 (@flash_record_layout Mock.platform Mock.roster2
                  (Mock.mk Mock.roster2 (Mock.mkWorld [] [] [] 0)) mock_roster2_ok)).
Defined.

(** C4 as stated fails: the header and the 32 ids of a record are 136
    bytes, not 140. *)
Lemma flash_record_layout_counterexample :
  entry_ok (@HASH_LEN Mock.platform) (@IV_LEN Mock.platform) Mock.roster2 /\
  length (header_bytes Mock.roster2) <> 140%nat.
Proof.
  split; [exact mock_roster2_ok|]. vm_compute. discriminate.
Qed.

(** 0x24 is scanned; the theorem's characterisation of the scanned
    addresses says so. *)
Lemma scan_components_covers_bus_witness :
  8 <= 0x24 < 0x78 /\ 0x24 <> 0x18 /\ 0x24 <> 0x28 /\ 0x24 <> 0x36 /\
  In 0x24 scan_addresses.
Proof.
  assert (H : 8 <= 0x24 < 0x78 /\ 0x24 <> 0x18 /\ 0x24 <> 0x28 /\ 0x24 <> 0x36)
    by (repeat split; lia).
  destruct H as (H1 & H2 & H3 & H4). repeat split; auto; try lia.
  destruct (@scan_components_covers_bus Mock.platform
              (Mock.mk Mock.roster2 (Mock.mkWorld [] [] [] 0))) as (_ & _ & Hin).
  apply Hin. auto.
Defined.

(** ** Concrete runs *)

Example hex8_deadbeef : hex8 0xDEADBEEF = "deadbeef"%string.
Proof. reflexivity. Qed.

Example hex8_pads : hex8 0x2A = "0000002a"%string.
Proof. reflexivity. Qed.

Example read_u32_little_endian : read_u32 [0x24; 0x11; 0x11; 0x11; 0xFF] = 0x11111124.
Proof. reflexivity. Qed.

(** A scan with one component present: the two roster lines, the line of
    the component found, and the List marker. *)
Example scan_one_present :
  prints (trace (snd (@scan_components Mock.platform
                        (Mock.mk Mock.roster2 (Mock.mkWorld [] Mock.scan_script [] 0)))))
  = [ (Info, "P>0x11111124" ++ NL); (Info, "P>0x11111125" ++ NL);
      (Info, "F>0x11111124" ++ NL); (Success, "List" ++ NL) ]%string.
Proof. vm_compute. reflexivity. Qed.

(** A boot in which both components validate and boot: each is sent
    verdict 0 with the challenge of its second validate round restored. *)
Example boot_both_present :
  let r := @attempt_boot Mock.platform Mock.stale_challenges
             (Mock.mk Mock.roster2 (Mock.mkWorld [] Mock.boot_script [] 0)) in
  fst r = true /\
  prints (trace (snd r))
  = [ (Info, "0x11111124>up" ++ NL); (Info, "0x11111125>ok" ++ NL);
      (Info, "AP>Test boot message" ++ NL); (Success, "Boot" ++ NL) ]%string /\
  skipn 4 (verdicts (trace (snd r))) = [(36, 0); (37, 0)] /\
  skipn 4 (restored (trace (snd r))) = [(36, 2); (37, 4)].
Proof. vm_compute. repeat split; reflexivity. Qed.

(** First boot rebuilds the record from the build-time roster; the record
    written then passes the checks of the next [init] and is loaded back. *)
Example init_round_trip :
  let s1 := snd (@init Mock.platform Mock.first_boot) in
  let s2 := snd (@init Mock.platform (Mock.reboot s1)) in
  @integrity_ok Mock.platform Mock.first_boot = false /\
  @integrity_ok Mock.platform (Mock.reboot s1) = true /\
  flash_status s2 = flash_status s1 /\
  firstn 2 (component_ids (flash_status s2)) = [0x11111124; 0x11111125] /\
  fe_iv (flash_status s2) = [5; 0; 0; 0; 0; 0; 0; 0; 6; 0; 0; 0; 0; 0; 0; 0].
Proof. vm_compute. repeat split; reflexivity. Qed.

(** A replace survives a power cycle, and the IV is the one drawn at
    first boot. *)
Example replace_persists :
  let s1 := snd (@init Mock.platform Mock.first_boot) in
  let s2 := snd (@attempt_replace Mock.platform EmptyString EmptyString
                   (Mock.at_console "deadbeef" "11111124" s1)) in
  let s3 := snd (@init Mock.platform (Mock.reboot s2)) in
  @integrity_ok Mock.platform (Mock.reboot s2) = true /\
  firstn 2 (component_ids (flash_status s3)) = [0xDEADBEEF; 0x11111125] /\
  fe_iv (flash_status s3) = fe_iv (flash_status s1).
Proof. vm_compute. repeat split; reflexivity. Qed.

(** * Further properties of the AP code *)

(** ** Computations that keep a relation *)

Section Keeps.
Context {P : Platform}.

Lemma untouched_refl (s : ap_state World) : untouched s s.
Proof. repeat split. exists []. now rewrite app_nil_r. Qed.

Lemma untouched_trans (s1 s2 s3 : ap_state World) :
  untouched s1 s2 -> untouched s2 s3 -> untouched s1 s3.
Proof.
  intros (Hf & He & d & Ht & Hd) (Hf' & He' & d' & Ht' & Hd').
  split; [congruence|]. split; [congruence|].
  exists (d ++ d'). rewrite Ht', Ht, <- app_assoc, flash_ops_app, Hd, Hd'. auto.
Qed.

Lemma bus_calls_app (a b : list event) : bus_calls (a ++ b) = bus_calls a ++ bus_calls b.
Proof. apply filter_app. Qed.

Lemma off_bus_refl (s : ap_state World) : off_bus s s.
Proof. repeat split. exists []. now rewrite app_nil_r. Qed.

Lemma off_bus_trans (s1 s2 s3 : ap_state World) :
  off_bus s1 s2 -> off_bus s2 s3 -> off_bus s1 s3.
Proof.
  intros (Hf & He & d & Ht & Hd) (Hf' & He' & d' & Ht' & Hd').
  split; [congruence|]. split; [congruence|].
  exists (d ++ d'). rewrite Ht', Ht, <- app_assoc, bus_calls_app, Hd, Hd'. auto.
Qed.

Section Combinators.
Variable R : ap_state World -> ap_state World -> Prop.
Hypothesis R_refl : forall s, R s s.
Hypothesis R_trans : forall s1 s2 s3, R s1 s2 -> R s2 s3 -> R s1 s3.

Lemma keeps_ret {A : Type} (a : A) : keeps R (ret a).
Proof. intros s. apply R_refl. Qed.

Lemma keeps_gets {A : Type} (f : ap_state World -> A) : keeps R (gets f).
Proof. intros s. apply R_refl. Qed.

Lemma keeps_bind {A B : Type} (m : M A) (k : A -> M B) :
  keeps R m -> (forall a, keeps R (k a)) -> keeps R (bind m k).
Proof.
  intros Hm Hk s. unfold bind. specialize (Hm s).
  destruct (m s) as [a s1]. cbn [snd] in *.
  eapply R_trans; [exact Hm | apply Hk].
Qed.

Lemma keeps_if {A : Type} (b : bool) (m1 m2 : M A) :
  keeps R m1 -> keeps R m2 -> keeps R (if b then m1 else m2).
Proof. destruct b; auto. Qed.

Lemma keeps_for_range {A : Type} (body : nat -> A -> M A) :
  (forall i a, keeps R (body i a)) ->
  forall n i a, keeps R (for_range n i body a).
Proof.
  intros Hb. induction n as [|n IH]; intros i a; cbn [for_range].
  - apply keeps_ret.
  - apply keeps_bind; [apply Hb | intros a'; apply IH].
Qed.

Lemma keeps_for_until {A : Type} (body : nat -> M (option A)) :
  (forall i, keeps R (body i)) ->
  forall n i, keeps R (for_until n i body).
Proof.
  intros Hb. induction n as [|n IH]; intros i; cbn [for_until].
  - apply keeps_ret.
  - apply keeps_bind; [apply Hb|]. intros [x|]; [apply keeps_ret | apply IH].
Qed.

End Combinators.

End Keeps.

Ltac rel_law :=
  first [ exact untouched_refl | exact untouched_trans
        | exact off_bus_refl | exact off_bus_trans ].

(** Splits a goal [keeps R m] along the structure of [m]; the leaves are
    left to the hint database [ap]. *)
Ltac keeps_step :=
  lazymatch goal with
  | |- keeps ?R (bind _ _) => apply (keeps_bind R); [rel_law | | intro]
  | |- keeps ?R (if _ then _ else _) => apply (keeps_if R)
  | |- keeps ?R (ret _) => apply (keeps_ret R); rel_law
  | |- keeps ?R (gets _) => apply (keeps_gets R); rel_law
  | |- keeps ?R (for_range _ _ _ _) =>
      apply (keeps_for_range R); [rel_law | rel_law | intros ? ?]
  | |- keeps ?R (for_until _ _ _) =>
      apply (keeps_for_until R); [rel_law | rel_law | intros ?]
  | |- keeps _ (match ?x with _ => _ end) => destruct x
  | |- keeps _ _ => solve [eauto with ap]
  end.

Ltac keeps_auto := repeat keeps_step.

Create HintDb ap.

Section Primitives.
Context {P : Platform}.

(** *** What the primitive steps keep *)

Lemma untouched_log (e : event) (s : ap_state World) :
  flash_ops [e] = [] -> untouched s (log e s).
Proof. intros H. repeat split. exists [e]. auto. Qed.

Lemma keeps_untouched_print (k : print_kind) (text : string) :
  keeps untouched (print k text).
Proof. intros s. apply untouched_log. reflexivity. Qed.

Lemma keeps_untouched_transmit (addr : Z) : keeps untouched (call_ap_transmit addr).
Proof.
  intros s. unfold call_ap_transmit.
  destruct (ap_transmit addr _ _) as [[r [tx rx]] w]. cbn.
  unfold untouched. cbn.
  split; [reflexivity|]. split; [reflexivity|].
  eexists [_]. split; reflexivity.
Qed.

Lemma keeps_untouched_poll (addr skip : Z) : keeps untouched (call_ap_poll_recv addr skip).
Proof.
  intros s. unfold call_ap_poll_recv.
  destruct (ap_poll_recv addr skip _ _) as [[r [tx rx]] w]. cbn.
  unfold untouched. cbn.
  split; [reflexivity|]. split; [reflexivity|].
  eexists [_]. split; reflexivity.
Qed.

Lemma keeps_untouched_reset : keeps untouched call_reset_msg.
Proof.
  intros s. unfold call_reset_msg.
  destruct (reset_msg _ _) as [[tx rx] w]. cbn.
  unfold untouched. cbn.
  split; [reflexivity|]. split; [reflexivity|].
  eexists [_]. split; reflexivity.
Qed.

Lemma keeps_untouched_opcode (c : component_cmd_t) : keeps untouched (set_transmit_opcode c).
Proof.
  intros s. unfold untouched. cbn. split; [reflexivity|]. split; [reflexivity|].
  exists []. now rewrite app_nil_r.
Qed.

Lemma keeps_untouched_issue (addr : Z) : keeps untouched (issue_cmd addr).
Proof.
  unfold issue_cmd.
  keeps_step; [apply keeps_untouched_transmit|].
  keeps_step; [keeps_step|].
  keeps_step; [apply keeps_untouched_poll|].
  keeps_auto.
Qed.

Lemma keeps_untouched_recv_input (msg buf : string) (len : nat) :
  keeps untouched (recv_input msg buf len).
Proof.
  intros s. destruct (recv_input_effect msg buf len s) as (_ & _ & Hfs & Hf & Htr).
  cbn zeta in *. split; [exact Hf|]. split; [exact Hfs|].
  eexists. split; [exact Htr | reflexivity].
Qed.

Lemma off_bus_log (e : event) (s : ap_state World) :
  bus_calls [e] = [] -> off_bus s (log e s).
Proof. intros H. repeat split. exists [e]. auto. Qed.

Lemma keeps_off_bus_print (k : print_kind) (text : string) :
  keeps off_bus (print k text).
Proof. intros s. apply off_bus_log. reflexivity. Qed.

Lemma keeps_off_bus_recv_input (msg buf : string) (len : nat) :
  keeps off_bus (recv_input msg buf len).
Proof.
  intros s. destruct (recv_input_effect msg buf len s) as (Ht & Hr & _ & _ & Htr).
  cbn zeta in *. split; [exact Ht|]. split; [exact Hr|].
  eexists. split; [exact Htr | reflexivity].
Qed.

End Primitives.

#[local] Hint Resolve untouched_refl untouched_trans off_bus_refl off_bus_trans : ap.
#[local] Hint Resolve keeps_untouched_print keeps_untouched_transmit keeps_untouched_poll
  keeps_untouched_reset keeps_untouched_opcode keeps_untouched_issue
  keeps_untouched_recv_input keeps_off_bus_print keeps_off_bus_recv_input : ap.


(** ** What never touches the flash *)

Section Frame.
Context {P : Platform}.

Lemma keeps_untouched_modify (f : ap_state World -> ap_state World) :
  (forall s, flash (f s) = flash s /\ flash_status (f s) = flash_status s /\
             trace (f s) = trace s) ->
  keeps untouched (modify f).
Proof.
  intros H s. destruct (H s) as (Hf & He & Ht). unfold untouched. cbn [modify snd].
  split; [exact Hf|]. split; [exact He|]. exists []. now rewrite app_nil_r.
Qed.

Lemma keeps_untouched_emit (e : event) :
  flash_ops [e] = [] -> keeps untouched (emit e).
Proof. intros H s. now apply untouched_log. Qed.

Lemma keeps_untouched_fgets (n : nat) : keeps untouched (call_fgets n).
Proof.
  intros s. unfold call_fgets. destruct (fgets n (world s)) as [o w]. cbn.
  unfold untouched. cbn. split; [reflexivity|]. split; [reflexivity|].
  exists []. now rewrite app_nil_r.
Qed.

Ltac frame_modify :=
  apply keeps_untouched_modify; intros ?; cbn; repeat split; reflexivity.
Ltac frame_emit := apply keeps_untouched_emit; reflexivity.
Ltac frame := repeat first [keeps_step | frame_emit | frame_modify].

Lemma keeps_untouched_secure_receive (address : Z) (buffer : list Z) :
  keeps untouched (secure_receive address buffer).
Proof. unfold secure_receive. frame. Qed.

Lemma keeps_untouched_secure_send (address : Z) (buffer : list Z) (len : Z) :
  keeps untouched (secure_send address buffer len).
Proof. unfold secure_send. cbn zeta. frame. Qed.

Lemma keeps_untouched_get_provisioned_ids (buffer : list Z) :
  keeps untouched (get_provisioned_ids buffer).
Proof. unfold get_provisioned_ids. frame. Qed.

Lemma keeps_untouched_scan : keeps untouched scan_components.
Proof.
  unfold scan_components. keeps_step; [frame|]. keeps_step.
  - keeps_step. unfold print_provisioned. frame.
  - keeps_step; [|frame]. keeps_step. unfold scan_body. cbn zeta. frame.
Qed.

Lemma keeps_untouched_validate (challenges : list Z) :
  keeps untouched (validate_components challenges).
Proof.
  unfold validate_components. keeps_step; [frame|]. keeps_step.
  unfold validate_body. destruct a0 as [vr ch]. cbn zeta. frame.
Qed.

Lemma keeps_untouched_boot (challenges : list Z) (validate_result : Z) :
  keeps untouched (boot_components challenges validate_result).
Proof.
  unfold boot_components. keeps_step; [frame|]. keeps_step.
  unfold boot_body. cbn zeta. frame.
Qed.

Lemma keeps_untouched_attempt_boot (comp_challenges : list Z) :
  keeps untouched (attempt_boot comp_challenges).
Proof.
  unfold attempt_boot. keeps_step; [apply keeps_untouched_validate|].
  destruct a as [vr ch]. keeps_step; [apply keeps_untouched_boot|]. frame.
Qed.

Lemma keeps_untouched_attest (component_id : Z) :
  keeps untouched (attest_component component_id).
Proof.
  unfold attest_component. keeps_step; [frame|]. keeps_step.
  - keeps_step. unfold attest_lookup. frame.
  - cbn zeta. frame.
Qed.

Lemma keeps_untouched_validate_pin (AP_PIN buf : string) :
  keeps untouched (validate_pin AP_PIN buf).
Proof. unfold validate_pin. cbn zeta. frame. Qed.

Lemma keeps_untouched_validate_token (buf : string) :
  keeps untouched (validate_token buf).
Proof. unfold validate_token. cbn zeta. frame. Qed.

Lemma keeps_untouched_attempt_attest (AP_PIN pin_buf buf : string) (component_id : Z) :
  keeps untouched (attempt_attest AP_PIN pin_buf buf component_id).
Proof.
  unfold attempt_attest. keeps_step; [apply keeps_untouched_validate_pin|].
  keeps_step; [frame|].
  keeps_step; [frame|]. cbn zeta.
  keeps_step; [apply keeps_untouched_attest|]. frame.
Qed.

End Frame.

(** ** secure_send *)

Section SecureSend.
Context {P : Platform}.

(** The frame [secure_send] hands to its last transmit, when length byte
    and payload fit the array: the length byte, the payload, then what the
    frame held behind them; the array keeps its size. *)
Lemma framed_contents (len : Z) (buffer c : list Z) :
  let n := Z.to_nat (len mod 256) in
  (n < length c)%nat -> (n <= length buffer)%nat ->
  memcpy_at 1 (write_u8 (len mod 256) c) buffer n
  = len mod 256 :: firstn n buffer ++ skipn n (skipn 1 c) /\
  length (memcpy_at 1 (write_u8 (len mod 256) c) buffer n) = length c.
Proof.
  cbn zeta. intros Hc Hb. destruct c as [|c0 c]; [cbn in Hc; lia|].
  cbn [length] in Hc.
  unfold memcpy_at, write_u8, memcpy. cbn [length firstn skipn app].
  rewrite Z.mod_mod by lia.
  assert (Hl : length (firstn (Z.to_nat (len mod 256)) buffer
                       ++ skipn (Z.to_nat (len mod 256)) c) = length c).
  { rewrite length_app, length_firstn, length_skipn. lia. }
  rewrite firstn_all2 by lia. split; [reflexivity|].
  cbn [length]. now rewrite Hl.
Qed.

Lemma secure_send_unfold (addr : Z) (buffer : list Z) (len : Z) (s : ap_state World) :
  let address := addr mod 256 in
  secure_send addr buffer len s =
  if negb (fst (send_first address s) =? SUCCESS_RETURN)
  then (ERROR_RETURN, snd (send_first address s))
  else if negb (fst (send_second address s) =? SUCCESS_RETURN)
  then (ERROR_RETURN, snd (send_second address s))
  else
    let s2 := snd (send_second address s) in
    call_ap_transmit address
      (set_transmit
         (set_contents
            (memcpy_at 1 (write_u8 (len mod 256) (contents (transmit s2))) buffer
                       (Z.to_nat (len mod 256)))
            (transmit s2)) s2).
Proof.
  unfold secure_send, send_second. unfold send_first. cbn zeta.
  generalize (addr mod 256). intros address.
  unfold bind, ret, modify.
  destruct (call_reset_msg s) as [[] s0]. cbn [fst snd].
  destruct (call_ap_transmit address s0) as [r1 s1]. cbn [fst snd].
  destruct (negb (r1 =? SUCCESS_RETURN)); [reflexivity|].
  destruct (call_ap_poll_recv address 0 s1) as [r2 s2]. cbn [fst snd].
  destruct (negb (r2 =? SUCCESS_RETURN)); [reflexivity|].
  reflexivity.
Qed.

Lemma send_legs_trace (address : Z) (s : ap_state World) :
  let s0 := snd (call_reset_msg s) in
  trace (snd (send_first address s))
    = trace s ++ [EvResetMsg; EvTransmit address (transmit s0) (receive s0)] /\
  trace (snd (send_second address s))
    = trace s ++ [EvResetMsg; EvTransmit address (transmit s0) (receive s0);
                  EvPollRecv address 0].
Proof.
  cbn zeta. unfold send_second. unfold send_first.
  unfold call_reset_msg, call_ap_transmit, call_ap_poll_recv.
  destruct (reset_msg _ _) as [[tx0 rx0] w0]. cbn.
  destruct (ap_transmit address _ _) as [[r1 [tx1 rx1]] w1]. cbn.
  destruct (ap_poll_recv address 0 _ _) as [[r2 [tx2 rx2]] w2]. cbn.
  rewrite <- !app_assoc. split; reflexivity.
Qed.

(** X1. [secure_send] talks to the address taken as a [uint8_t].  When
    its handshake fails, at its transmit or at
    its polled receive, the result is ERROR_RETURN and the only frame that
    has been transmitted is the one [reset_msg] left: nothing of the
    caller's buffer has gone out.  After a failed transmit the receive is
    not attempted. *)
Theorem secure_send_handshake_failure
    (addr : Z) (buffer : list Z) (len : Z) (s : ap_state World) :
  let address := addr mod 256 in
  fst (send_first address s) <> SUCCESS_RETURN \/
  fst (send_second address s) <> SUCCESS_RETURN ->
  let s0 := snd (call_reset_msg s) in
  let r := secure_send addr buffer len s in
  fst r = ERROR_RETURN /\
  transmits (trace (snd r)) = transmits (trace s) ++ [(address, transmit s0, receive s0)] /\
  (fst (send_first address s) <> SUCCESS_RETURN ->
   trace (snd r) = trace s ++ [EvResetMsg; EvTransmit address (transmit s0) (receive s0)]).
Proof.
  intros address Hfail. cbn zeta. rewrite secure_send_unfold. cbn zeta. fold address.
  destruct (send_legs_trace address s) as (Ht1 & Ht2). cbn zeta in *.
  destruct (Z.eqb_spec (fst (send_first address s)) SUCCESS_RETURN) as [E1|E1]; cbn [negb fst snd].
  - destruct (Z.eqb_spec (fst (send_second address s)) SUCCESS_RETURN) as [E2|E2];
      cbn [negb fst snd].
    + exfalso. destruct Hfail; contradiction.
    + split; [reflexivity|]. split; [|intros; contradiction].
      rewrite Ht2, transmits_app. reflexivity.
  - split; [reflexivity|]. split; [|intros _; exact Ht1].
    rewrite Ht1, transmits_app. reflexivity.
Qed.

(** X2. When the handshake of [secure_send] succeeds, exactly one more
    transmit is made.  For a length byte and payload that fit
    [transmit.contents] (1 + [len] bytes, which [secure_send] itself does
    not check) and a caller's buffer of at least [len] bytes, its frame
    carries the length byte at [contents[0]] and the first [len] bytes of
    the caller's buffer from [contents[1]] on; the size of the frame, its
    bytes behind the payload, its opcode and its challenge are as the
    handshake left them.  There is no cap at 64 as in [secure_receive].
    The result of [secure_send] is the result of that transmit, whatever it
    is. *)
Theorem secure_send_frames_payload
    (addr : Z) (buffer : list Z) (len : Z) (s : ap_state World) :
  let address := addr mod 256 in
  let s2 := snd (send_second address s) in
  let r := secure_send addr buffer len s in
  fst (send_first address s) = SUCCESS_RETURN ->
  fst (send_second address s) = SUCCESS_RETURN ->
  (Z.to_nat (len mod 256) <= length buffer)%nat ->
  (1 + Z.to_nat (len mod 256) <= length (contents (transmit s2)))%nat ->
  exists tx,
    trace (snd r) = trace s2 ++ [EvTransmit address tx (receive s2)] /\
    opcode tx = opcode (transmit s2) /\ rng_chal tx = rng_chal (transmit s2) /\
    length (contents tx) = length (contents (transmit s2)) /\
    nth 0%nat (contents tx) 0 = len mod 256 /\
    (forall k, (k < Z.to_nat (len mod 256))%nat ->
               nth (S k) (contents tx) 0 = nth k buffer 0) /\
    (forall k, (Z.to_nat (len mod 256) < k)%nat ->
               nth k (contents tx) 0 = nth k (contents (transmit s2)) 0) /\
    fst r = fst (fst (ap_transmit address (tx, receive s2) (world s2))).
Proof.
  intros address s2 r H1 H2 Hlen Hfit. subst r.
  rewrite secure_send_unfold. cbn zeta. fold address. rewrite H1, H2.
  cbn [negb Z.eqb SUCCESS_RETURN]. fold s2.
  destruct (framed_contents len buffer (contents (transmit s2))) as (Hc & Hsize);
    [lia | exact Hlen |]. cbn zeta in Hc, Hsize.
  set (n := Z.to_nat (len mod 256)) in *.
  set (c := memcpy_at 1 (write_u8 (len mod 256) (contents (transmit s2))) buffer n) in *.
  exists (set_contents c (transmit s2)).
  unfold call_ap_transmit.
  cbn [set_transmit transmit receive world trace log].
  destruct (ap_transmit address _ _) as [[r [tx' rx']] w'].
  cbn [fst snd set_world set_receive set_transmit trace set_contents contents opcode rng_chal].
  split; [reflexivity|]. split; [reflexivity|]. split; [reflexivity|].
  split; [exact Hsize|]. rewrite Hc.
  split; [reflexivity|].
  assert (Hf : length (firstn n buffer) = n) by (rewrite length_firstn; lia).
  split; [|split; [|reflexivity]].
  - intros k Hk. cbn [nth]. rewrite app_nth1 by lia. rewrite nth_firstn.
    destruct (Nat.ltb_spec k n); [reflexivity | lia].
  - intros k Hk. destruct k as [|k]; [lia|].
    cbn [nth]. rewrite app_nth2 by lia. rewrite Hf.
    rewrite !nth_skipn. f_equal. lia.
Qed.

End SecureSend.

(** ** Post-boot receive and roster read-out *)

Section PostBoot.
Context {P : Platform}.

(** X3. [secure_receive] returns -1 or a length between 0 and 64.  When
    it returns -1 the caller's buffer is as it was; otherwise both receives
    succeeded and the result is the length prefix.  With a frame of at least
    65 bytes, a buffer of 64 bytes is always enough: its length is kept and
    nothing from index 64 on is written. *)
Theorem secure_receive_result_range (address : Z) (buffer : list Z) (s : ap_state World) :
  let res := fst (fst (secure_receive address buffer s)) in
  let buffer' := snd (fst (secure_receive address buffer s)) in
  ((res = -1 /\ buffer' = buffer) \/
   (0 <= res <= 64 /\ res = length_prefix address s /\
    fst (first_leg address s) = SUCCESS_RETURN /\
    fst (last_leg address s) = SUCCESS_RETURN)) /\
  ((64 < length (received address s))%nat -> (64 <= length buffer)%nat ->
   length buffer' = length buffer /\
   forall k, (64 <= k)%nat -> nth k buffer' 0 = nth k buffer 0).
Proof.
  cbn zeta. rewrite secure_receive_unfold.
  destruct (Z.eqb_spec (fst (first_leg address s)) SUCCESS_RETURN) as [E1|E1];
    cbn [negb fst snd]; [|split; [now left | auto]].
  destruct (Z.eqb_spec (fst (last_leg address s)) SUCCESS_RETURN) as [E2|E2];
    cbn [negb fst snd]; [|split; [now left | auto]].
  assert (Hr : 0 <= length_prefix address s < 256)
    by (unfold length_prefix; apply Z.mod_pos_bound; lia).
  destruct (length_prefix address s >? 64) eqn:E; cbn [fst snd];
    [split; [now left | auto]|].
  split; [right; repeat split; auto; lia|].
  intros Hc Hb. unfold memcpy.
  set (n := Z.to_nat (length_prefix address s)).
  assert (Hn : (n <= 64)%nat) by lia.
  assert (Hf : length (firstn n (skipn 1 (received address s))) = n).
  { rewrite length_firstn, length_skipn. lia. }
  split.
  - rewrite length_app, Hf, length_skipn. lia.
  - intros k Hk. rewrite app_nth2 by lia. rewrite Hf, nth_skipn. f_equal. lia.
Qed.

(** X4. [get_provisioned_ids] returns [component_cnt] and changes nothing
    in the AP.  For a count inside the id array and a buffer with room for
    it, the first [component_cnt] words of the buffer become the provisioned
    ids in roster order and the rest of the buffer is kept; with an empty
    roster the buffer is returned as it was. *)
Theorem get_provisioned_ids_copies_roster (buffer : list Z) (s : ap_state World) :
  (roster_cnt s <= length (component_ids (flash_status s)))%nat ->
  (roster_cnt s <= length buffer)%nat ->
  let r := get_provisioned_ids buffer s in
  snd r = s /\
  fst (fst r) = component_cnt (flash_status s) /\
  length (snd (fst r)) = length buffer /\
  firstn (roster_cnt s) (snd (fst r)) = provisioned_ids (flash_status s) /\
  skipn (roster_cnt s) (snd (fst r)) = skipn (roster_cnt s) buffer /\
  (forall i, (i < roster_cnt s)%nat -> nth i (snd (fst r)) 0 = roster_id i s) /\
  (roster_cnt s = 0%nat -> snd (fst r) = buffer).
Proof.
  intros Hids Hbuf. cbn zeta.
  unfold get_provisioned_ids, bind, gets, ret, memcpy, provisioned_ids. cbn [fst snd].
  fold (roster_cnt s).
  set (n := roster_cnt s) in *.
  assert (Hf : length (firstn n (component_ids (flash_status s))) = n)
    by (rewrite length_firstn; lia).
  split; [reflexivity|]. split; [reflexivity|].
  split; [rewrite length_app, Hf, length_skipn; lia|].
  split; [now apply firstn_exact|].
  split; [now apply skipn_exact|].
  split.
  - intros i Hi. rewrite app_nth1 by lia. rewrite nth_firstn.
    destruct (Nat.ltb_spec i n); [reflexivity | lia].
  - intros ->. reflexivity.
Qed.

End PostBoot.

(** ** attest_component *)

Section Attest.
Context {P : Platform}.

Lemma attest_lookup_loop (id : Z) (n i : nat) (p : Z) (s : ap_state World) :
  for_range n i (attest_lookup id) p s =
  (match slot_from id (component_ids (flash_status s)) n i with
   | Some _ => 1
   | None => p
   end, s).
Proof.
  revert i p. induction n as [|n IH]; intros i p; [reflexivity|].
  cbn [for_range slot_from]. unfold bind at 1. unfold attest_lookup at 1.
  unfold bind, gets, ret, roster_id. cbn [fst snd].
  rewrite (Z.eqb_sym id).
  destruct (nth i (component_ids (flash_status s)) 0 =? id).
  - rewrite IH. now destruct (slot_from _ _ _ _).
  - apply IH.
Qed.

Lemma cstring_cons (n : nat) (b : Z) (p : list Z) :
  cstring (S n) (b :: p) =
  if b mod 256 =? 0 then EmptyString
  else String (ascii_of_nat (Z.to_nat (b mod 256))) (cstring n p).
Proof. reflexivity. Qed.

(** Reading a field through its 65-byte local copy gives the string that
    starts at the field's offset, cut at 64 characters. *)
Lemma cstring_bounded_copy (n : nat) (c : list Z) :
  cstring n (firstn n c ++ [0]) = cstring n c.
Proof.
  revert c. induction n as [|n IH]; intros c; [reflexivity|].
  destruct c as [|b c]; [reflexivity|].
  cbn [firstn app]. rewrite !cstring_cons. destruct (b mod 256 =? 0); [reflexivity|].
  now rewrite IH.
Qed.

Lemma cstring_attestation_field (off : nat) (c : list Z) :
  cstring 64 (attestation_field off c) = cstring 64 (skipn off c).
Proof. apply cstring_bounded_copy. Qed.

Lemma attest_component_unfold (id : Z) (s : ap_state World) :
  attest_component id s =
  match roster_slot id (flash_status s) with
  | None => (ERROR_RETURN, log (EvPrint Error ("Cannot attest non-provisioned component" ++ NL)) s)
  | Some _ =>
      let s2 := snd (attest_rounds id s) in
      if fst (attest_rounds id s)
      then (SUCCESS_RETURN,
            mkState (transmit s2) (receive s2) (flash_status s2) (flash s2) (world s2)
                    (trace s2 ++ attestation_lines id (contents (receive s2))))
      else (ERROR_RETURN, log (attest_error (attest_first id s)) s2)
  end.
Proof.
  unfold attest_component, roster_slot, attest_rounds, attest_first, attest_error.
  unfold bind at 1. unfold gets at 1. unfold bind at 1.
  rewrite attest_lookup_loop. unfold roster_cnt.
  destruct (slot_from id _ _ _); cbn [Z.eqb]; [|reflexivity].
  cbn zeta. unfold set_transmit_opcode.
  unfold bind, ret, gets, print, emit, modify. cbn [fst snd].
  destruct (issue_cmd _ _) as [r1 s1]. cbn [fst snd].
  destruct (r1 =? SUCCESS_RETURN) eqn:E1; cbn [negb fst snd]; [|reflexivity].
  destruct (issue_cmd _ s1) as [r2 s2]. cbn [fst snd].
  destruct (r2 =? SUCCESS_RETURN); cbn [negb fst snd]; [|reflexivity].
  unfold attestation_lines. rewrite !cstring_attestation_field.
  change (skipn 0 (contents (receive s2))) with (contents (receive s2)).
  unfold log. cbn [transmit receive flash_status flash world trace].
  rewrite <- !app_assoc. reflexivity.
Qed.

Lemma roster_slot_absent (id : Z) (s : ap_state World) :
  (forall i, (i < roster_cnt s)%nat -> roster_id i s <> id) ->
  roster_slot id (flash_status s) = None.
Proof.
  intros H. unfold roster_slot. apply slot_from_none. intros k Hk.
  apply H. unfold roster_cnt. lia.
Qed.

(** X5. For an id that is in none of the first [component_cnt] slots,
    [attest_component] returns ERROR_RETURN after printing its error line,
    and does nothing else: no bus call is made and the frames are not
    touched. *)
Theorem attest_unprovisioned_stays_off_bus (component_id : Z) (s : ap_state World) :
  (forall i, (i < roster_cnt s)%nat -> roster_id i s <> component_id) ->
  attest_component component_id s
  = (ERROR_RETURN, log (EvPrint Error ("Cannot attest non-provisioned component" ++ NL)) s)
  /\ off_bus s (snd (attest_component component_id s)).
Proof.
  intros H. rewrite attest_component_unfold, (roster_slot_absent _ _ H).
  split; [reflexivity|]. apply off_bus_log. reflexivity.
Qed.

Lemma attest_rounds_effect (id : Z) (s : ap_state World) :
  exists tx rx rest,
    trace (snd (attest_rounds id s))
      = trace s ++ EvTransmit (component_id_to_i2c_addr id) tx rx :: rest /\
    opcode tx = cmd_code COMPONENT_CMD_ATTEST /\
    rng_chal tx = rng_chal (transmit s) /\ contents tx = contents (transmit s) /\
    rx = receive s.
Proof.
  unfold attest_rounds, set_transmit_opcode, modify. cbn [fst snd].
  match goal with
  | |- context [issue_cmd ?a ?s0] =>
      destruct (issue_cmd_effect a s0) as (_ & _ & _ & rest & Htr & _);
      destruct (issue_cmd a s0) as [r1 s1]
  end.
  cbn in Htr.
  destruct (negb (r1 =? SUCCESS_RETURN)); cbn [fst snd].
  - eexists _, _, rest. split; [exact Htr|]. repeat split.
  - destruct (issue_cmd_effect (component_id_to_i2c_addr id) s1)
      as (_ & _ & _ & rest2 & Htr2 & _).
    destruct (issue_cmd _ s1) as [r2 s2]. cbn [fst snd] in *.
    eexists _, _, (rest ++ _ :: rest2). rewrite Htr2, Htr, <- app_assoc.
    split; [reflexivity|]. repeat split.
Qed.

(** X6. For a provisioned id, [attest_component] starts with an ATTEST
    transmit to the address of that id and succeeds exactly when both
    [issue_cmd] rounds succeed.  It then prints the id and the three
    attestation strings, read from [receive.contents] at offsets 0, 65 and
    130, each cut at the first NUL or at 64 characters (the bytes at 64 and
    129 are never printed), and the Attest marker.  When a round fails it
    prints one error line, which tells the round, and no attestation
    data. *)
Theorem attest_provisioned (component_id : Z) (s : ap_state World) :
  (exists i, (i < roster_cnt s)%nat /\ roster_id i s = component_id) ->
  let r := attest_component component_id s in
  let s2 := snd (attest_rounds component_id s) in
  (fst r = SUCCESS_RETURN <-> fst (attest_rounds component_id s) = true) /\
  (fst r = SUCCESS_RETURN \/ fst r = ERROR_RETURN) /\
  trace (snd r) = trace s2 ++
    (if fst (attest_rounds component_id s)
     then attestation_lines component_id (contents (receive s2))
     else [attest_error (attest_first component_id s)]) /\
  exists tx rx rest,
    trace s2 = trace s ++ EvTransmit (component_id_to_i2c_addr component_id) tx rx :: rest /\
    opcode tx = cmd_code COMPONENT_CMD_ATTEST.
Proof.
  intros Hprov. cbn zeta. rewrite attest_component_unfold.
  destruct (roster_slot component_id (flash_status s)) eqn:Hslot;
    [|exfalso; revert Hslot; now apply roster_slot_found].
  cbn zeta.
  destruct (attest_rounds_effect component_id s) as (tx & rx & rest & Htr & Hop & _).
  destruct (fst (attest_rounds component_id s)); cbn [fst snd trace log].
  - split; [split; reflexivity|]. split; [now left|]. split; [reflexivity|].
    exists tx, rx, rest. auto.
  - split; [split; discriminate|]. split; [now right|]. split; [reflexivity|].
    exists tx, rx, rest. auto.
Qed.

End Attest.

(** ** Token and PIN *)

Section Auth.
Context {P : Platform}.

Lemma length_chop_last (s : string) :
  String.length (chop_last s) = pred (String.length s).
Proof.
  induction s as [|c s IH]; [reflexivity|].
  destruct s as [|c' s]; [reflexivity|].
  change (chop_last (String c (String c' s))) with (String c (chop_last (String c' s))).
  cbn [String.length] in *. rewrite IH. reflexivity.
Qed.

(** The line a prompt leaves in the buffer, given what [fgets] returns. *)
Lemma recv_input_line (msg buf : string) (len : nat) (s : ap_state World) :
  fst (recv_input msg buf len s) =
  match fst (fgets len (world s)) with
  | Some line => chop_last line
  | None => buf
  end /\
  world (snd (recv_input msg buf len s)) = snd (fgets len (world s)).
Proof.
  unfold recv_input, call_fgets, bind, ret, print, emit, modify. cbn [fst snd log world].
  destruct (fgets len (world s)) as [o w]. cbn. auto.
Qed.

Lemma validate_token_unfold (buf : string) (s : ap_state World) :
  validate_token buf s =
  let line := fst (recv_input "Enter token: " buf 50 s) in
  let s1 := snd (recv_input "Enter token: " buf 50 s) in
  let s2 := set_world (time_delay 500000 1500000 (world s1)) s1 in
  if accepts AP_TOKEN 16 line
  then (SUCCESS_RETURN, log (EvPrint Debug ("Token Accepted!" ++ NL)) s2)
  else (ERROR_RETURN, log (EvPrint Error ("Invalid Token!" ++ NL)) s2).
Proof.
  unfold validate_token, accepts, bind.
  destruct (recv_input "Enter token: " buf 50 s) as [line s1]. cbn [fst snd].
  unfold modify, ret, print, emit, modify. cbn [fst snd].
  destruct (_ && _); reflexivity.
Qed.

Lemma validate_pin_unfold (AP_PIN buf : string) (s : ap_state World) :
  validate_pin AP_PIN buf s =
  let line := fst (recv_input "Enter pin: " buf 50 s) in
  let s1 := snd (recv_input "Enter pin: " buf 50 s) in
  let s2 := set_world (time_delay 500000 1500000 (world s1)) s1 in
  if accepts AP_PIN 6 line
  then (SUCCESS_RETURN, log (EvPrint Debug ("Pin Accepted!" ++ NL)) s2)
  else (ERROR_RETURN, log (EvPrint Error ("Invalid PIN!" ++ NL)) s2).
Proof.
  unfold validate_pin, accepts, bind.
  destruct (recv_input "Enter pin: " buf 50 s) as [line s1]. cbn [fst snd].
  unfold modify, ret, print, emit, modify. cbn [fst snd].
  destruct (_ && _); reflexivity.
Qed.

(** X7. What [validate_token] and [validate_pin] accept.  The line that
    [fgets] returns always loses its last character, whatever it is, before
    it is judged: a token is accepted exactly when the line has 17
    characters and the first 16 compare equal to the token (a PIN: 7 and 6),
    so the right token arriving without a newline is rejected.  When [fgets]
    returns NULL the stale content of the local buffer is judged instead.
    Accepted or not, the call reads one line and waits the random delay
    once. *)
Theorem auth_judges_chopped_line (AP_PIN buf : string) (s : ap_state World) :
  let tok := fst (validate_token buf s) in
  let pin := fst (validate_pin AP_PIN buf s) in
  match fst (fgets 50 (world s)) with
  | Some line =>
      (tok = SUCCESS_RETURN <->
       String.length line = 17%nat /\
       secure_memcmp (chop_last line) (substring 0 16 AP_TOKEN) 16 = 0) /\
      (pin = SUCCESS_RETURN <->
       String.length line = 7%nat /\
       secure_memcmp (chop_last line) (substring 0 6 AP_PIN) 6 = 0)
  | None =>
      (tok = SUCCESS_RETURN <-> accepts AP_TOKEN 16 buf = true) /\
      (pin = SUCCESS_RETURN <-> accepts AP_PIN 6 buf = true)
  end /\
  (tok = SUCCESS_RETURN \/ tok = ERROR_RETURN) /\
  (pin = SUCCESS_RETURN \/ pin = ERROR_RETURN) /\
  world (snd (validate_token buf s))
    = time_delay 500000 1500000 (snd (fgets 50 (world s))) /\
  world (snd (validate_pin AP_PIN buf s))
    = time_delay 500000 1500000 (snd (fgets 50 (world s))).
Proof.
  cbn zeta. rewrite validate_token_unfold, validate_pin_unfold. cbn zeta.
  destruct (recv_input_line "Enter token: " buf 50 s) as (Hl1 & Hw1).
  destruct (recv_input_line "Enter pin: " buf 50 s) as (Hl2 & Hw2).
  rewrite Hl1, Hl2.
  assert (Hres : forall (b : bool) (x y : ap_state World),
            (fst (if b then (SUCCESS_RETURN, x) else (ERROR_RETURN, y)) = SUCCESS_RETURN
             <-> b = true) /\
            (fst (if b then (SUCCESS_RETURN, x) else (ERROR_RETURN, y)) = SUCCESS_RETURN \/
             fst (if b then (SUCCESS_RETURN, x) else (ERROR_RETURN, y)) = ERROR_RETURN) /\
            world (snd (if b then (SUCCESS_RETURN, log (EvPrint Debug EmptyString) x)
                        else (ERROR_RETURN, log (EvPrint Error EmptyString) x)))
            = world x).
  { intros [|] x y; cbn; repeat split; auto; discriminate. }
  assert (Hacc : forall secret n line, (0 < n)%nat ->
            accepts secret n (chop_last line) = true <->
            String.length line = S n /\
            secure_memcmp (chop_last line) (substring 0 n secret) n = 0).
  { intros secret n line Hn. unfold accepts.
    rewrite andb_true_iff, Nat.eqb_eq, Z.eqb_eq, length_chop_last.
    split; intros [H1 H2]; split; auto; lia. }
  split; [|split; [|split; [|split]]].
  - destruct (fst (fgets 50 (world s))) as [line|].
    + split; (etransitivity; [apply Hres | apply Hacc; lia]).
    + split; apply Hres.
  - apply Hres.
  - apply Hres.
  - destruct (accepts AP_TOKEN 16 _); cbn [snd log set_world world]; now rewrite Hw1.
  - destruct (accepts AP_PIN 6 _); cbn [snd log set_world world]; now rewrite Hw2.
Qed.

End Auth.

(** ** More on attempt_replace *)

Section ReplaceMore.
Context {P : Platform}.

Lemma firstn_upd {A : Type} (n i : nat) (v : A) (l : list A) :
  firstn n (upd i v l) = upd i v (firstn n l).
Proof.
  revert n i. induction l as [|x l IH]; intros [|n] [|i]; cbn; auto.
  - now rewrite IH.
Qed.

Lemma in_upd {A : Type} (i : nat) (v x : A) (l : list A) :
  In x (upd i v l) -> x = v \/ In x l.
Proof.
  revert i. induction l as [|h l IH]; intros [|i]; cbn; auto.
  - intros [H|H]; auto.
  - intros [H|H]; auto. destruct (IH _ H); auto.
Qed.

Lemma NoDup_upd {A : Type} (i : nat) (v : A) (l : list A) :
  NoDup l -> ~ In v l -> NoDup (upd i v l).
Proof.
  revert i. induction l as [|h l IH]; intros [|i] Hnd Hin; cbn; auto.
  - inversion Hnd; subst. constructor; [|assumption]. cbn in Hin. tauto.
  - inversion Hnd; subst. constructor.
    + intros H. apply in_upd in H. cbn in Hin. destruct H as [->|H]; tauto.
    + apply IH; [assumption|]. cbn in Hin. tauto.
Qed.

Lemma in_firstn_nth (x : Z) (n : nat) (l : list Z) :
  In x (firstn n l) -> exists k, (k < n)%nat /\ (k < length l)%nat /\ nth k l 0 = x.
Proof.
  intros H. apply (In_nth _ _ 0) in H. destruct H as (k & Hk & Hx).
  rewrite length_firstn in Hk. exists k. split; [lia|]. split; [lia|].
  rewrite nth_firstn in Hx. destruct (Nat.ltb_spec k n); [exact Hx | lia].
Qed.

Lemma slot_from_intro (id : Z) (ids : list Z) (n i j : nat) :
  (i <= j < i + n)%nat -> nth j ids 0 = id ->
  (forall k, (i <= k < j)%nat -> nth k ids 0 <> id) ->
  slot_from id ids n i = Some j.
Proof.
  revert i. induction n as [|n IH]; intros i Hr Hid Hfirst; [lia|].
  cbn. destruct (Z.eqb_spec (nth i ids 0) id) as [E|E].
  - destruct (Nat.eq_dec i j) as [->|Hne]; [reflexivity|].
    exfalso. apply (Hfirst i); [lia | exact E].
  - apply IH; [|exact Hid|intros k Hk; apply Hfirst; lia].
    destruct (Nat.eq_dec i j) as [->|Hne]; [contradiction | lia].
Qed.

Lemma untouched_penalty (s : ap_state World) :
  untouched s (log (EvLedOn LED3) (log (EvDelay 4000000) (log (EvLedOff LED3) s))).
Proof.
  unfold untouched. cbn. split; [reflexivity|]. split; [reflexivity|].
  exists penalty. rewrite <- !app_assoc. split; reflexivity.
Qed.

Lemma off_bus_penalty (s : ap_state World) :
  off_bus s (log (EvLedOn LED3) (log (EvDelay 4000000) (log (EvLedOff LED3) s))).
Proof.
  unfold off_bus. cbn. split; [reflexivity|]. split; [reflexivity|].
  exists penalty. rewrite <- !app_assoc. split; reflexivity.
Qed.

(** Whatever is entered, [attempt_replace] either leaves the roster record
    as it is or performs the swap of one provisioned slot. *)
Lemma attempt_replace_cases (token_buf buf : string) (s : ap_state World) :
  let e := flash_status s in
  let e' := flash_status (snd (attempt_replace token_buf buf s)) in
  (e' = e /\ untouched s (snd (attempt_replace token_buf buf s))) \/
  exists i id_in id_out,
    fst (validate_token token_buf s) = SUCCESS_RETURN /\
    (id_in, id_out) = fst (entered_ids buf (snd (validate_token token_buf s))) /\
    roster_slot id_in e = None /\ roster_slot id_out e = Some i /\
    e' = rehash (set_component_id i id_in e).
Proof.
  cbn zeta. rewrite attempt_replace_unfold. cbn zeta.
  pose proof (keeps_untouched_validate_token token_buf s) as Hu1.
  destruct (validate_token_effect token_buf s) as (_ & _ & Hfs1 & _).
  cbn zeta in *.
  destruct (Z.eqb_spec (fst (validate_token token_buf s)) 0) as [E|E].
  2: { left. cbn [snd log flash_status]. split; [exact Hfs1|].
       eapply untouched_trans; [exact Hu1 | apply untouched_penalty]. }
  set (s1 := snd (validate_token token_buf s)) in *.
  destruct (entered_ids_effect buf s1) as (_ & _ & Hfs2 & Hf2 & Htr2 & _).
  cbn zeta in *.
  assert (Hu2 : untouched s1 (snd (entered_ids buf s1))).
  { split; [exact Hf2|]. split; [exact Hfs2|]. eexists. split; [exact Htr2 | reflexivity]. }
  rewrite replace_component_unfold.
  set (s3 := snd (entered_ids buf s1)) in *.
  assert (Hfs : flash_status s3 = flash_status s) by congruence.
  rewrite Hfs.
  destruct (roster_slot (fst (fst (entered_ids buf s1))) (flash_status s)) eqn:Hin.
  { left. cbn [snd log flash_status]. split; [exact Hfs|].
    eapply untouched_trans; [exact Hu1|]. eapply untouched_trans; [exact Hu2|].
    apply untouched_log. reflexivity. }
  destruct (roster_slot (snd (fst (entered_ids buf s1))) (flash_status s)) eqn:Hout.
  - right. exists n, (fst (fst (entered_ids buf s1))), (snd (fst (entered_ids buf s1))).
    split; [exact E|]. split; [now destruct (fst (entered_ids buf s1))|].
    split; [exact Hin|]. split; [exact Hout|].
    cbn [snd replaced flash_status]. now rewrite Hfs.
  - left. cbn [snd log flash_status]. split; [exact Hfs|].
    eapply untouched_trans; [exact Hu1|]. eapply untouched_trans; [exact Hu2|].
    apply untouched_log. reflexivity.
Qed.

(** X8. After a rejected token [attempt_replace] reads no further input
    and asks for no id: it switches LED3 off, waits 4 seconds, switches it on
    again, and leaves frames, roster and flash as they were. *)
Theorem replace_wrong_token (token_buf buf : string) (s : ap_state World) :
  fst (validate_token token_buf s) = ERROR_RETURN ->
  let s1 := snd (validate_token token_buf s) in
  let s' := snd (attempt_replace token_buf buf s) in
  trace s' = trace s ++ prompt "Enter token: "
             ++ EvPrint Error ("Invalid Token!" ++ NL) :: penalty /\
  world s' = world s1 /\
  untouched s s' /\ off_bus s s'.
Proof.
  intros Htok. cbn zeta. rewrite attempt_replace_unfold. cbn zeta. rewrite Htok.
  cbn [Z.eqb ERROR_RETURN snd].
  pose proof (keeps_untouched_validate_token token_buf s) as Hu.
  revert Htok Hu. rewrite validate_token_unfold. cbn zeta.
  destruct (recv_input_effect "Enter token: " token_buf 50 s) as (Ht & Hr & _ & _ & Htr).
  cbn zeta in *.
  destruct (accepts AP_TOKEN 16 _); [discriminate|]. intros _ Hu. cbn [snd] in *.
  unfold log, set_world in *. cbn [trace transmit receive world flash flash_status] in *.
  split; [|split; [reflexivity|split]].
  - rewrite Htr. unfold prompt, penalty. rewrite <- !app_assoc. reflexivity.
  - eapply untouched_trans; [exact Hu|].
    split; [reflexivity|]. split; [reflexivity|]. cbn [trace].
    exists penalty. unfold penalty. rewrite <- !app_assoc. split; reflexivity.
  - split; [exact Ht|]. split; [exact Hr|]. cbn [trace]. rewrite Htr.
    eexists. rewrite <- !app_assoc. split; reflexivity.
Qed.

(** X9. When the token is accepted and neither the id entered as
    Component ID In nor the id entered as Component ID Out is in the first
    [component_cnt] slots, [attempt_replace] prints that the component is
    not provisioned and changes neither the roster nor the flash. *)
Theorem replace_unknown_component (token_buf buf : string) (s : ap_state World) :
  let s1 := snd (validate_token token_buf s) in
  let id_in := fst (fst (entered_ids buf s1)) in
  let id_out := snd (fst (entered_ids buf s1)) in
  let s' := snd (attempt_replace token_buf buf s) in
  fst (validate_token token_buf s) = SUCCESS_RETURN ->
  (forall i, (i < roster_cnt s)%nat -> roster_id i s <> id_in) ->
  (forall i, (i < roster_cnt s)%nat -> roster_id i s <> id_out) ->
  s' = log (not_provisioned_line id_out) (snd (entered_ids buf s1)) /\
  untouched s s'.
Proof.
  cbn zeta. intros Htok Hin Hout.
  destruct (attempt_replace_cases token_buf buf s) as [(_ & Hu)|Hswap].
  2: { exfalso. destruct Hswap as (i & a & b & _ & Hids & _ & Hs & _).
       rewrite (roster_slot_absent b s) in Hs; [discriminate|].
       replace b with (snd (fst (entered_ids buf (snd (validate_token token_buf s)))))
         by (now rewrite <- Hids).
       exact Hout. }
  split; [|exact Hu].
  rewrite attempt_replace_unfold. cbn zeta. rewrite Htok. cbn [Z.eqb SUCCESS_RETURN].
  destruct (validate_token_effect token_buf s) as (_ & _ & Hfs1 & _).
  destruct (entered_ids_effect buf (snd (validate_token token_buf s))) as (_ & _ & Hfs2 & _).
  cbn zeta in *.
  rewrite replace_component_unfold, Hfs2, Hfs1.
  rewrite (roster_slot_absent _ s Hin), (roster_slot_absent _ s Hout). reflexivity.
Qed.

(** X10. On every path of [attempt_replace], whatever the operator
    enters, the record keeps its magic, its count, its IV and the number of
    its id slots, the slots from [component_cnt] on are not written, and a
    record that fits the C type still fits it afterwards. *)
Theorem replace_keeps_record_shape (token_buf buf : string) (s : ap_state World) :
  let e := flash_status s in
  let e' := flash_status (snd (attempt_replace token_buf buf s)) in
  flash_magic e' = flash_magic e /\
  component_cnt e' = component_cnt e /\
  fe_iv e' = fe_iv e /\
  length (component_ids e') = length (component_ids e) /\
  (forall k, (roster_cnt s <= k)%nat ->
             nth k (component_ids e') 0 = nth k (component_ids e) 0) /\
  (entry_ok HASH_LEN IV_LEN e -> entry_ok HASH_LEN IV_LEN e').
Proof.
  cbn zeta.
  destruct (attempt_replace_cases token_buf buf s)
    as [(He & _)|(i & a & b & _ & _ & _ & Hout & He)]; cbn zeta in *; rewrite He.
  - split; [reflexivity|]. split; [reflexivity|]. split; [reflexivity|].
    split; [reflexivity|]. split; auto.
  - cbn [rehash set_component_id flash_magic component_cnt fe_iv component_ids].
    split; [reflexivity|]. split; [reflexivity|]. split; [reflexivity|].
    split; [apply length_upd|]. split; [|apply entry_ok_replaced].
    intros k Hk. apply nth_upd_other.
    destruct (slot_from_spec _ _ _ _ _ Hout) as (Hr & _). unfold roster_cnt in Hk. lia.
Qed.

(** X11. [attempt_replace] never introduces a duplicate: if the
    provisioned ids are pairwise different before the command, they are
    pairwise different after it, whatever the operator enters. *)
Theorem replace_keeps_ids_distinct (token_buf buf : string) (s : ap_state World) :
  NoDup (provisioned_ids (flash_status s)) ->
  NoDup (provisioned_ids (flash_status (snd (attempt_replace token_buf buf s)))).
Proof.
  intros Hnd.
  destruct (attempt_replace_cases token_buf buf s)
    as [(He & _)|(i & a & b & _ & _ & Hin & Hout & He)]; cbn zeta in *; rewrite He.
  - exact Hnd.
  - unfold provisioned_ids in *.
    cbn [rehash set_component_id component_cnt component_ids].
    rewrite firstn_upd. apply NoDup_upd; [exact Hnd|].
    intros Hmem. apply in_firstn_nth in Hmem. destruct Hmem as (k & Hk & _ & Hx).
    unfold roster_slot in Hin. rewrite slot_from_none in Hin.
    apply (Hin k); [lia | exact Hx].
Qed.

(** X12. After a replace that goes through, with the count inside the id
    array, the new id is provisioned, at the slot the old one had; and when
    the provisioned ids were pairwise different, the old id is provisioned
    no more. *)
Theorem replace_swaps_membership (token_buf buf : string) (s : ap_state World) (i : nat) :
  let s1 := snd (validate_token token_buf s) in
  let id_in := fst (fst (entered_ids buf s1)) in
  let id_out := snd (fst (entered_ids buf s1)) in
  let e := flash_status s in
  let e' := flash_status (snd (attempt_replace token_buf buf s)) in
  fst (validate_token token_buf s) = SUCCESS_RETURN ->
  roster_slot id_in e = None ->
  roster_slot id_out e = Some i ->
  (roster_cnt s <= length (component_ids e))%nat ->
  roster_slot id_in e' = Some i /\
  (NoDup (provisioned_ids e) -> roster_slot id_out e' = None).
Proof.
  cbn zeta. intros Htok Hin Hout Hlen.
  destruct (attempt_replace_cases token_buf buf s)
    as [(He & _)|(j & a & b & _ & Hids & Hin' & Hout' & He)]; cbn zeta in *.
  { exfalso. revert He. rewrite attempt_replace_unfold. cbn zeta. rewrite Htok.
    cbn [Z.eqb SUCCESS_RETURN].
    destruct (validate_token_effect token_buf s) as (_ & _ & Hfs1 & _).
    destruct (entered_ids_effect buf (snd (validate_token token_buf s))) as (_ & _ & Hfs2 & _).
    cbn zeta in *. rewrite replace_component_unfold, Hfs2, Hfs1, Hin, Hout.
    cbn [snd replaced flash_status]. rewrite Hfs2, Hfs1. intros He.
    apply (f_equal component_ids) in He. cbn [rehash set_component_id component_ids] in He.
    destruct (slot_from_spec _ _ _ _ _ Hout) as (Hr & Hid & _).
    apply (f_equal (fun l => nth i l 0)) in He.
    rewrite nth_upd_same in He by (unfold roster_cnt in Hlen; lia).
    unfold roster_slot in Hin. rewrite slot_from_none in Hin.
    apply (Hin i); [lia | congruence]. }
  rewrite <- Hids in *. cbn [fst snd] in *.
  assert (j = i) by congruence. subst j. rewrite He.
  destruct (slot_from_spec _ _ _ _ _ Hout) as (Hr & Hid & Hfirst).
  unfold roster_slot in Hin |- *. rewrite slot_from_none in Hin.
  cbn [rehash set_component_id component_cnt component_ids].
  assert (Hi : (i < length (component_ids (flash_status s)))%nat)
    by (unfold roster_cnt in Hlen; lia).
  split.
  - apply slot_from_intro; [lia | now apply nth_upd_same |].
    intros k Hk. rewrite nth_upd_other by lia. apply Hin. lia.
  - intros Hnd. apply slot_from_none. intros k Hk.
    destruct (Nat.eq_dec k i) as [->|Hne].
    + rewrite nth_upd_same by exact Hi. intros ->. apply (Hin i); [lia | exact Hid].
    + rewrite nth_upd_other by auto. intros Hk'.
      apply Hne. unfold provisioned_ids in Hnd.
      assert (Hl : length (firstn (Z.to_nat (component_cnt (flash_status s)))
                             (component_ids (flash_status s)))
                   = Z.to_nat (component_cnt (flash_status s)))
        by (rewrite length_firstn; unfold roster_cnt in Hlen; lia).
      apply (proj1 (NoDup_nth _ 0) Hnd); try lia.
      rewrite !nth_firstn.
      destruct (Nat.ltb_spec k (Z.to_nat (component_cnt (flash_status s)))); [|lia].
      destruct (Nat.ltb_spec i (Z.to_nat (component_cnt (flash_status s)))); [|lia].
      congruence.
Qed.

End ReplaceMore.

(** ** The record in memory and on flash *)

Section RecordBytes.
Context {P : Platform}.

Lemma read_u32_le32 (v : Z) (p : list Z) : read_u32 (le32 v ++ p) = v mod 4294967296.
Proof.
  unfold read_u32, le32. cbn [app nth].
  rewrite !Z.mod_mod by lia.
  Z.to_euclidean_division_equations. lia.
Qed.

Lemma read_u32_range (p : list Z) : 0 <= read_u32 p < 4294967296.
Proof.
  unfold read_u32.
  pose proof (Z.mod_pos_bound (nth 0 p 0) 256 ltac:(lia)).
  pose proof (Z.mod_pos_bound (nth 1 p 0) 256 ltac:(lia)).
  pose proof (Z.mod_pos_bound (nth 2 p 0) 256 ltac:(lia)).
  pose proof (Z.mod_pos_bound (nth 3 p 0) 256 ltac:(lia)).
  lia.
Qed.

Lemma le32_read_u32 (a b c d : Z) (p : list Z) :
  is_byte a -> is_byte b -> is_byte c -> is_byte d ->
  le32 (read_u32 (a :: b :: c :: d :: p)) = [a; b; c; d].
Proof.
  unfold is_byte, read_u32, le32. cbn [nth]. intros Ha Hb Hc Hd.
  rewrite (Z.mod_small a), (Z.mod_small b), (Z.mod_small c), (Z.mod_small d) by lia.
  repeat f_equal; Z.to_euclidean_division_equations; lia.
Qed.

Lemma words_of_bytes_le32 (l p : list Z) :
  Forall (fun v => 0 <= v < 4294967296) l ->
  words_of_bytes (length l) (flat_map le32 l ++ p) = l.
Proof.
  induction 1 as [|v l Hv Hl IH]; [reflexivity|].
  cbn [length flat_map words_of_bytes]. rewrite <- app_assoc.
  rewrite read_u32_le32, Z.mod_small by lia. f_equal.
  change (skipn 4 (le32 v ++ flat_map le32 l ++ p)) with (flat_map le32 l ++ p).
  exact IH.
Qed.

Lemma le32_words_of_bytes (n : nat) (p : list Z) :
  (4 * n <= length p)%nat -> Forall is_byte (firstn (4 * n) p) ->
  flat_map le32 (words_of_bytes n p) = firstn (4 * n) p.
Proof.
  revert p. induction n as [|n IH]; intros p Hlen Hb; [reflexivity|].
  destruct p as [|a [|b [|c [|d p]]]]; cbn [length] in Hlen; try lia.
  replace (4 * S n)%nat with (4 + 4 * n)%nat in * by lia.
  cbn [words_of_bytes flat_map]. cbn [Nat.add firstn] in Hb |- *.
  inversion Hb as [|? ? Ha Hb1]; subst. inversion Hb1 as [|? ? Hb' Hb2]; subst.
  inversion Hb2 as [|? ? Hc Hb3]; subst. inversion Hb3 as [|? ? Hd Hb4]; subst.
  rewrite le32_read_u32 by assumption. cbn [app skipn]. do 4 f_equal.
  apply IH; [lia | exact Hb4].
Qed.

Lemma skipn_header (e : flash_entry) (tail : list Z) :
  length (component_ids e) = 32%nat ->
  skipn 136 (header_bytes e ++ tail) = tail.
Proof. intros H. apply skipn_exact. now apply length_header_bytes. Qed.

(** The struct read back from its own bytes. *)
Lemma entry_of_entry_bytes (e : flash_entry) (rest : list Z) :
  entry_ok HASH_LEN IV_LEN e -> words_ok e ->
  entry_of_bytes HASH_LEN IV_LEN (entry_bytes e ++ rest) = e.
Proof.
  intros (Hids & Hh & Hiv & Hcnt) (Hm & Hw).
  unfold entry_of_bytes, entry_bytes.
  rewrite <- !app_assoc.
  replace (skipn (136 + HASH_LEN) (header_bytes e ++ fe_hash e ++ fe_iv e ++ rest))
    with (fe_iv e ++ rest).
  2: { replace (136 + HASH_LEN)%nat with (HASH_LEN + 136)%nat by lia.
       rewrite <- skipn_skipn, skipn_header by exact Hids.
       symmetry. apply skipn_exact. exact Hh. }
  rewrite skipn_header by exact Hids.
  rewrite (firstn_exact _ _ _ Hh), (firstn_exact _ _ _ Hiv).
  unfold header_bytes. rewrite <- !app_assoc.
  rewrite read_u32_le32, Z.mod_small by lia.
  change (skipn 4 (le32 (flash_magic e) ++ ?x)) with x.
  rewrite read_u32_le32, Z.mod_small by lia.
  change (skipn 8 (le32 (flash_magic e) ++ le32 (component_cnt e) ++ ?x)) with x.
  rewrite <- Hids. rewrite words_of_bytes_le32 by exact Hw.
  now destruct e.
Qed.

Lemma header_of_bytes (p : list Z) :
  (136 <= length p)%nat -> Forall is_byte (firstn 136 p) ->
  header_bytes (entry_of_bytes HASH_LEN IV_LEN p) = firstn 136 p.
Proof.
  intros Hlen Hb.
  transitivity (flat_map le32 (words_of_bytes 34 p)).
  - unfold header_bytes, entry_of_bytes.
    cbn [flash_magic component_cnt component_ids].
    change (words_of_bytes 34 p)
      with (read_u32 p :: read_u32 (skipn 4 p) :: words_of_bytes 32 (skipn 4 (skipn 4 p))).
    rewrite skipn_skipn. reflexivity.
  - apply (le32_words_of_bytes 34 p); [exact Hlen | exact Hb].
Qed.

(** The bytes of the struct that holds a given stretch of memory. *)
Lemma entry_bytes_of_bytes (p : list Z) :
  length p = sizeof_flash_entry -> Forall is_byte (firstn 136 p) ->
  entry_bytes (entry_of_bytes HASH_LEN IV_LEN p) = p.
Proof.
  intros Hlen Hb. unfold sizeof_flash_entry in Hlen.
  unfold entry_bytes. rewrite header_of_bytes by (auto; lia).
  unfold entry_of_bytes. cbn [fe_hash fe_iv].
  rewrite <- (firstn_skipn 136 p) at 4. f_equal.
  replace (136 + HASH_LEN)%nat with (HASH_LEN + 136)%nat by lia.
  rewrite <- skipn_skipn.
  rewrite <- (firstn_skipn HASH_LEN (skipn 136 p)) at 3. f_equal.
  apply firstn_all2. rewrite !length_skipn. lia.
Qed.

End RecordBytes.

(** ** init: what the flash page holds and what is loaded from it *)

Section InitMore.
Context {P : Platform}.

Lemma bytes_eqb_refl (l : list Z) : bytes_eqb l l = true.
Proof. induction l as [|x l IH]; [reflexivity|]. cbn. now rewrite Z.eqb_refl. Qed.

Lemma bytes_eqb_eq (a b : list Z) : bytes_eqb a b = true -> a = b.
Proof.
  revert b. induction a as [|x a IH]; intros [|y b] H; try discriminate; [reflexivity|].
  cbn in H. apply andb_true_iff in H. destruct H as (Hx & Hr).
  apply Z.eqb_eq in Hx. subst y. f_equal. now apply IH.
Qed.

Lemma forall_firstn {A : Type} (Q : A -> Prop) (n : nat) (l : list A) :
  Forall Q l -> Forall Q (firstn n l).
Proof.
  intros H. rewrite <- (firstn_skipn n l) in H. apply Forall_app in H. tauto.
Qed.

Lemma forall_skipn {A : Type} (Q : A -> Prop) (n : nat) (l : list A) :
  Forall Q l -> Forall Q (skipn n l).
Proof.
  intros H. rewrite <- (firstn_skipn n l) in H. apply Forall_app in H. tauto.
Qed.

Lemma words_of_bytes_range (n : nat) (l : list Z) :
  Forall (fun v => 0 <= v < 4294967296) (words_of_bytes n l).
Proof.
  revert l. induction n as [|n IH]; intros l; cbn [words_of_bytes]; constructor;
    [apply read_u32_range | apply IH].
Qed.

(** The page image of a record: the ciphertext of its first 160 bytes, then
    the rest of its bytes in clear. *)
Lemma encrypted_flash_split (e : flash_entry) :
  entry_ok HASH_LEN IV_LEN e -> (24 <= HASH_LEN)%nat ->
  encrypted_flash e
    = aes_encrypt (firstn FLASH_ENC_LEN (entry_bytes e)) (fe_iv e)
      ++ skipn FLASH_ENC_LEN (entry_bytes e) /\
  length (aes_encrypt (firstn FLASH_ENC_LEN (entry_bytes e)) (fe_iv e)) = FLASH_ENC_LEN /\
  length (encrypted_flash e) = sizeof_flash_entry.
Proof.
  intros Hok H24. pose proof (length_entry_bytes e Hok) as Hlen.
  assert (Henc : length (aes_encrypt (firstn FLASH_ENC_LEN (entry_bytes e)) (fe_iv e))
                 = FLASH_ENC_LEN).
  { rewrite aes_encrypt_length, length_firstn, Hlen.
    unfold sizeof_flash_entry, FLASH_ENC_LEN. lia. }
  assert (Hsplit : encrypted_flash e
                   = aes_encrypt (firstn FLASH_ENC_LEN (entry_bytes e)) (fe_iv e)
                     ++ skipn FLASH_ENC_LEN (entry_bytes e)).
  { unfold encrypted_flash, memcpy.
    rewrite (firstn_all2 (n := sizeof_flash_entry)) by lia.
    rewrite firstn_all2 by lia. reflexivity. }
  split; [exact Hsplit|]. split; [exact Henc|].
  rewrite Hsplit, length_app, Henc, length_skipn, Hlen.
  unfold sizeof_flash_entry, FLASH_ENC_LEN. lia.
Qed.

(** What [init] loads from a page that holds the image of [e]. *)
Lemma loaded_written_record (e : flash_entry) (s : ap_state World) :
  entry_ok HASH_LEN IV_LEN e -> words_ok e -> cipher_ok e -> (24 <= HASH_LEN)%nat ->
  holds_record (flash s) e ->
  loaded_entry s = e.
Proof.
  intros Hok Hw (Hdec & Hbytes) H24 Hholds.
  destruct (encrypted_flash_split e Hok H24) as (Hsplit & Henc & Hsize).
  pose proof (length_entry_bytes e Hok) as Hlen.
  unfold loaded_entry. unfold holds_record in Hholds. rewrite Hholds.
  set (c := aes_encrypt (firstn FLASH_ENC_LEN (entry_bytes e)) (fe_iv e)) in *.
  assert (Hpage : entry_bytes (entry_of_bytes HASH_LEN IV_LEN (encrypted_flash e))
                  = encrypted_flash e).
  { apply entry_bytes_of_bytes; [exact Hsize|].
    rewrite Hsplit, firstn_app, Henc.
    change (136 - FLASH_ENC_LEN)%nat with 0%nat. rewrite firstn_O, app_nil_r.
    apply forall_firstn. exact Hbytes. }
  assert (Hiv : fe_iv (entry_of_bytes HASH_LEN IV_LEN (encrypted_flash e)) = fe_iv e).
  { unfold entry_of_bytes. cbn [fe_iv]. rewrite Hsplit.
    replace (136 + HASH_LEN)%nat with ((HASH_LEN - 24) + FLASH_ENC_LEN)%nat
      by (unfold FLASH_ENC_LEN; lia).
    rewrite <- skipn_skipn, (skipn_exact _ _ _ Henc), skipn_skipn.
    replace (HASH_LEN - 24 + FLASH_ENC_LEN)%nat with (HASH_LEN + 136)%nat
      by (unfold FLASH_ENC_LEN; lia).
    rewrite <- skipn_skipn. unfold entry_bytes.
    destruct Hok as (Hids & Hh & Hi & _).
    rewrite skipn_header by exact Hids. rewrite (skipn_exact _ _ _ Hh).
    apply firstn_all2. lia. }
  rewrite Hpage, Hiv, Hsplit, (firstn_exact _ _ _ Henc), Hdec.
  unfold memcpy. rewrite firstn_firstn, Nat.min_id.
  rewrite (skipn_exact _ _ _ Henc), firstn_skipn.
  rewrite <- (app_nil_r (entry_bytes e)). apply entry_of_entry_bytes; assumption.
Qed.

(** A sealed record passes both checks of [init]. *)
Lemma sealed_integrity (s : ap_state World) :
  length (component_ids (loaded_entry s)) = 32%nat ->
  sealed (loaded_entry s) -> integrity_ok s = true.
Proof.
  intros Hids (Hm & Hh). unfold integrity_ok.
  rewrite Hm, Z.eqb_refl, (hash_region _ Hids), <- Hh. apply bytes_eqb_refl.
Qed.

(** A record that passes both checks of [init] is sealed. *)
Lemma integrity_sealed (s : ap_state World) :
  (sizeof_flash_entry <= length (flash s))%nat -> (24 <= HASH_LEN)%nat ->
  integrity_ok s = true -> sealed (loaded_entry s).
Proof.
  intros Hlen H24 Hok. unfold integrity_ok in Hok.
  apply andb_true_iff in Hok. destruct Hok as (Hm & Hh).
  destruct (loaded_entry_iv s Hlen H24) as (_ & _ & Hids).
  split; [now apply Z.eqb_eq|].
  apply bytes_eqb_eq in Hh. rewrite (hash_region _ Hids) in Hh.
  rewrite (firstn_all2 (hash _)) in Hh by (rewrite hash_length; lia).
  rewrite <- Hh. symmetry. apply firstn_all2.
  unfold loaded_entry, entry_of_bytes. cbn [fe_hash]. rewrite length_firstn. lia.
Qed.

(** The record built on a failed check is sealed. *)
Lemma reset_sealed (s : ap_state World) :
  (sizeof_flash_entry <= length (flash s))%nat -> (24 <= HASH_LEN)%nat ->
  0 <= COMPONENT_CNT <= 32 ->
  sealed (reset_entry s).
Proof.
  intros Hlen H24 Hcnt.
  destruct (loaded_entry_iv s Hlen H24) as (_ & _ & Hids).
  unfold sealed, reset_entry.
  cbn [flash_magic fe_hash rehash component_cnt component_ids header_bytes].
  split; [reflexivity|].
  set (ids := firstn _ _ ++ skipn _ _).
  assert (Hl : length ids = 32%nat).
  { unfold ids. rewrite length_app, length_firstn, length_skipn, length_app, repeat_length, Hids.
    lia. }
  f_equal. etransitivity; [apply hash_region; exact Hl|]. reflexivity.
Qed.

(** The words of the record built on a failed check are 32-bit values. *)
Lemma words_ok_reset (s : ap_state World) :
  0 <= FLASH_MAGIC < 4294967296 ->
  Forall (fun v => 0 <= v < 4294967296) COMPONENT_IDS ->
  words_ok (reset_entry s).
Proof.
  intros Hm Hids. unfold words_ok, reset_entry.
  cbn [flash_magic rehash component_ids]. split; [exact Hm|].
  apply Forall_app. split.
  - apply forall_firstn, Forall_app. split; [exact Hids|].
    apply Forall_forall. intros x Hx. apply repeat_spec in Hx. subst x. lia.
  - apply forall_skipn. unfold loaded_entry, entry_of_bytes. cbn [component_ids].
    apply words_of_bytes_range.
Qed.

Lemma loaded_entry_flash (s s2 : ap_state World) :
  flash s2 = flash s -> loaded_entry s2 = loaded_entry s.
Proof. intros H. unfold loaded_entry. now rewrite H. Qed.

Lemma integrity_ok_flash (s s2 : ap_state World) :
  flash s2 = flash s -> integrity_ok s2 = integrity_ok s.
Proof. intros H. unfold integrity_ok. now rewrite (loaded_entry_flash s s2 H). Qed.

(** An erased page written with the image of [e] holds [e]. *)
Lemma page_written (e : flash_entry) (n : nat) :
  entry_ok HASH_LEN IV_LEN e -> (24 <= HASH_LEN)%nat ->
  holds_record (memcpy (repeat 255 n) (encrypted_flash e) (length (encrypted_flash e))) e.
Proof.
  intros Hok H24. destruct (encrypted_flash_split e Hok H24) as (_ & _ & Hsize).
  unfold holds_record, memcpy. rewrite firstn_all, firstn_app, firstn_all2 by lia.
  rewrite Hsize, Nat.sub_diag, firstn_O. apply app_nil_r.
Qed.

(** A page that holds the image of a sealed record passes the checks. *)
Lemma integrity_of_record (e : flash_entry) (s : ap_state World) :
  entry_ok HASH_LEN IV_LEN e -> words_ok e -> sealed e -> cipher_ok e ->
  (24 <= HASH_LEN)%nat -> holds_record (flash s) e ->
  integrity_ok s = true /\ loaded_entry s = e.
Proof.
  intros Hok Hw Hs Hc H24 Hh.
  pose proof (loaded_written_record e s Hok Hw Hc H24 Hh) as Hl.
  split; [|exact Hl]. apply sealed_integrity; rewrite Hl; [apply Hok | exact Hs].
Qed.

(** X13. When the flash page holds the image of a well-formed record
    that carries the magic and the hash of its own header, [init] loads
    exactly that record into RAM, whatever RAM held before, and does
    nothing else: no print, no draw from the generator, no flash write. *)
Theorem init_loads_written_record (e : flash_entry) (s : ap_state World) :
  entry_ok HASH_LEN IV_LEN e -> words_ok e -> sealed e -> cipher_ok e ->
  (24 <= HASH_LEN)%nat -> holds_record (flash s) e ->
  init s = (tt, set_flash_status e s).
Proof.
  intros Hok Hw Hs Hc H24 Hh. rewrite init_unfold.
  destruct (integrity_of_record e s Hok Hw Hs Hc H24 Hh) as (-> & ->). reflexivity.
Qed.

(** X14. Whatever the flash page holds, the record [init] leaves in RAM
    carries the magic and the hash of its own header and ids, and has its
    32 id slots. *)
Theorem init_leaves_sealed_record (s : ap_state World) :
  (sizeof_flash_entry <= length (flash s))%nat -> (24 <= HASH_LEN)%nat ->
  0 <= COMPONENT_CNT <= 32 ->
  let e' := flash_status (snd (init s)) in
  flash_magic e' = FLASH_MAGIC /\
  fe_hash e' = hash (header_bytes e') /\
  length (component_ids e') = 32%nat.
Proof.
  intros Hlen H24 Hcnt. cbn zeta. rewrite init_unfold.
  destruct (loaded_entry_iv s Hlen H24) as (_ & _ & Hids).
  destruct (integrity_ok s) eqn:Hi; cbn [snd set_flash_status reset_state flash_status].
  - destruct (integrity_sealed s Hlen H24 Hi) as (Hm & Hh). auto.
  - destruct (reset_sealed s Hlen H24 Hcnt) as (Hm & Hh).
    split; [exact Hm|]. split; [exact Hh|].
    unfold reset_entry. cbn [component_ids rehash].
    rewrite length_app, length_firstn, length_skipn, length_app, repeat_length, Hids. lia.
Qed.

(** X15. When a check of [init] fails, the roster it leaves is the
    build-time one: the count is [COMPONENT_CNT], the provisioned ids are
    the first [COMPONENT_CNT] build-time ids, the page is erased and
    written once, and it then holds the image of the record in RAM. *)
Theorem init_reset_provisions_build_roster (s : ap_state World) :
  (sizeof_flash_entry <= length (flash s))%nat -> (24 <= HASH_LEN)%nat ->
  (16 <= IV_LEN)%nat -> 0 <= COMPONENT_CNT <= 32 ->
  (Z.to_nat COMPONENT_CNT <= length COMPONENT_IDS)%nat ->
  integrity_ok s = false ->
  let s' := snd (init s) in
  component_cnt (flash_status s') = COMPONENT_CNT /\
  provisioned_ids (flash_status s') = firstn (Z.to_nat COMPONENT_CNT) COMPONENT_IDS /\
  flash_ops (trace s')
    = flash_ops (trace s) ++ [EvFlashErase; EvFlashWrite (encrypted_flash (flash_status s'))] /\
  holds_record (flash s') (flash_status s') /\
  length (flash s') = length (flash s).
Proof.
  intros Hlen H24 H16 Hcnt Hids Hi. cbn zeta. rewrite init_unfold, Hi.
  cbn [snd reset_state flash_status trace flash].
  pose proof (entry_ok_reset s Hlen H24 H16 Hcnt) as Hok.
  destruct (encrypted_flash_split _ Hok H24) as (_ & _ & Hsize).
  split; [reflexivity|]. split; [|split; [|split]].
  - unfold provisioned_ids, reset_entry. cbn [component_cnt component_ids rehash].
    rewrite firstn_app, length_firstn, length_app, repeat_length.
    replace (Z.to_nat COMPONENT_CNT - _)%nat with 0%nat by lia.
    rewrite firstn_O, app_nil_r, firstn_firstn, Nat.min_id.
    rewrite firstn_app. replace (Z.to_nat COMPONENT_CNT - _)%nat with 0%nat by lia.
    rewrite firstn_O. apply app_nil_r.
  - rewrite flash_ops_app. reflexivity.
  - apply page_written; assumption.
  - unfold memcpy. rewrite firstn_all, length_app, length_skipn, repeat_length. lia.
Qed.

(** X16. [init] run again on the page a first [init] left (after a
    power cycle, whatever RAM, frames and console then hold) accepts the
    page: it loads the record the first run left in RAM and resets
    nothing. *)
Theorem init_accepts_own_page (s s2 : ap_state World) :
  (sizeof_flash_entry <= length (flash s))%nat -> (24 <= HASH_LEN)%nat ->
  (16 <= IV_LEN)%nat -> 0 <= COMPONENT_CNT <= 32 ->
  0 <= FLASH_MAGIC < 4294967296 ->
  Forall (fun v => 0 <= v < 4294967296) COMPONENT_IDS ->
  cipher_ok (reset_entry s) ->
  flash s2 = flash (snd (init s)) ->
  init s2 = (tt, set_flash_status (flash_status (snd (init s))) s2).
Proof.
  intros Hlen H24 H16 Hcnt Hm Hids Hc. rewrite (init_unfold s).
  destruct (integrity_ok s) eqn:Hi; cbn [snd set_flash_status reset_state flash_status flash];
    intros Hf.
  - rewrite init_unfold, (integrity_ok_flash s s2 Hf), Hi, (loaded_entry_flash s s2 Hf).
    reflexivity.
  - rewrite init_unfold.
    destruct (integrity_of_record (reset_entry s) s2) as (-> & ->);
      try assumption; [| | | |reflexivity].
    + apply entry_ok_reset; assumption.
    + apply words_ok_reset; assumption.
    + apply reset_sealed; assumption.
    + rewrite Hf. apply page_written; [apply entry_ok_reset|]; assumption.
Qed.

End InitMore.

(** ** A replace and the next power cycle *)

Section Persist.
Context {P : Platform}.

Lemma forall_upd {A : Type} (Q : A -> Prop) (i : nat) (v : A) (l : list A) :
  Q v -> Forall Q l -> Forall Q (upd i v l).
Proof.
  intros Hv. revert i. induction l as [|x l IH]; intros i H; [destruct i; constructor|].
  inversion H; subst. destruct i; cbn; constructor; auto.
Qed.

(** The state a performed swap leaves. *)
Lemma attempt_replace_swap (token_buf buf : string) (s : ap_state World) (i : nat) :
  let s1 := snd (validate_token token_buf s) in
  let id_in := fst (fst (entered_ids buf s1)) in
  let id_out := snd (fst (entered_ids buf s1)) in
  fst (validate_token token_buf s) = SUCCESS_RETURN ->
  roster_slot id_in (flash_status s) = None ->
  roster_slot id_out (flash_status s) = Some i ->
  snd (attempt_replace token_buf buf s) = replaced i id_in id_out (snd (entered_ids buf s1)) /\
  flash_status (snd (entered_ids buf s1)) = flash_status s.
Proof.
  cbn zeta. intros Htok Hin Hout.
  destruct (validate_token_effect token_buf s) as (_ & _ & Hfs1 & _).
  destruct (entered_ids_effect buf (snd (validate_token token_buf s))) as (_ & _ & Hfs2 & _).
  cbn zeta in *.
  assert (Hfs : flash_status (snd (entered_ids buf (snd (validate_token token_buf s))))
                = flash_status s) by congruence.
  split; [|exact Hfs].
  rewrite attempt_replace_unfold. cbn zeta. rewrite Htok. cbn [Z.eqb SUCCESS_RETURN].
  rewrite replace_component_unfold, Hfs, Hin, Hout. reflexivity.
Qed.

(** X17. A performed replace survives a power cycle: when [init] runs
    on the page the replace wrote, whatever RAM, frames and console then
    hold, it accepts the page and loads the record the replace left in RAM,
    with the new id in the swapped slot. *)
Theorem replace_survives_reboot
    (token_buf buf : string) (s s2 : ap_state World) (i : nat) :
  let s1 := snd (validate_token token_buf s) in
  let id_in := fst (fst (entered_ids buf s1)) in
  let id_out := snd (fst (entered_ids buf s1)) in
  let s' := snd (attempt_replace token_buf buf s) in
  fst (validate_token token_buf s) = SUCCESS_RETURN ->
  roster_slot id_in (flash_status s) = None ->
  roster_slot id_out (flash_status s) = Some i ->
  entry_ok HASH_LEN IV_LEN (flash_status s) -> words_ok (flash_status s) ->
  flash_magic (flash_status s) = FLASH_MAGIC ->
  0 <= id_in < 4294967296 ->
  (24 <= HASH_LEN)%nat ->
  cipher_ok (flash_status s') ->
  flash s2 = flash s' ->
  init s2 = (tt, set_flash_status (flash_status s') s2) /\
  roster_id i (snd (init s2)) = id_in.
Proof.
  cbn zeta. intros Htok Hin Hout Hok Hw Hm Hid H24.
  destruct (attempt_replace_swap token_buf buf s i Htok Hin Hout) as (-> & Hfs).
  cbn [replaced flash_status flash]. rewrite Hfs. intros Hc Hf.
  set (e' := rehash (set_component_id i _ (flash_status s))) in *.
  assert (Hok' : entry_ok HASH_LEN IV_LEN e') by (apply entry_ok_replaced; exact Hok).
  assert (Hinit : init s2 = (tt, set_flash_status e' s2)).
  { rewrite init_unfold.
    destruct (integrity_of_record e' s2) as (-> & ->); try assumption; [| | |reflexivity].
    - destruct Hw as (Hwm & Hwi). split; [exact Hwm|].
      unfold e'. cbn [rehash set_component_id component_ids].
      apply forall_upd; assumption.
    - split; [exact Hm|]. unfold e'.
      etransitivity; [apply rehash_hash|reflexivity].
      cbn [set_component_id component_ids]. rewrite length_upd. apply Hok.
    - rewrite Hf. apply page_written; assumption. }
  split; [exact Hinit|]. rewrite Hinit. cbn [snd set_flash_status].
  unfold roster_id. cbn [flash_status].
  unfold e'. cbn [rehash set_component_id component_ids].
  apply nth_upd_same.
  destruct (slot_from_spec _ _ _ _ _ Hout) as (Hr & _).
  destruct Hok as (Hl & _ & _ & Hc32). lia.
Qed.

End Persist.

(** ** attempt_boot *)

Section BootMore.
Context {P : Platform}.

Lemma boot_components_unfold (ch : list Z) (vr : Z) (s : ap_state World) :
  boot_components ch vr s = for_range (roster_cnt s) 0 (boot_body ch) vr s.
Proof. reflexivity. Qed.

(** What [attempt_boot] does after the two loops. *)
Lemma attempt_boot_tail (comp_challenges : list Z) (s : ap_state World) :
  let v := validate_components comp_challenges s in
  let b := boot_components (snd (fst v)) (fst (fst v)) (snd v) in
  trace (snd (attempt_boot comp_challenges s))
  = trace (snd b) ++
    (if fst b =? SUCCESS_RETURN
     then [ EvPrint Info ("AP>" ++ AP_BOOT_MSG ++ NL); EvPrint Success ("Boot" ++ NL);
            EvResetMsg; EvBoot ]
     else [ EvPrint Error ("Boot Failed" ++ NL) ]).
Proof.
  cbn zeta. unfold attempt_boot, bind.
  destruct (validate_components comp_challenges s) as [[vr ch] s1]. cbn [fst snd].
  destruct (boot_components ch vr s1) as [br s2]. cbn [fst snd].
  unfold call_reset_msg, ret, print, emit, modify.
  destruct (br =? SUCCESS_RETURN); cbn [negb fst snd].
  - destruct (reset_msg _ _) as [[tx rx] w]. cbn [fst snd].
    cbn [log set_world set_receive set_transmit trace].
    rewrite <- !app_assoc. reflexivity.
  - reflexivity.
Qed.

Lemma boot_result_all (ch : list Z) (vr : Z) (s : ap_state World) (n k : nat) :
  (k <= n)%nat -> boot_result_before ch vr s n = SUCCESS_RETURN ->
  boot_result_before ch vr s k = SUCCESS_RETURN.
Proof.
  intros Hk. induction Hk as [|n Hk IH]; [auto|].
  intros H. apply IH. now apply boot_result_sticky.
Qed.

(** X18. [attempt_boot] reaches [boot()] exactly when every provisioned
    component passed both validate rounds and answered with its own id, and
    for every component the [issue_cmd] of the boot command then succeeded
    and the reply started with the 32-bit word 0.  In that case
    every component was sent the boot command with the word 0, and the
    trace ends with the boot message, the Boot marker, [reset_msg] and
    [boot()]; otherwise it ends with the Boot Failed line and [boot()] is
    not reached. *)
Theorem boot_only_when_all_valid (comp_challenges : list Z) (s : ap_state World) :
  let v := validate_components comp_challenges s in
  let ch := snd (fst v) in
  let b := boot_components ch (fst (fst v)) (snd v) in
  let r := attempt_boot comp_challenges s in
  (fst r = true <->
   (forall k, (k < roster_cnt s)%nat ->
      component_valid k (snd (validate_before comp_challenges s k)) = true) /\
   (forall k, (k < roster_cnt s)%nat ->
      let s_k := snd (for_range k 0 (boot_body ch) SUCCESS_RETURN (snd v)) in
      fst (boot_round ch k SUCCESS_RETURN s_k) = SUCCESS_RETURN /\
      boot_reply ch k SUCCESS_RETURN s_k = 0)) /\
  (fst r = true ->
   verdicts (trace (snd b))
     = verdicts (trace (snd v)) ++
       map (fun k => (component_id_to_i2c_addr (roster_id k s), 0)) (seq 0 (roster_cnt s))) /\
  trace (snd r)
  = trace (snd b) ++
    (if fst r
     then [ EvPrint Info ("AP>" ++ AP_BOOT_MSG ++ NL); EvPrint Success ("Boot" ++ NL);
            EvResetMsg; EvBoot ]
     else [ EvPrint Error ("Boot Failed" ++ NL) ]).
Proof.
  cbn zeta.
  destruct (attempt_boot_unfold comp_challenges s) as (Hres & _). cbn zeta in Hres.
  pose proof (attempt_boot_tail comp_challenges s) as Htail. cbn zeta in Htail.
  rewrite Htail, Hres. split; [|split; [|reflexivity]].
  all: rewrite validate_components_unfold in *.
  all: pose proof (validate_before_roster comp_challenges s (roster_cnt s)) as Hfs.
  all: set (v := validate_before comp_challenges s (roster_cnt s)) in *.
  all: rewrite boot_components_unfold in *; rewrite (roster_cnt_eq _ _ Hfs) in *.
  all: destruct (validate_before_result comp_challenges s (roster_cnt s)) as (_ & Hiff).
  all: cbn zeta in Hiff; fold v in Hiff.
  all: assert (Hrun : fst (for_range (roster_cnt s) 0 (boot_body (snd (fst v))) (fst (fst v)) (snd v))
                      = SUCCESS_RETURN ->
                      forall k, (k <= roster_cnt s)%nat ->
            boot_result_before (snd (fst v)) (fst (fst v)) (snd v) k = SUCCESS_RETURN)
         by (intros Hb k Hk; apply (boot_result_all _ _ _ (roster_cnt s)); [exact Hk | exact Hb]).
  - rewrite Z.eqb_eq. split.
    + intros Hb. specialize (Hrun Hb).
      assert (Hvr : fst (fst v) = SUCCESS_RETURN) by (apply (Hrun 0%nat); lia).
      split; [apply Hiff; exact Hvr|].
      intros k Hk. cbn zeta. pose proof (Hrun (S k) ltac:(lia)) as HS.
      rewrite boot_result_before_S, (Hrun k ltac:(lia)) in HS. rewrite Hvr in HS.
      apply boot_body_success in HS. tauto.
    + intros (Hvalid & Hboot). apply Hiff in Hvalid.
      change (boot_result_before (snd (fst v)) (fst (fst v)) (snd v) (roster_cnt s)
              = SUCCESS_RETURN).
      assert (Hall : forall k, (k <= roster_cnt s)%nat ->
                boot_result_before (snd (fst v)) (fst (fst v)) (snd v) k = SUCCESS_RETURN).
      { induction k as [|k IH]; intros Hk; [exact Hvalid|].
        rewrite boot_result_before_S, (IH ltac:(lia)), Hvalid.
        apply boot_body_success. split; [reflexivity|]. apply (Hboot k). lia. }
      apply Hall. lia.
  - intros Hb. apply Z.eqb_eq in Hb. specialize (Hrun Hb).
    destruct (boot_loop_effect (snd (fst v)) (fst (fst v)) (snd v) (roster_cnt s))
      as (_ & Hv & _). cbn zeta in Hv. rewrite Hv. f_equal.
    apply map_ext_in. intros k Hk. apply in_seq in Hk.
    rewrite (roster_id_eq k _ _ Hfs), (Hrun k ltac:(lia)). reflexivity.
Qed.

(** X19. With an empty roster [attempt_boot] makes no bus call and
    prints no error: it goes straight to the boot message and [boot()],
    whatever the bus would answer. *)
Theorem boot_with_empty_roster (comp_challenges : list Z) (s : ap_state World) :
  roster_cnt s = 0%nat ->
  fst (attempt_boot comp_challenges s) = true /\
  trace (snd (attempt_boot comp_challenges s))
  = trace s ++ [ EvPrint Info ("AP>" ++ AP_BOOT_MSG ++ NL); EvPrint Success ("Boot" ++ NL);
                 EvResetMsg; EvBoot ] /\
  flash_status (snd (attempt_boot comp_challenges s)) = flash_status s /\
  flash (snd (attempt_boot comp_challenges s)) = flash s.
Proof.
  intros H0.
  destruct (attempt_boot_unfold comp_challenges s) as (Hres & _). cbn zeta in Hres.
  pose proof (attempt_boot_tail comp_challenges s) as Htail. cbn zeta in Htail.
  destruct (keeps_untouched_attempt_boot comp_challenges s) as (Hf & Hfs & _).
  rewrite Htail, Hres. clear Htail Hres.
  rewrite validate_components_unfold, H0. cbn [validate_before for_range ret fst snd].
  unfold validate_before. cbn [for_range ret fst snd].
  rewrite boot_components_unfold, H0. cbn [for_range ret fst snd Z.eqb SUCCESS_RETURN].
  auto.
Qed.

End BootMore.

(** ** A bus on which no transmit succeeds *)

Section DeadBus.
Context {P : Platform}.
Hypothesis dead : forall addr fr w, fst (fst (ap_transmit addr fr w)) <> SUCCESS_RETURN.

Lemma prints_app (a b : list event) : prints (a ++ b) = prints a ++ prints b.
Proof. unfold prints. apply flat_map_app. Qed.

Lemma issue_cmd_dead (addr : Z) (s : ap_state World) :
  fst (issue_cmd addr s) = ERROR_RETURN /\
  flash_status (snd (issue_cmd addr s)) = flash_status s /\
  trace (snd (issue_cmd addr s)) = trace s ++ [EvTransmit addr (transmit s) (receive s)].
Proof.
  unfold issue_cmd, bind, call_ap_transmit.
  pose proof (dead addr (transmit s, receive s) (world s)) as Hd.
  destruct (ap_transmit addr (transmit s, receive s) (world s)) as [[r [tx rx]] w].
  cbn [fst snd] in *.
  destruct (Z.eqb_spec r SUCCESS_RETURN) as [E|E]; [contradiction|].
  cbn [negb ret fst snd]. repeat split.
Qed.

Lemma for_range_prints {A : Type} (f : nat -> list (print_kind * string))
    (body : nat -> A -> M A) (s0 : ap_state World) :
  (forall j a s, flash_status s = flash_status s0 ->
     flash_status (snd (body j a s)) = flash_status s0 /\
     prints (trace (snd (body j a s))) = prints (trace s) ++ f j) ->
  forall n i a s, flash_status s = flash_status s0 ->
    flash_status (snd (for_range n i body a s)) = flash_status s0 /\
    prints (trace (snd (for_range n i body a s)))
    = prints (trace s) ++ flat_map f (seq i n).
Proof.
  intros Hbody n. induction n as [|n IH]; intros i a s Hs.
  - cbn. rewrite app_nil_r. auto.
  - cbn [for_range seq flat_map]. unfold bind.
    destruct (Hbody i a s Hs) as (H1 & H2).
    destruct (body i a s) as [a1 s1]. cbn [fst snd] in *.
    destruct (IH (S i) a1 s1 H1) as (H3 & H4).
    split; [exact H3|]. rewrite H4, H2, <- app_assoc. reflexivity.
Qed.

Lemma scan_body_dead (a : nat) (s : ap_state World) :
  flash_status (snd (scan_body a tt s)) = flash_status s /\
  prints (trace (snd (scan_body a tt s))) = prints (trace s).
Proof.
  unfold scan_body. destruct (_ || _); [split; reflexivity|].
  unfold bind, set_transmit_opcode, modify.
  match goal with |- context [issue_cmd ?a ?s0] =>
    destruct (issue_cmd_dead a s0) as (Hr & Hfs & Htr);
    destruct (issue_cmd a s0) as [r s1] end.
  cbn [fst snd] in *. subst r. cbn [Z.eqb ERROR_RETURN SUCCESS_RETURN ret snd].
  split; [exact Hfs|]. rewrite Htr, prints_app. cbn. apply app_nil_r.
Qed.

(** X20. On a bus on which no [ap_transmit] succeeds,
    [scan_components] reports no component: it prints the provisioned ids
    and the List marker and no F> line. *)
Theorem dead_bus_scan_reports_nothing (s : ap_state World) :
  prints (trace (snd (scan_components s)))
  = prints (trace s)
    ++ map (fun i => (Info, "P>0x" ++ hex8 (roster_id i s) ++ NL)%string) (seq 0 (roster_cnt s))
    ++ [(Success, ("List" ++ NL)%string)].
Proof.
  unfold scan_components, bind, gets. cbn [fst snd].
  rewrite print_roster_effect. cbn [fst snd].
  match goal with |- context [for_range 112 8 scan_body tt ?s0] =>
    destruct (for_range_prints (fun _ => []) scan_body s0
                (fun j a s1 Hs => match a with tt =>
                   conj (eq_trans (proj1 (scan_body_dead j s1)) Hs)
                        (eq_trans (proj2 (scan_body_dead j s1))
                                  (eq_sym (app_nil_r _))) end)
                112%nat 8%nat tt s0 eq_refl) as (_ & Hp);
    destruct (for_range 112 8 scan_body tt s0) as [u s1] end.
  cbn [fst snd] in *. unfold print, emit, modify, ret, log. cbn [fst snd trace].
  rewrite prints_app, Hp. cbn [trace]. rewrite prints_app.
  replace (flat_map (fun _ : nat => []) (seq 8 112)) with (@nil (print_kind * string)).
  2: { generalize (seq 8 112). intros l. induction l; [reflexivity|exact IHl]. }
  rewrite app_nil_r, <- app_assoc. f_equal. f_equal. clear Hp.
  induction (seq 0 (roster_cnt s)) as [|x l IH]; [reflexivity|].
  cbn [map]. change (prints (?e :: ?t)) with (prints [e] ++ prints t).
  rewrite IH. reflexivity.
Qed.

Lemma handshake_dead (i : nat) (s : ap_state World) :
  fst (handshake i s) = false /\
  flash_status (snd (handshake i s)) = flash_status s /\
  prints (trace (snd (handshake i s))) = prints (trace s).
Proof.
  unfold handshake, set_transmit_opcode, modify. cbn [fst snd].
  match goal with |- context [issue_cmd ?a ?s0] =>
    destruct (issue_cmd_dead a s0) as (Hr & Hfs & Htr);
    destruct (issue_cmd a s0) as [r s1] end.
  cbn [fst snd] in *. subst r. cbn [Z.eqb ERROR_RETURN SUCCESS_RETURN negb fst snd].
  split; [reflexivity|]. split; [exact Hfs|].
  rewrite Htr, prints_app. cbn. apply app_nil_r.
Qed.

Lemma validate_body_dead (i : nat) (loc : Z * list Z) (s : ap_state World) :
  fst (fst (validate_body i loc s)) = ERROR_RETURN /\
  flash_status (snd (validate_body i loc s)) = flash_status s /\
  prints (trace (snd (validate_body i loc s)))
  = prints (trace s) ++ [(Error, "Component ID: 0x" ++ hex8 (roster_id i s) ++ " invalid" ++ NL)%string].
Proof.
  destruct loc as [vr ch]. rewrite validate_body_unfold. cbn zeta.
  destruct (handshake_dead i s) as (Hh & Hfs & Hp). rewrite Hh. cbn [fst snd log flash_status trace].
  split; [reflexivity|]. split; [exact Hfs|].
  rewrite prints_app, Hp. reflexivity.
Qed.

Lemma boot_body_dead (ch : list Z) (i : nat) (b : Z) (s : ap_state World) :
  fst (boot_body ch i b s) = ERROR_RETURN /\
  flash_status (snd (boot_body ch i b s)) = flash_status s /\
  prints (trace (snd (boot_body ch i b s)))
  = prints (trace s) ++ [(Error, "Could not boot component 0x" ++ hex8 (roster_id i s) ++ NL)%string].
Proof.
  unfold boot_body, bind, gets, modify. cbn [fst snd].
  match goal with |- context [issue_cmd ?a ?s0] =>
    destruct (issue_cmd_dead a s0) as (Hr & Hfs & Htr);
    destruct (issue_cmd a s0) as [r s1] end.
  cbn [fst snd] in *. subst r. cbn [Z.eqb ERROR_RETURN SUCCESS_RETURN negb].
  unfold print, emit, modify, ret, log. cbn [fst snd flash_status trace].
  split; [reflexivity|]. split; [exact Hfs|].
  rewrite prints_app, Htr, prints_app. cbn. rewrite app_nil_r. reflexivity.
Qed.

(** X21. On a bus on which no [ap_transmit] succeeds, a board with at
    least one provisioned component never reaches [boot()]: every
    component is reported invalid, then every component is reported as not
    booted, and the command ends with the Boot Failed line. *)
Theorem dead_bus_refuses_boot (comp_challenges : list Z) (s : ap_state World) :
  (0 < roster_cnt s)%nat ->
  fst (attempt_boot comp_challenges s) = false /\
  prints (trace (snd (attempt_boot comp_challenges s)))
  = prints (trace s)
    ++ map (fun i => (Error, "Component ID: 0x" ++ hex8 (roster_id i s) ++ " invalid" ++ NL)%string)
           (seq 0 (roster_cnt s))
    ++ map (fun i => (Error, "Could not boot component 0x" ++ hex8 (roster_id i s) ++ NL)%string)
           (seq 0 (roster_cnt s))
    ++ [(Error, ("Boot Failed" ++ NL)%string)].
Proof.
  intros Hpos.
  destruct (attempt_boot_unfold comp_challenges s) as (Hres & _). cbn zeta in Hres.
  pose proof (attempt_boot_tail comp_challenges s) as Htail. cbn zeta in Htail.
  rewrite Htail, Hres. clear Htail Hres.
  unfold validate_components, bind, gets. cbn [fst snd].
  destruct (for_range_prints
              (fun i => [(Error, "Component ID: 0x" ++ hex8 (roster_id i s) ++ " invalid" ++ NL)%string])
              validate_body s
              (fun j a s1 Hs =>
                 match validate_body_dead j a s1 with
                 | conj _ (conj Hfs Hp) =>
                     conj (eq_trans Hfs Hs)
                          (eq_trans Hp (f_equal (fun x => prints (trace s1) ++ [(Error, "Component ID: 0x" ++ hex8 x ++ " invalid" ++ NL)%string])
                                                (roster_id_eq j s1 s Hs)))
                 end)
              (roster_cnt s) 0%nat (SUCCESS_RETURN, comp_challenges) s eq_refl) as (Hfs1 & Hp1).
  destruct (for_range (roster_cnt s) 0 validate_body (SUCCESS_RETURN, comp_challenges) s)
    as [[vr ch] s1]. cbn [fst snd] in *.
  rewrite boot_components_unfold, (roster_cnt_eq _ _ Hfs1).
  destruct (for_range_prints
              (fun i => [(Error, "Could not boot component 0x" ++ hex8 (roster_id i s) ++ NL)%string])
              (boot_body ch) s
              (fun j a s2 Hs =>
                 match boot_body_dead ch j a s2 with
                 | conj _ (conj Hfs Hp) =>
                     conj (eq_trans Hfs Hs)
                          (eq_trans Hp (f_equal (fun x => prints (trace s2) ++ [(Error, "Could not boot component 0x" ++ hex8 x ++ NL)%string])
                                                (roster_id_eq j s2 s Hs)))
                 end)
              (roster_cnt s) 0%nat vr s1 Hfs1) as (_ & Hp2).
  assert (Hb : fst (for_range (roster_cnt s) 0 (boot_body ch) vr s1) = ERROR_RETURN).
  { destruct (roster_cnt s) as [|n]; [lia|]. rewrite for_range_end.
    apply boot_body_dead. }
  rewrite Hb. cbn [Z.eqb ERROR_RETURN SUCCESS_RETURN]. split; [reflexivity|].
  rewrite prints_app, Hp2, Hp1, <- !app_assoc. f_equal.
Qed.

End DeadBus.

(** ** The command handlers and the command loop *)

Section Commands.
Context {P : Platform}.

Lemma attempt_attest_unfold (AP_PIN pin_buf buf : string) (id : Z) (s : ap_state World) :
  attempt_attest AP_PIN pin_buf buf id s =
  let s1 := snd (validate_pin AP_PIN pin_buf s) in
  if fst (validate_pin AP_PIN pin_buf s) =? 0 then
    let line := fst (recv_input "Component ID: " buf 50 s1) in
    let s2 := snd (recv_input "Component ID: " buf 50 s1) in
    (tt, snd (attest_component (match sscanf_x line with
                                | Some v => v
                                | None => id
                                end) s2))
  else (tt, log (EvLedOn LED3) (log (EvDelay 4000000) (log (EvLedOff LED3) s1))).
Proof.
  unfold attempt_attest. unfold bind at 1.
  destruct (validate_pin AP_PIN pin_buf s) as [r s1]. cbn [fst snd].
  destruct (r =? 0); cbn [negb]; [|reflexivity].
  unfold bind.
  destruct (recv_input "Component ID: " buf 50 s1) as [b1 s2]. cbn [fst snd].
  destruct (attest_component _ s2) as [r2 s3]. reflexivity.
Qed.

(** X22. After a rejected PIN [attempt_attest] asks for no component
    id and makes no bus call: it switches LED3 off, waits 4 seconds,
    switches it on again, and leaves frames, roster and flash as they
    were. *)
Theorem attest_wrong_pin (AP_PIN pin_buf buf : string) (component_id : Z)
    (s : ap_state World) :
  fst (validate_pin AP_PIN pin_buf s) = ERROR_RETURN ->
  let s' := snd (attempt_attest AP_PIN pin_buf buf component_id s) in
  trace s' = trace s ++ prompt "Enter pin: "
             ++ EvPrint Error ("Invalid PIN!" ++ NL) :: penalty /\
  world s' = world (snd (validate_pin AP_PIN pin_buf s)) /\
  untouched s s' /\ off_bus s s'.
Proof.
  intros Hpin. cbn zeta. rewrite attempt_attest_unfold. cbn zeta. rewrite Hpin.
  cbn [Z.eqb ERROR_RETURN snd].
  pose proof (keeps_untouched_validate_pin AP_PIN pin_buf s) as Hu.
  revert Hpin Hu. rewrite validate_pin_unfold. cbn zeta.
  destruct (recv_input_effect "Enter pin: " pin_buf 50 s) as (Ht & Hr & _ & _ & Htr).
  cbn zeta in *.
  destruct (accepts AP_PIN 6 _); [discriminate|]. intros _ Hu. cbn [snd] in *.
  unfold log, set_world in *. cbn [trace transmit receive world flash flash_status] in *.
  split; [|split; [reflexivity|split]].
  - rewrite Htr. unfold prompt, penalty. rewrite <- !app_assoc. reflexivity.
  - eapply untouched_trans; [exact Hu|].
    split; [reflexivity|]. split; [reflexivity|]. cbn [trace].
    exists penalty. unfold penalty. rewrite <- !app_assoc. split; reflexivity.
  - split; [exact Ht|]. split; [exact Hr|]. cbn [trace]. rewrite Htr.
    eexists. rewrite <- !app_assoc. split; reflexivity.
Qed.

(** X23. When the PIN is accepted and the line entered as Component ID
    does not start with a hexadecimal number, [attempt_attest] attests the
    value its uninitialised local [component_id] happens to hold: a
    provisioned value gets the ATTEST command sent to its address, any
    other value gets the error line. *)
Theorem attest_unparsed_id_is_stale (AP_PIN pin_buf buf : string) (component_id : Z)
    (s : ap_state World) :
  let s1 := snd (validate_pin AP_PIN pin_buf s) in
  let line := fst (recv_input "Component ID: " buf 50 s1) in
  let s2 := snd (recv_input "Component ID: " buf 50 s1) in
  let s' := snd (attempt_attest AP_PIN pin_buf buf component_id s) in
  fst (validate_pin AP_PIN pin_buf s) = SUCCESS_RETURN ->
  sscanf_x line = None ->
  s' = snd (attest_component component_id s2) /\
  ((forall i, (i < roster_cnt s)%nat -> roster_id i s <> component_id) ->
   trace s' = trace s2 ++ [EvPrint Error ("Cannot attest non-provisioned component" ++ NL)]) /\
  ((exists i, (i < roster_cnt s)%nat /\ roster_id i s = component_id) ->
   exists tx rx rest,
     trace s' = trace s2 ++ EvTransmit (component_id_to_i2c_addr component_id) tx rx :: rest /\
     opcode tx = cmd_code COMPONENT_CMD_ATTEST).
Proof.
  cbn zeta. intros Hpin Hscan.
  rewrite attempt_attest_unfold. cbn zeta. rewrite Hpin, Hscan. cbn [Z.eqb SUCCESS_RETURN snd].
  destruct (keeps_untouched_validate_pin AP_PIN pin_buf s) as (_ & Hfs1 & _).
  destruct (recv_input_effect "Component ID: " buf 50 (snd (validate_pin AP_PIN pin_buf s)))
    as (_ & _ & Hfs2 & _). cbn zeta in Hfs2.
  set (s2 := snd (recv_input "Component ID: " buf 50 (snd (validate_pin AP_PIN pin_buf s)))) in *.
  assert (Hfs : flash_status s2 = flash_status s) by congruence.
  split; [reflexivity|]. split.
  - intros Habs. rewrite attest_component_unfold, roster_slot_absent; [reflexivity|].
    intros i Hi. rewrite (roster_id_eq i s2 s Hfs). apply Habs.
    now rewrite <- (roster_cnt_eq s2 s Hfs).
  - intros (i & Hi & Hid). rewrite attest_component_unfold.
    destruct (roster_slot component_id (flash_status s2)) eqn:Hslot.
    2: { exfalso. revert Hslot. apply roster_slot_found. exists i.
         rewrite (roster_cnt_eq s2 s Hfs), (roster_id_eq i s2 s Hfs). auto. }
    cbn zeta.
    destruct (attest_rounds_effect component_id s2) as (tx & rx & rest & Htr & Hop & _).
    destruct (fst (attest_rounds component_id s2)); cbn [snd trace log]; rewrite Htr.
    + eexists tx, rx, _. rewrite <- app_assoc. split; [reflexivity | exact Hop].
    + eexists tx, rx, _. rewrite <- app_assoc. split; [reflexivity | exact Hop].
Qed.

Lemma dispatch_untouched (AP_PIN : string) (g : stack) (buf : string) (s : ap_state World) :
  buf <> "replace"%string \/ fst (validate_token (st_token_buf g) s) <> SUCCESS_RETURN ->
  untouched s (snd (dispatch AP_PIN g buf s)).
Proof.
  intros H. unfold dispatch.
  destruct (String.eqb buf "list").
  { unfold bind. pose proof (keeps_untouched_scan s) as Hu.
    destruct (scan_components s). exact Hu. }
  destruct (String.eqb buf "boot"); [apply keeps_untouched_attempt_boot|].
  destruct (String.eqb_spec buf "replace") as [E|E].
  { destruct H as [H|H]; [contradiction|].
    unfold bind.
    destruct (attempt_replace_cases (st_token_buf g) (st_buf g) s)
      as [(_ & Hu)|(i & a & b & Htok & _)]; [|contradiction].
    destruct (attempt_replace _ _ s). exact Hu. }
  destruct (String.eqb buf "attest").
  { unfold bind.
    pose proof (keeps_untouched_attempt_attest AP_PIN (st_pin_buf g) (st_buf g)
                  (st_component_id g) s) as Hu.
    destruct (attempt_attest _ _ _ _ s). exact Hu. }
  unfold bind, print, emit, modify, ret. cbn [fst snd]. apply untouched_log. reflexivity.
Qed.

Lemma last_app_default {A : Type} (l1 l2 : list A) (d : A) :
  last (l1 ++ l2) d = last l2 (last l1 d).
Proof.
  revert d. induction l1 as [|x l1 IH]; intros d; [reflexivity|].
  destruct l1 as [|y l1].
  - cbn [app last]. destruct l2 as [|z l2]; [reflexivity|].
    clear IH. revert z. induction l2 as [|w l2 IH2]; intros z; [reflexivity|].
    cbn [last] in *. apply IH2.
  - change (last ((x :: y :: l1) ++ l2) d) with (last ((y :: l1) ++ l2) d).
    change (last (x :: y :: l1) d) with (last (y :: l1) d). apply IH.
Qed.

Lemma flash_log_untouched (s s' : ap_state World) : untouched s s' -> flash_log [] s s'.
Proof. intros (_ & Hfs & d & Htr & Hops). exists d. auto. Qed.

Lemma flash_log_trans (es1 es2 : list flash_entry) (s1 s2 s3 : ap_state World) :
  flash_log es1 s1 s2 -> flash_log es2 s2 s3 -> flash_log (es1 ++ es2) s1 s3.
Proof.
  intros (d1 & Ht1 & Ho1 & Hf1) (d2 & Ht2 & Ho2 & Hf2). exists (d1 ++ d2).
  split; [now rewrite Ht2, Ht1, app_assoc|].
  split; [now rewrite flash_ops_app, Ho1, Ho2, flat_map_app|].
  now rewrite last_app_default, Hf2, Hf1.
Qed.

(** The flash log of one replace command. *)
Lemma attempt_replace_flash_log (token_buf buf : string) (s : ap_state World) :
  exists es, (length es <= 1)%nat /\
             flash_log es s (snd (attempt_replace token_buf buf s)) /\
             (well_sealed (flash_status s) -> Forall well_sealed es).
Proof.
  destruct (attempt_replace_cases token_buf buf s)
    as [(_ & Hu)|(i & a & b & Htok & Hids & Hin & Hout & He)]; cbn zeta in *.
  - exists []. split; [cbn; lia|]. split; [now apply flash_log_untouched | constructor].
  - assert (Ha : a = fst (fst (entered_ids buf (snd (validate_token token_buf s)))))
      by (now rewrite <- Hids).
    assert (Hb : b = snd (fst (entered_ids buf (snd (validate_token token_buf s)))))
      by (now rewrite <- Hids).
    subst a b.
    destruct (attempt_replace_swap token_buf buf s i Htok Hin Hout) as (Hs & Hfs).
    exists [flash_status (snd (attempt_replace token_buf buf s))].
    split; [cbn; lia|]. split.
    2: { intros ((Hm & _) & Hl). constructor; [|constructor]. rewrite He.
         assert (Hl' : length (component_ids (set_component_id i
                   (fst (fst (entered_ids buf (snd (validate_token token_buf s)))))
                   (flash_status s))) = 32%nat)
           by (cbn [set_component_id component_ids]; now rewrite length_upd).
         split; [split; [exact Hm|]|exact Hl'].
         etransitivity; [apply rehash_hash; exact Hl' | reflexivity]. }
    destruct (keeps_untouched_validate_token token_buf s) as (_ & _ & d1 & Ht1 & Ho1).
    destruct (entered_ids_effect buf (snd (validate_token token_buf s)))
      as (_ & _ & _ & _ & Ht2 & _). cbn zeta in Ht2.
    rewrite Hs. cbn [replaced flash_status trace]. rewrite Hfs.
    unfold flash_log, replaced. cbn [trace flash_status]. rewrite Hfs.
    eexists. split; [rewrite Ht2, Ht1, <- !app_assoc; reflexivity|].
    split; [|reflexivity].
    rewrite !flash_ops_app, Ho1. reflexivity.
Qed.

Lemma dispatch_flash_log (AP_PIN : string) (g : stack) (buf : string) (s : ap_state World) :
  exists es, (length es <= 1)%nat /\ flash_log es s (snd (dispatch AP_PIN g buf s)) /\
             (well_sealed (flash_status s) -> Forall well_sealed es).
Proof.
  destruct (String.eqb buf "replace") eqn:E.
  - apply String.eqb_eq in E. subst buf. unfold dispatch.
    cbn [String.eqb Ascii.eqb Bool.eqb andb]. unfold bind.
    destruct (attempt_replace_flash_log (st_token_buf g) (st_buf g) s) as (es & Hl & Hlog & Hs).
    exists es. split; [exact Hl|]. split; [|exact Hs].
    destruct (attempt_replace _ _ s). exact Hlog.
  - exists []. split; [cbn; lia|]. split; [|constructor]. apply flash_log_untouched.
    apply dispatch_untouched. left. apply String.eqb_neq. exact E.
Qed.

Lemma last_forall {A : Type} (Q : A -> Prop) (l : list A) (d : A) :
  Q d -> Forall Q l -> Q (last l d).
Proof.
  intros Hd H. induction H as [|x l Hx H IH]; [exact Hd|].
  destruct l; [exact Hx | exact IH].
Qed.

(** The flash log of the command loop: at most one record per command. *)
Lemma command_loop_flash_log (AP_PIN : string) (gs : list stack) (buf : string)
    (s : ap_state World) :
  exists es, (length es <= length gs)%nat /\
             flash_log es s (snd (command_loop AP_PIN gs buf s)) /\
             (well_sealed (flash_status s) -> Forall well_sealed es).
Proof.
  revert buf s. induction gs as [|g gs IH]; intros buf s.
  { exists []. split; [cbn; lia|]. split; [|constructor].
    apply flash_log_untouched, untouched_refl. }
  cbn [command_loop]. unfold bind.
  pose proof (keeps_untouched_reset s) as H1.
  destruct (call_reset_msg s) as [u s1]. cbn [snd] in H1.
  pose proof (keeps_untouched_recv_input "Enter Command: " buf 100 s1) as H2.
  destruct (recv_input "Enter Command: " buf 100 s1) as [cmd s2]. cbn [snd] in H2.
  destruct (dispatch_flash_log AP_PIN g cmd s2) as (es1 & Hl1 & Hlog1 & Hs1).
  assert (Hfs : flash_status s2 = flash_status s).
  { destruct H1 as (_ & E1 & _). destruct H2 as (_ & E2 & _). congruence. }
  assert (Hpre : flash_log [] s s2).
  { apply flash_log_untouched. eapply untouched_trans; eassumption. }
  destruct (dispatch AP_PIN g cmd s2) as [booted s3]. cbn [snd] in *.
  destruct booted.
  - exists es1. split; [cbn; lia|]. split; [|rewrite <- Hfs; exact Hs1].
    apply (flash_log_trans [] es1 s s2 s3 Hpre Hlog1).
  - destruct (IH cmd s3) as (es2 & Hl2 & Hlog2 & Hs2).
    exists (es1 ++ es2). split; [rewrite length_app; cbn; lia|]. split.
    + apply (flash_log_trans [] (es1 ++ es2) s s2 _ Hpre).
      apply (flash_log_trans es1 es2 s2 s3 _ Hlog1 Hlog2).
    + intros Hw. rewrite <- Hfs in Hw. apply Forall_app. split; [auto|].
      apply Hs2. destruct Hlog1 as (_ & _ & _ & ->). apply last_forall; auto.
Qed.

(** X24. One command of the loop of [main] leaves the flash page and
    the RAM copy of the roster as they were, and makes no flash operation,
    unless the command is replace and the token entered is accepted:
    listing, booting, attesting, an unknown command and a replace with a
    wrong token never write.  Whatever the command, it makes at most one
    erase and write, of the image of the record it leaves in RAM. *)
Theorem flash_written_only_by_replace (AP_PIN : string) (g : stack) (buf : string)
    (s : ap_state World) :
  let s' := snd (dispatch AP_PIN g buf s) in
  (buf <> "replace"%string \/ fst (validate_token (st_token_buf g) s) <> SUCCESS_RETURN ->
   untouched s s') /\
  (flash_ops (trace s') = flash_ops (trace s) /\ flash_status s' = flash_status s \/
   flash_ops (trace s') = flash_ops (trace s) ++ erase_write (flash_status s')).
Proof.
  cbn zeta. split; [apply dispatch_untouched|].
  destruct (dispatch_flash_log AP_PIN g buf s) as (es & Hl & (d & Htr & Hops & Hfs) & _).
  rewrite Htr, flash_ops_app, Hops, Hfs.
  destruct es as [|e [|e2 es]]; cbn in Hl; [| |lia].
  - left. cbn. rewrite app_nil_r. auto.
  - right. cbn [flat_map last]. rewrite app_nil_r. reflexivity.
Qed.

Lemma main_unfold (AP_PIN : string) (gs : list stack) (buf : string) (s : ap_state World) :
  main AP_PIN gs buf s
  = command_loop AP_PIN gs buf
      (log (EvLedOn LED3)
         (log (EvLedOn LED1)
            (log (EvPrint Info ("Application Processor Started" ++ NL)) (snd (init s))))).
Proof. unfold main, bind. destruct (init s) as [u s0]. reflexivity. Qed.

(** X25. The flash log of [main], up to the first entry into [boot()]
    and whatever the operator enters: the
    flash operations of the run are an erase and a write of a record image
    for [init], when its checks fail, and for each performed replace, at
    most one per command; the RAM copy of the roster is at every end the
    record of the last write, or the record [init] loaded when nothing was
    written; and every record written, like the RAM copy at the end, carries
    the magic and the hash of its own header and ids. *)
Theorem main_flash_discipline (AP_PIN : string) (gs : list stack) (buf : string)
    (s : ap_state World) :
  (sizeof_flash_entry <= length (flash s))%nat -> (24 <= HASH_LEN)%nat ->
  0 <= COMPONENT_CNT <= 32 ->
  let s' := snd (main AP_PIN gs buf s) in
  exists es,
    (length es <= S (length gs))%nat /\
    flash_ops (trace s') = flash_ops (trace s) ++ flat_map erase_write es /\
    flash_status s' = last es (loaded_entry s) /\
    Forall well_sealed es /\
    well_sealed (flash_status s').
Proof.
  intros Hlen H24 Hcnt. cbn zeta. rewrite main_unfold.
  pose proof (init_unfold s) as Hinit.
  destruct (loaded_entry_iv s Hlen H24) as (_ & _ & Hids).
  assert (H0 : exists es0, (length es0 <= 1)%nat /\
             flash_ops (trace (snd (init s))) = flash_ops (trace s) ++ flat_map erase_write es0 /\
             flash_status (snd (init s)) = last es0 (loaded_entry s) /\
             Forall well_sealed es0 /\ well_sealed (flash_status (snd (init s)))).
  { rewrite Hinit. destruct (integrity_ok s) eqn:Hi; cbn [snd].
    - exists []. cbn [set_flash_status trace flash_status flat_map last length].
      rewrite app_nil_r. split; [lia|]. split; [reflexivity|]. split; [reflexivity|].
      split; [constructor|]. split; [now apply integrity_sealed | exact Hids].
    - assert (Hw : well_sealed (reset_entry s)).
      { split; [now apply reset_sealed|]. unfold reset_entry. cbn [component_ids rehash].
        rewrite length_app, length_firstn, length_skipn, length_app, repeat_length, Hids. lia. }
      exists [reset_entry s]. cbn [reset_state trace flash_status flat_map last length].
      split; [lia|]. split; [|split; [reflexivity|split; [constructor; [exact Hw|constructor]|exact Hw]]].
      rewrite !flash_ops_app, app_nil_r. reflexivity. }
  destruct H0 as (es0 & Hl0 & Ho0 & Hf0 & Hs0 & Hw0).
  set (s0 := snd (init s)) in *.
  match goal with |- context [command_loop AP_PIN gs buf ?st] => set (s1 := st) end.
  assert (Ht1 : trace s1 = trace s0 ++ [ EvPrint Info ("Application Processor Started" ++ NL);
                                         EvLedOn LED1; EvLedOn LED3 ])
    by (unfold s1, log; cbn [trace]; now rewrite <- !app_assoc).
  assert (Hf1 : flash_status s1 = flash_status s0) by reflexivity.
  destruct (command_loop_flash_log AP_PIN gs buf s1)
    as (es & Hl & (d & Htr & Hops & Hfs) & Hs).
  rewrite Hf1 in *.
  exists (es0 ++ es). split; [rewrite length_app; lia|].
  split; [|split; [|split]].
  - rewrite Htr, Ht1, !flash_ops_app, Hops, Ho0, flat_map_app, <- !app_assoc. reflexivity.
  - rewrite Hfs, Hf0, last_app_default. reflexivity.
  - apply Forall_app. auto.
  - rewrite Hfs. apply last_forall; auto.
Qed.

(** X26. One iteration of the loop of [main].  The command it
    dispatches is the line [fgets] returned without its last character, or,
    when [fgets] returns NULL, whatever the command buffer still holds from
    the iteration before, so that the previous command runs again.  A
    command that is none of list, boot, replace and attest only gets the
    error line, and the loop goes on. *)
Theorem command_loop_step (AP_PIN : string) (g : stack) (gs : list stack) (buf : string)
    (s : ap_state World) :
  let s0 := snd (call_reset_msg s) in
  let s1 := snd (recv_input "Enter Command: " buf 100 s0) in
  let cmd := match fst (fgets 100 (world s0)) with
             | Some line => chop_last line
             | None => buf
             end in
  command_loop AP_PIN (g :: gs) buf s
  = (if fst (dispatch AP_PIN g cmd s1)
     then (true, snd (dispatch AP_PIN g cmd s1))
     else command_loop AP_PIN gs cmd (snd (dispatch AP_PIN g cmd s1))) /\
  trace s1 = trace s ++ EvResetMsg :: prompt "Enter Command: " /\
  (cmd <> "list"%string -> cmd <> "boot"%string ->
   cmd <> "replace"%string -> cmd <> "attest"%string ->
   dispatch AP_PIN g cmd s1
   = (false, log (EvPrint Error ("Unrecognized command '" ++ cmd ++ "'" ++ NL)) s1)).
Proof.
  cbn zeta.
  destruct (recv_input_line "Enter Command: " buf 100 (snd (call_reset_msg s))) as (Hline & _).
  destruct (recv_input_effect "Enter Command: " buf 100 (snd (call_reset_msg s)))
    as (_ & _ & _ & _ & Htr). cbn zeta in Htr.
  rewrite <- Hline. split; [|split].
  - cbn [command_loop]. unfold bind.
    destruct (call_reset_msg s) as [u s0]. cbn [snd].
    destruct (recv_input "Enter Command: " buf 100 s0) as [cmd s1]. cbn [fst snd].
    destruct (dispatch AP_PIN g cmd s1) as [[|] s2]; reflexivity.
  - rewrite Htr. unfold call_reset_msg. destruct (reset_msg _ _) as [[tx rx] w].
    cbn [snd log set_world set_receive set_transmit trace]. unfold prompt.
    rewrite <- app_assoc. reflexivity.
  - intros H1 H2 H3 H4. unfold dispatch.
    apply String.eqb_neq in H1, H2, H3, H4. rewrite H1, H2, H3, H4. reflexivity.
Qed.

End Commands.

(** ** print_hex *)

Section PrintHex.

Lemma hex_digit_code (d : Z) :
  0 <= d < 16 ->
  nat_of_ascii (hex_digit d) = Z.to_nat (if d <? 10 then 48 + d else 87 + d).
Proof.
  intros H. unfold hex_digit. apply nat_ascii_embedding.
  destruct (d <? 10); lia.
Qed.

Lemma hex_digit_injective (a b : Z) :
  0 <= a < 16 -> 0 <= b < 16 -> hex_digit a = hex_digit b -> a = b.
Proof.
  intros Ha Hb H. apply (f_equal nat_of_ascii) in H.
  rewrite !hex_digit_code in H by assumption.
  destruct (Z.ltb_spec a 10), (Z.ltb_spec b 10); lia.
Qed.

Lemma hex2_injective (a b : Z) : hex2 a = hex2 b -> a mod 256 = b mod 256.
Proof.
  unfold hex2. cbn zeta. intros H. injection H as H1 H2.
  pose proof (Z.mod_pos_bound a 256 ltac:(lia)) as Ha.
  pose proof (Z.mod_pos_bound b 256 ltac:(lia)) as Hb.
  apply hex_digit_injective in H1;
    [|split; [apply Z.div_pos; lia | apply Z.div_lt_upper_bound; lia]
     |split; [apply Z.div_pos; lia | apply Z.div_lt_upper_bound; lia]].
  apply hex_digit_injective in H2; [|apply Z.mod_pos_bound; lia|apply Z.mod_pos_bound; lia].
  rewrite (Z.div_mod (a mod 256) 16), (Z.div_mod (b mod 256) 16) by lia.
  now rewrite H1, H2.
Qed.

Lemma print_hex_from_S (buf : list Z) (i len : nat) :
  print_hex_from buf i (S len)
  = String (hex_digit ((nth i buf 0 mod 256) / 16))
      (String (hex_digit ((nth i buf 0 mod 256) mod 16)) (print_hex_from buf (S i) len)).
Proof. reflexivity. Qed.

Lemma print_hex_from_spec (buf buf' : list Z) (len i : nat) :
  String.length (print_hex_from buf i len) = (2 * len + 1)%nat /\
  (print_hex_from buf i len = print_hex_from buf' i len <->
   forall k, (k < len)%nat -> nth (i + k) buf 0 mod 256 = nth (i + k) buf' 0 mod 256).
Proof.
  revert i. induction len as [|len IH]; intros i.
  - split; [reflexivity|]. split; [intros _ k Hk; lia | reflexivity].
  - destruct (IH (S i)) as (Hlen & Hiff). rewrite !print_hex_from_S. split.
    + cbn [String.length]. rewrite Hlen. lia.
    + split.
      * intros H. injection H as H1 H2 H3.
        assert (H0 : nth i buf 0 mod 256 = nth i buf' 0 mod 256).
        { apply hex2_injective. unfold hex2. cbn zeta. now rewrite H1, H2. }
        intros [|k] Hk; [now rewrite Nat.add_0_r|].
        rewrite Nat.add_succ_r. apply (proj1 Hiff H3). lia.
      * intros H. rewrite <- (Nat.add_0_r i) at 1 2 3 4.
        rewrite (H 0%nat) by lia. rewrite Nat.add_0_r. do 2 f_equal.
        apply Hiff. intros k Hk. specialize (H (S k)). rewrite Nat.add_succ_r in H.
        apply H. lia.
Qed.

(** X27. [print_hex] writes two characters per byte and the newline,
    reads only the first [len] bytes, and loses nothing: two buffers give
    the same output exactly when their first [len] bytes agree. *)
Theorem print_hex_faithful (buf buf' : list Z) (len : nat) :
  String.length (print_hex buf len) = (2 * len + 1)%nat /\
  (print_hex buf len = print_hex buf' len <->
   forall k, (k < len)%nat -> nth k buf 0 mod 256 = nth k buf' 0 mod 256).
Proof. unfold print_hex. apply (print_hex_from_spec buf buf' len 0). Qed.

End PrintHex.

(** ** Concrete runs of the properties above *)

(** Boolean checks for the byte and word conditions of a record. *)
Lemma is_byte_check (l : list Z) :
  forallb (fun b => (0 <=? b) && (b <? 256)) l = true -> Forall is_byte l.
Proof.
  intros H. apply Forall_forall. intros x Hx.
  apply (proj1 (forallb_forall _ _) H) in Hx.
  apply andb_true_iff in Hx. unfold is_byte. lia.
Qed.

Lemma words_check (l : list Z) :
  forallb (fun v => (0 <=? v) && (v <? 4294967296)) l = true ->
  Forall (fun v => 0 <= v < 4294967296) l.
Proof.
  intros H. apply Forall_forall. intros x Hx.
  apply (proj1 (forallb_forall _ _) H) in Hx.
  apply andb_true_iff in Hx. lia.
Qed.

(** The component transmits fine but never answers the poll. *)
Lemma secure_send_handshake_failure_witness :
  let s := Mock.mk Mock.roster2 (Mock.mkWorld [] [] [] 0) in
  fst (@send_second Mock.platform 36 s) <> SUCCESS_RETURN /\
  fst (@secure_send Mock.platform 36 [1; 2; 3] 3 s) = ERROR_RETURN.
Proof.
  intros s.
  assert (H : fst (@send_second Mock.platform 36 s) <> SUCCESS_RETURN)
    by (vm_compute; discriminate).
  split; [exact H|].
  exact (proj1 (@secure_send_handshake_failure Mock.platform 36 [1; 2; 3] 3 s (or_intror H))).
Defined.

(** The handshake succeeds and three bytes are sent. *)
Lemma secure_send_frames_payload_witness :
  let s := Mock.mk Mock.roster2 (Mock.mkWorld [] [(0, Mock.frame 7 [])] [] 0) in
  fst (@send_first Mock.platform 36 s) = SUCCESS_RETURN /\
  fst (@send_second Mock.platform 36 s) = SUCCESS_RETURN /\
  (Z.to_nat (3 mod 256) <= length [10; 20; 30])%nat /\
  (1 + Z.to_nat (3 mod 256)
   <= length (contents (transmit (snd (@send_second Mock.platform 36 s)))))%nat /\
  exists tx,
    transmits (trace (snd (@secure_send Mock.platform 36 [10; 20; 30] 3 s)))
    = transmits (trace (snd (@send_second Mock.platform 36 s)))
      ++ [(36, tx, receive (snd (@send_second Mock.platform 36 s)))] /\
    nth 0%nat (contents tx) 0 = 3 /\
    length (contents tx) = 200%nat.
Proof.
  intros s.
  assert (H1 : fst (@send_first Mock.platform 36 s) = SUCCESS_RETURN) by reflexivity.
  assert (H2 : fst (@send_second Mock.platform 36 s) = SUCCESS_RETURN) by reflexivity.
  assert (H3 : (Z.to_nat (3 mod 256) <= length [10; 20; 30])%nat) by (vm_compute; lia).
  assert (H4 : (1 + Z.to_nat (3 mod 256)
                <= length (contents (transmit (snd (@send_second Mock.platform 36 s)))))%nat)
    by (vm_compute; lia).
  split; [exact H1|]. split; [exact H2|]. split; [exact H3|]. split; [exact H4|].
  destruct (@secure_send_frames_payload Mock.platform 36 [10; 20; 30] 3 s H1 H2 H3 H4)
    as (tx & Htr & _ & _ & Hsize & H0 & _).
  exists tx. split; [|split; [exact H0|]].
  - rewrite Htr, transmits_app. reflexivity.
  - rewrite Hsize. vm_compute. reflexivity.
Defined.

(** A frame of 200 bytes received into a buffer of 64. *)
Lemma secure_receive_result_range_witness :
  let s := Mock.mk Mock.roster2
             (Mock.mkWorld [] [(0, Mock.frame 5 []); (0, Mock.frame 6 [3; 10; 20; 30])] [] 0) in
  (64 < length (@received Mock.platform 36 s))%nat /\
  (64 <= length (repeat 9 64%nat))%nat /\
  length (snd (fst (@secure_receive Mock.platform 36 (repeat 9 64%nat) s))) = 64%nat.
Proof.
  intros s.
  assert (H1 : (64 < length (@received Mock.platform 36 s))%nat) by (vm_compute; lia).
  assert (H2 : (64 <= length (repeat 9 64%nat))%nat) by (vm_compute; lia).
  split; [exact H1|]. split; [exact H2|].
  destruct (@secure_receive_result_range Mock.platform 36 (repeat 9 64%nat) s) as (_ & H).
  destruct (H H1 H2) as (Hlen & _). rewrite Hlen. reflexivity.
Defined.

(** The two ids of the roster read into a buffer of four words. *)
Lemma get_provisioned_ids_copies_roster_witness :
  let s := Mock.mk Mock.roster2 (Mock.mkWorld [] [] [] 0) in
  (@roster_cnt Mock.platform s <= length (component_ids (flash_status s)))%nat /\
  (@roster_cnt Mock.platform s <= length [9; 9; 9; 9])%nat /\
  fst (@get_provisioned_ids Mock.platform [9; 9; 9; 9] s) = (2, [0x11111124; 0x11111125; 9; 9]).
Proof.
  intros s.
  assert (H1 : (@roster_cnt Mock.platform s <= length (component_ids (flash_status s)))%nat)
    by (vm_compute; lia).
  assert (H2 : (@roster_cnt Mock.platform s <= length [9; 9; 9; 9])%nat) by (vm_compute; lia).
  split; [exact H1|]. split; [exact H2|].
  destruct (@get_provisioned_ids_copies_roster Mock.platform [9; 9; 9; 9] s H1 H2)
    as (_ & Hcnt & _ & Hids & Hrest & _).
  rewrite (surjective_pairing (fst (@get_provisioned_ids Mock.platform [9; 9; 9; 9] s))).
  rewrite Hcnt.
  rewrite <- (firstn_skipn (@roster_cnt Mock.platform s)
                (snd (fst (@get_provisioned_ids Mock.platform [9; 9; 9; 9] s)))).
  rewrite Hids, Hrest. reflexivity.
Defined.

(** 0x999 is not provisioned. *)
Lemma attest_unprovisioned_stays_off_bus_witness :
  let s := Mock.mk Mock.roster2 (Mock.mkWorld [] Mock.attest_script [] 0) in
  (forall i, (i < @roster_cnt Mock.platform s)%nat -> @roster_id Mock.platform i s <> 0x999) /\
  fst (@attest_component Mock.platform 0x999 s) = ERROR_RETURN /\
  bus_calls (trace (snd (@attest_component Mock.platform 0x999 s))) = [].
Proof.
  intros s.
  assert (H : forall i, (i < @roster_cnt Mock.platform s)%nat ->
                        @roster_id Mock.platform i s <> 0x999).
  { intros i Hi. change (@roster_cnt Mock.platform s) with 2%nat in Hi.
    destruct i as [|[|i]]; [vm_compute; discriminate | vm_compute; discriminate | lia]. }
  split; [exact H|].
  destruct (@attest_unprovisioned_stays_off_bus Mock.platform 0x999 s H) as (Hr & _).
  rewrite Hr. split; reflexivity.
Defined.

(** The first component of the roster answers both rounds. *)
Lemma attest_provisioned_witness :
  let s := Mock.mk Mock.roster2 (Mock.mkWorld [] Mock.attest_script [] 0) in
  (exists i, (i < @roster_cnt Mock.platform s)%nat /\
             @roster_id Mock.platform i s = 0x11111124) /\
  fst (@attest_component Mock.platform 0x11111124 s) = SUCCESS_RETURN.
Proof.
  intros s.
  assert (H : exists i, (i < @roster_cnt Mock.platform s)%nat /\
                        @roster_id Mock.platform i s = 0x11111124).
  { exists 0%nat. split; [vm_compute; lia | reflexivity]. }
  split; [exact H|].
  destruct (@attest_provisioned Mock.platform 0x11111124 s H) as (Hiff & _).
  apply Hiff. reflexivity.
Defined.

(** The operator enters a wrong token. *)
Lemma replace_wrong_token_witness :
  let s := Mock.mk Mock.roster2 (Mock.typed ["letmein"%string; "deadbeef"%string; "11111124"%string]) in
  let s' := snd (@attempt_replace Mock.platform EmptyString EmptyString s) in
  fst (@validate_token Mock.platform EmptyString s) = ERROR_RETURN /\
  flash_status s' = flash_status s /\ flash s' = flash s /\
  Mock.stdin (world s') = [Mock.entered "deadbeef"; Mock.entered "11111124"].
Proof.
  intros s s'.
  assert (H : fst (@validate_token Mock.platform EmptyString s) = ERROR_RETURN) by reflexivity.
  split; [exact H|].
  destruct (@replace_wrong_token Mock.platform EmptyString EmptyString s H)
    as (_ & Hw & (Hf & Hfs & _) & _).
  split; [exact Hfs|]. split; [exact Hf|].
  unfold s'. rewrite Hw. reflexivity.
Defined.

(** The operator names two ids of which none is provisioned. *)
Lemma replace_unknown_component_witness :
  let s := Mock.mk Mock.roster2 (Mock.console "deadbeef" "22222222") in
  let s' := snd (@attempt_replace Mock.platform EmptyString EmptyString s) in
  fst (@validate_token Mock.platform EmptyString s) = SUCCESS_RETURN /\
  (forall i, (i < @roster_cnt Mock.platform s)%nat ->
             @roster_id Mock.platform i s <> 0xdeadbeef) /\
  (forall i, (i < @roster_cnt Mock.platform s)%nat ->
             @roster_id Mock.platform i s <> 0x22222222) /\
  flash_status s' = flash_status s /\ flash s' = flash s.
Proof.
  intros s s'.
  assert (Htok : fst (@validate_token Mock.platform EmptyString s) = SUCCESS_RETURN)
    by reflexivity.
  assert (Hin : forall i, (i < @roster_cnt Mock.platform s)%nat ->
                          @roster_id Mock.platform i s <> 0xdeadbeef).
  { intros i Hi. change (@roster_cnt Mock.platform s) with 2%nat in Hi.
    destruct i as [|[|i]]; [vm_compute; discriminate | vm_compute; discriminate | lia]. }
  assert (Hout : forall i, (i < @roster_cnt Mock.platform s)%nat ->
                           @roster_id Mock.platform i s <> 0x22222222).
  { intros i Hi. change (@roster_cnt Mock.platform s) with 2%nat in Hi.
    destruct i as [|[|i]]; [vm_compute; discriminate | vm_compute; discriminate | lia]. }
  split; [exact Htok|]. split; [exact Hin|]. split; [exact Hout|].
  destruct (@replace_unknown_component Mock.platform EmptyString EmptyString s Htok Hin Hout)
    as (_ & (Hf & Hfs & _)).
  split; [exact Hfs | exact Hf].
Defined.

(** A well-formed record stays well-formed through a swap. *)
Lemma replace_keeps_record_shape_witness :
  let s := Mock.mk Mock.roster2 (Mock.console "deadbeef" "11111124") in
  let s' := snd (@attempt_replace Mock.platform EmptyString EmptyString s) in
  entry_ok (@HASH_LEN Mock.platform) (@IV_LEN Mock.platform) (flash_status s) /\
  entry_ok (@HASH_LEN Mock.platform) (@IV_LEN Mock.platform) (flash_status s') /\
  component_cnt (flash_status s') = 2.
Proof.
  intros s s'.
  destruct (@replace_keeps_record_shape Mock.platform EmptyString EmptyString s)
    as (_ & Hcnt & _ & _ & _ & Hok).
  split; [exact mock_roster2_ok|]. split; [exact (Hok mock_roster2_ok) | exact Hcnt].
Defined.

(** The two ids of the roster differ, and still do after the swap. *)
Lemma replace_keeps_ids_distinct_witness :
  let s := Mock.mk Mock.roster2 (Mock.console "deadbeef" "11111124") in
  let s' := snd (@attempt_replace Mock.platform EmptyString EmptyString s) in
  NoDup (provisioned_ids (flash_status s)) /\
  NoDup (provisioned_ids (flash_status s')).
Proof.
  intros s s'.
  assert (H : NoDup (provisioned_ids (flash_status s))).
  { change (NoDup [0x11111124; 0x11111125]).
    apply NoDup_cons; [intros [E|[]]; discriminate E|].
    apply NoDup_cons; [intros []|apply NoDup_nil]. }
  split; [exact H|].
  exact (@replace_keeps_ids_distinct Mock.platform EmptyString EmptyString s H).
Defined.

(** After the swap the new id sits in slot 0 and the old id is gone. *)
Lemma replace_swaps_membership_witness :
  let s := Mock.mk Mock.roster2 (Mock.console "deadbeef" "11111124") in
  let s' := snd (@attempt_replace Mock.platform EmptyString EmptyString s) in
  fst (@validate_token Mock.platform EmptyString s) = SUCCESS_RETURN /\
  roster_slot 0xdeadbeef (flash_status s) = None /\
  roster_slot 0x11111124 (flash_status s) = Some 0%nat /\
  (@roster_cnt Mock.platform s <= length (component_ids (flash_status s)))%nat /\
  roster_slot 0xdeadbeef (flash_status s') = Some 0%nat.
Proof.
  intros s s'.
  assert (Htok : fst (@validate_token Mock.platform EmptyString s) = SUCCESS_RETURN)
    by reflexivity.
  assert (Hin : roster_slot 0xdeadbeef (flash_status s) = None) by reflexivity.
  assert (Hout : roster_slot 0x11111124 (flash_status s) = Some 0%nat) by reflexivity.
  assert (Hlen : (@roster_cnt Mock.platform s <= length (component_ids (flash_status s)))%nat)
    by (vm_compute; lia).
  split; [exact Htok|]. split; [exact Hin|]. split; [exact Hout|]. split; [exact Hlen|].
  exact (proj1 (@replace_swaps_membership Mock.platform EmptyString EmptyString s 0%nat
                  Htok Hin Hout Hlen)).
Defined.

Ltac run := vm_compute; repeat split; solve [reflexivity | discriminate | lia].

(** The record of the first boot is read back after a power cycle. *)
Lemma init_loads_written_record_witness :
  let e := flash_status Mock.provisioned in
  let s := Mock.reboot Mock.provisioned in
  entry_ok (@HASH_LEN Mock.platform) (@IV_LEN Mock.platform) e /\
  words_ok e /\ @sealed Mock.platform e /\ @cipher_ok Mock.platform e /\
  (24 <= @HASH_LEN Mock.platform)%nat /\
  @holds_record Mock.platform (flash s) e /\
  @init Mock.platform s = (tt, set_flash_status e s).
Proof.
  intros e s.
  assert (H1 : entry_ok (@HASH_LEN Mock.platform) (@IV_LEN Mock.platform) e) by run.
  assert (H2 : words_ok e) by (split; [run | apply words_check; vm_compute; reflexivity]).
  assert (H3 : @sealed Mock.platform e) by run.
  assert (H4 : @cipher_ok Mock.platform e)
    by (split; [vm_compute; reflexivity | apply is_byte_check; vm_compute; reflexivity]).
  assert (H5 : (24 <= @HASH_LEN Mock.platform)%nat) by run.
  assert (H6 : @holds_record Mock.platform (flash s) e) by (vm_compute; reflexivity).
  split; [exact H1|]. split; [exact H2|]. split; [exact H3|]. split; [exact H4|].
  split; [exact H5|]. split; [exact H6|].
  exact (@init_loads_written_record Mock.platform e s H1 H2 H3 H4 H5 H6).
Defined.

(** A page that was never written: the record [init] leaves is sealed. *)
Lemma init_leaves_sealed_record_witness :
  (@sizeof_flash_entry Mock.platform <= length (flash Mock.first_boot))%nat /\
  (24 <= @HASH_LEN Mock.platform)%nat /\
  0 <= @COMPONENT_CNT Mock.platform <= 32 /\
  flash_magic (flash_status (snd (@init Mock.platform Mock.first_boot))) = 0xDEADBEEF.
Proof.
  assert (H1 : (@sizeof_flash_entry Mock.platform <= length (flash Mock.first_boot))%nat) by run.
  assert (H2 : (24 <= @HASH_LEN Mock.platform)%nat) by run.
  assert (H3 : 0 <= @COMPONENT_CNT Mock.platform <= 32) by run.
  split; [exact H1|]. split; [exact H2|]. split; [exact H3|].
  exact (proj1 (@init_leaves_sealed_record Mock.platform Mock.first_boot H1 H2 H3)).
Defined.

(** First boot: the checks fail and the build-time roster is written. *)
Lemma init_reset_provisions_build_roster_witness :
  (@sizeof_flash_entry Mock.platform <= length (flash Mock.first_boot))%nat /\
  (24 <= @HASH_LEN Mock.platform)%nat /\ (16 <= @IV_LEN Mock.platform)%nat /\
  0 <= @COMPONENT_CNT Mock.platform <= 32 /\
  (Z.to_nat (@COMPONENT_CNT Mock.platform) <= length (@COMPONENT_IDS Mock.platform))%nat /\
  @integrity_ok Mock.platform Mock.first_boot = false /\
  provisioned_ids (flash_status (snd (@init Mock.platform Mock.first_boot)))
  = [0x11111124; 0x11111125].
Proof.
  assert (H1 : (@sizeof_flash_entry Mock.platform <= length (flash Mock.first_boot))%nat) by run.
  assert (H2 : (24 <= @HASH_LEN Mock.platform)%nat) by run.
  assert (H3 : (16 <= @IV_LEN Mock.platform)%nat) by run.
  assert (H4 : 0 <= @COMPONENT_CNT Mock.platform <= 32) by run.
  assert (H5 : (Z.to_nat (@COMPONENT_CNT Mock.platform)
                <= length (@COMPONENT_IDS Mock.platform))%nat) by run.
  assert (H6 : @integrity_ok Mock.platform Mock.first_boot = false) by (vm_compute; reflexivity).
  split; [exact H1|]. split; [exact H2|]. split; [exact H3|]. split; [exact H4|].
  split; [exact H5|]. split; [exact H6|].
  destruct (@init_reset_provisions_build_roster Mock.platform Mock.first_boot H1 H2 H3 H4 H5 H6)
    as (_ & Hids & _).
  exact Hids.
Defined.

(** The page of the first boot is accepted by the next [init]. *)
Lemma init_accepts_own_page_witness :
  let s2 := Mock.reboot Mock.provisioned in
  (@sizeof_flash_entry Mock.platform <= length (flash Mock.first_boot))%nat /\
  (24 <= @HASH_LEN Mock.platform)%nat /\ (16 <= @IV_LEN Mock.platform)%nat /\
  0 <= @COMPONENT_CNT Mock.platform <= 32 /\
  0 <= @FLASH_MAGIC Mock.platform < 4294967296 /\
  Forall (fun v => 0 <= v < 4294967296) (@COMPONENT_IDS Mock.platform) /\
  @cipher_ok Mock.platform (@reset_entry Mock.platform Mock.first_boot) /\
  flash s2 = flash (snd (@init Mock.platform Mock.first_boot)) /\
  flash_status (snd (@init Mock.platform s2)) = flash_status Mock.provisioned.
Proof.
  intros s2.
  assert (H1 : (@sizeof_flash_entry Mock.platform <= length (flash Mock.first_boot))%nat) by run.
  assert (H2 : (24 <= @HASH_LEN Mock.platform)%nat) by run.
  assert (H3 : (16 <= @IV_LEN Mock.platform)%nat) by run.
  assert (H4 : 0 <= @COMPONENT_CNT Mock.platform <= 32) by run.
  assert (H5 : 0 <= @FLASH_MAGIC Mock.platform < 4294967296) by run.
  assert (H6 : Forall (fun v => 0 <= v < 4294967296) (@COMPONENT_IDS Mock.platform))
    by (apply words_check; vm_compute; reflexivity).
  assert (H7 : @cipher_ok Mock.platform (@reset_entry Mock.platform Mock.first_boot))
    by (split; [vm_compute; reflexivity | apply is_byte_check; vm_compute; reflexivity]).
  assert (H8 : flash s2 = flash (snd (@init Mock.platform Mock.first_boot)))
    by (vm_compute; reflexivity).
  split; [exact H1|]. split; [exact H2|]. split; [exact H3|]. split; [exact H4|].
  split; [exact H5|]. split; [exact H6|]. split; [exact H7|]. split; [exact H8|].
  rewrite (@init_accepts_own_page Mock.platform Mock.first_boot s2 H1 H2 H3 H4 H5 H6 H7 H8).
  vm_compute. reflexivity.
Defined.

(** The swap of 0x11111124 for 0xdeadbeef is still there after a power
    cycle. *)
Lemma replace_survives_reboot_witness :
  let s := Mock.at_console "deadbeef" "11111124" Mock.provisioned in
  let s' := snd (@attempt_replace Mock.platform EmptyString EmptyString s) in
  let s2 := Mock.reboot s' in
  fst (@validate_token Mock.platform EmptyString s) = SUCCESS_RETURN /\
  roster_slot 0xdeadbeef (flash_status s) = None /\
  roster_slot 0x11111124 (flash_status s) = Some 0%nat /\
  entry_ok (@HASH_LEN Mock.platform) (@IV_LEN Mock.platform) (flash_status s) /\
  words_ok (flash_status s) /\
  flash_magic (flash_status s) = @FLASH_MAGIC Mock.platform /\
  0 <= 0xdeadbeef < 4294967296 /\
  (24 <= @HASH_LEN Mock.platform)%nat /\
  @cipher_ok Mock.platform (flash_status s') /\
  flash s2 = flash s' /\
  @roster_id Mock.platform 0 (snd (@init Mock.platform s2)) = 0xdeadbeef.
Proof.
  intros s s' s2.
  assert (H1 : fst (@validate_token Mock.platform EmptyString s) = SUCCESS_RETURN)
    by (vm_compute; reflexivity).
  assert (H2 : roster_slot 0xdeadbeef (flash_status s) = None) by (vm_compute; reflexivity).
  assert (H3 : roster_slot 0x11111124 (flash_status s) = Some 0%nat)
    by (vm_compute; reflexivity).
  assert (H4 : entry_ok (@HASH_LEN Mock.platform) (@IV_LEN Mock.platform) (flash_status s))
    by run.
  assert (H5 : words_ok (flash_status s))
    by (split; [run | apply words_check; vm_compute; reflexivity]).
  assert (H6 : flash_magic (flash_status s) = @FLASH_MAGIC Mock.platform)
    by (vm_compute; reflexivity).
  assert (H7 : 0 <= 0xdeadbeef < 4294967296) by lia.
  assert (H8 : (24 <= @HASH_LEN Mock.platform)%nat) by run.
  assert (H9 : @cipher_ok Mock.platform (flash_status s'))
    by (split; [vm_compute; reflexivity | apply is_byte_check; vm_compute; reflexivity]).
  assert (H10 : flash s2 = flash s') by reflexivity.
  split; [exact H1|]. split; [exact H2|]. split; [exact H3|]. split; [exact H4|].
  split; [exact H5|]. split; [exact H6|]. split; [exact H7|]. split; [exact H8|].
  split; [exact H9|]. split; [exact H10|].
  exact (proj2 (@replace_survives_reboot Mock.platform EmptyString EmptyString s s2 0%nat
                  H1 H2 H3 H4 H5 H6 H7 H8 H9 H10)).
Defined.

(** Both components validate and boot. *)
Lemma boot_only_when_all_valid_witness :
  let s := Mock.mk Mock.roster2 (Mock.mkWorld [] Mock.boot_script [] 0) in
  fst (@attempt_boot Mock.platform Mock.stale_challenges s) = true /\
  @component_valid Mock.platform 1
    (snd (@validate_before Mock.platform Mock.stale_challenges s 1)) = true.
Proof.
  intros s.
  assert (H : fst (@attempt_boot Mock.platform Mock.stale_challenges s) = true)
    by (vm_compute; reflexivity).
  split; [exact H|].
  destruct (@boot_only_when_all_valid Mock.platform Mock.stale_challenges s) as (Hb & _).
  destruct (proj1 Hb H) as (Hvalid & _).
  apply Hvalid. vm_compute. lia.
Defined.

(** A board with no provisioned component boots at once. *)
Lemma boot_with_empty_roster_witness :
  @roster_cnt Mock.platform Mock.first_boot = 0%nat /\
  fst (@attempt_boot Mock.platform [] Mock.first_boot) = true.
Proof.
  assert (H : @roster_cnt Mock.platform Mock.first_boot = 0%nat) by reflexivity.
  split; [exact H|].
  exact (proj1 (@boot_with_empty_roster Mock.platform [] Mock.first_boot H)).
Defined.

Lemma mock_dead_bus (addr : Z) (fr : msg_t * msg_t) (w : Mock.mock_world) :
  fst (fst (@ap_transmit Mock.dead addr fr w)) <> SUCCESS_RETURN.
Proof.
  unfold Mock.dead, with_transmit_result. cbn [ap_transmit].
  destruct (@ap_transmit Mock.platform addr fr w) as [[r fr'] w']. cbn. discriminate.
Qed.

(** A scan on the dead bus, although the script holds an answer. *)
Lemma dead_bus_scan_reports_nothing_witness :
  let s := Mock.mk Mock.roster2 (Mock.mkWorld [] Mock.scan_script [] 0) in
  (forall addr fr w, fst (fst (@ap_transmit Mock.dead addr fr w)) <> SUCCESS_RETURN) /\
  prints (trace (snd (@scan_components Mock.dead s)))
  = [ (Info, "P>0x11111124" ++ NL); (Info, "P>0x11111125" ++ NL);
      (Success, "List" ++ NL) ]%string.
Proof.
  intros s. split; [exact mock_dead_bus|].
  rewrite (@dead_bus_scan_reports_nothing Mock.dead mock_dead_bus s). reflexivity.
Defined.

(** A boot attempt on the dead bus. *)
Lemma dead_bus_refuses_boot_witness :
  let s := Mock.mk Mock.roster2 (Mock.mkWorld [] Mock.boot_script [] 0) in
  (forall addr fr w, fst (fst (@ap_transmit Mock.dead addr fr w)) <> SUCCESS_RETURN) /\
  (0 < @roster_cnt Mock.dead s)%nat /\
  fst (@attempt_boot Mock.dead Mock.stale_challenges s) = false.
Proof.
  intros s.
  assert (H : (0 < @roster_cnt Mock.dead s)%nat) by (vm_compute; lia).
  split; [exact mock_dead_bus|]. split; [exact H|].
  exact (proj1 (@dead_bus_refuses_boot Mock.dead mock_dead_bus Mock.stale_challenges s H)).
Defined.

(** The operator enters a wrong PIN. *)
Lemma attest_wrong_pin_witness :
  let s := Mock.mk Mock.roster2 (Mock.typed ["000000"%string; "11111124"%string]) in
  let s' := snd (@attempt_attest Mock.platform "123456" EmptyString EmptyString 0 s) in
  fst (@validate_pin Mock.platform "123456" EmptyString s) = ERROR_RETURN /\
  bus_calls (trace s') = [] /\
  Mock.stdin (world s') = [Mock.entered "11111124"].
Proof.
  intros s s'.
  assert (H : fst (@validate_pin Mock.platform "123456" EmptyString s) = ERROR_RETURN)
    by reflexivity.
  split; [exact H|].
  destruct (@attest_wrong_pin Mock.platform "123456" EmptyString EmptyString 0 s H)
    as (Htr & Hw & _).
  split; [unfold s'; rewrite Htr; reflexivity|].
  unfold s'. rewrite Hw. reflexivity.
Defined.

(** The PIN is right and the id entered is "zz": the component attested is
    the one whose id the stack happened to hold. *)
Lemma attest_unparsed_id_is_stale_witness :
  let s := Mock.mk Mock.roster2
             (Mock.mkWorld [] Mock.attest_script
                [Mock.entered "123456"; Mock.entered "zz"] 0) in
  let s1 := snd (@validate_pin Mock.platform "123456" EmptyString s) in
  let s' := snd (@attempt_attest Mock.platform "123456" EmptyString EmptyString 0x11111124 s) in
  fst (@validate_pin Mock.platform "123456" EmptyString s) = SUCCESS_RETURN /\
  @sscanf_x Mock.platform
    (fst (@recv_input Mock.platform "Component ID: " EmptyString 50 s1)) = None /\
  s' = snd (@attest_component Mock.platform 0x11111124
              (snd (@recv_input Mock.platform "Component ID: " EmptyString 50 s1))).
Proof.
  intros s s1 s'.
  assert (H1 : fst (@validate_pin Mock.platform "123456" EmptyString s) = SUCCESS_RETURN)
    by reflexivity.
  assert (H2 : @sscanf_x Mock.platform
                 (fst (@recv_input Mock.platform "Component ID: " EmptyString 50 s1)) = None)
    by reflexivity.
  split; [exact H1|]. split; [exact H2|].
  exact (proj1 (@attest_unparsed_id_is_stale Mock.platform "123456" EmptyString EmptyString
                  0x11111124 s H1 H2)).
Defined.

(** A list command leaves the flash alone. *)
Lemma flash_written_only_by_replace_witness :
  let s := Mock.mk Mock.roster2 (Mock.mkWorld [] Mock.scan_script [] 0) in
  let s' := snd (@dispatch Mock.platform "123456" Mock.stale_stack "list" s) in
  ("list" <> "replace")%string /\
  flash s' = flash s /\ flash_status s' = flash_status s.
Proof.
  intros s s'.
  assert (H : ("list" <> "replace")%string) by discriminate.
  split; [exact H|].
  destruct (@flash_written_only_by_replace Mock.platform "123456" Mock.stale_stack "list" s)
    as (Hu & _).
  destruct (Hu (or_introl H)) as (Hf & Hfs & _).
  split; [exact Hf | exact Hfs].
Defined.

(** A first boot followed by one replace command: two records written. *)
Lemma main_flash_discipline_witness :
  let s := mkState Mock.zero_msg Mock.zero_msg (mkEntry 0 0 [] [] []) (repeat 255 256%nat)
             (Mock.typed ["replace"%string; "0123456789abcdef"%string;
                          "deadbeef"%string; "11111124"%string]) [] in
  let s' := snd (@main Mock.platform "123456" [Mock.stale_stack] EmptyString s) in
  (@sizeof_flash_entry Mock.platform <= length (flash s))%nat /\
  (24 <= @HASH_LEN Mock.platform)%nat /\
  0 <= @COMPONENT_CNT Mock.platform <= 32 /\
  @well_sealed Mock.platform (flash_status s') /\
  length (flash_ops (trace s')) = 4%nat.
Proof.
  intros s s'.
  assert (H1 : (@sizeof_flash_entry Mock.platform <= length (flash s))%nat) by run.
  assert (H2 : (24 <= @HASH_LEN Mock.platform)%nat) by run.
  assert (H3 : 0 <= @COMPONENT_CNT Mock.platform <= 32) by run.
  split; [exact H1|]. split; [exact H2|]. split; [exact H3|].
  destruct (@main_flash_discipline Mock.platform "123456" [Mock.stale_stack] EmptyString s
              H1 H2 H3) as (es & _ & _ & _ & _ & Hw).
  split; [exact Hw|]. vm_compute. reflexivity.
Defined.

(** An unknown command. *)
Lemma command_loop_step_witness :
  let s := Mock.mk Mock.roster2 (Mock.typed ["reboot"%string]) in
  ("reboot" <> "list")%string /\ ("reboot" <> "boot")%string /\
  ("reboot" <> "replace")%string /\ ("reboot" <> "attest")%string /\
  prints (trace (snd (@command_loop Mock.platform "123456" [Mock.stale_stack] EmptyString s)))
  = [ (Debug, "Enter Command: "); (Error, "Unrecognized command 'reboot'" ++ NL) ]%string.
Proof.
  intros s.
  assert (H1 : ("reboot" <> "list")%string) by discriminate.
  assert (H2 : ("reboot" <> "boot")%string) by discriminate.
  assert (H3 : ("reboot" <> "replace")%string) by discriminate.
  assert (H4 : ("reboot" <> "attest")%string) by discriminate.
  split; [exact H1|]. split; [exact H2|]. split; [exact H3|]. split; [exact H4|].
  destruct (@command_loop_step Mock.platform "123456" Mock.stale_stack [] EmptyString s)
    as (Hloop & _ & Hunknown).
  rewrite Hloop. rewrite (Hunknown H1 H2 H3 H4). reflexivity.
Defined.
